(** * aws_strand_agent: the Bedrock agent manager and its command-line helpers

    A shallow embedding of [src/aws_strand_sdk/agent_manager.py] and of the
    identifier helpers of [src/cli.py], with the properties the
    specification states about them.

    Python values are modelled as follows.
    - [str] is a list of Unicode code points ([pystr]); literals are written
      [u "..."].
    - [bytes] is a list of [Byte.byte].
    - a [dict] with string values is a [gmap pystr pystr]; a response dict
      whose keys carry values of different types is a record of optional
      fields (an absent key is [None]).
    - exceptions are the constructors of [exn]; a method of [AgentManager]
      is a computation in the monad [M], which threads the state of the
      outside world (the remote service and the clock) and a log of the
      calls made to it. *)

From Stdlib Require Import ZArith QArith Lia Lqa.
From Stdlib.Strings Require Import String Ascii Byte.
From stdpp Require Import base option list gmap.

Local Open Scope list_scope.

(** * Python strings *)

Module PyStr.

Abbreviation pystr := (list N).

(** A string literal of the source. *)
Definition u (s : string) : pystr :=
  List.map N_of_ascii (list_ascii_of_string s).

Arguments u : simpl never.

(** [s.startswith(p)] *)
Fixpoint startswith (p s : pystr) : bool :=
  match p, s with
  | [], _ => true
  | _ :: _, [] => false
  | a :: p', b :: s' => if N.eqb a b then startswith p' s' else false
  end.

(** [sub in s] *)
Fixpoint contains (sub s : pystr) : bool :=
  startswith sub s ||
  match s with
  | [] => false
  | _ :: s' => contains sub s'
  end.

(** [s.split(sep)] for a non-empty separator: the string is scanned from the
    left; at a position where [sep] starts the piece read so far is closed
    and the scan resumes after the separator.  [cur] is the piece being
    read.  The fuel is the length of the text still to scan. *)
Fixpoint split_go (fuel : nat) (sep cur s : pystr) : list pystr :=
  match fuel with
  | O => [cur ++ s]
  | S fuel' =>
      match s with
      | [] => [cur]
      | c :: s' =>
          if startswith sep s
          then cur :: split_go fuel' sep [] (drop (length sep) s)
          else split_go fuel' sep (cur ++ [c]) s'
      end
  end.

(** Python raises [ValueError] on an empty separator; every call site of the
    source passes a literal, non-empty one, and [split] is only defined
    there: on an empty separator it returns no piece at all. *)
Definition split (sep s : pystr) : list pystr :=
  match sep with
  | [] => []
  | _ :: _ => split_go (length s) sep [] s
  end.

(** [str.isspace] on one character, as [str.strip()] uses it. *)
Definition isspace (c : N) : bool :=
  ((9 <=? c) && (c <=? 13) || (28 <=? c) && (c <=? 32)
   || (c =? 133) || (c =? 160) || (c =? 5760)
   || (8192 <=? c) && (c <=? 8202)
   || (c =? 8232) || (c =? 8233) || (c =? 8239) || (c =? 8287)
   || (c =? 12288))%N.

Fixpoint lstrip (s : pystr) : pystr :=
  match s with
  | [] => []
  | c :: s' => if isspace c then lstrip s' else s
  end.

Definition rstrip (s : pystr) : pystr := rev (lstrip (rev s)).

(** [s.strip()] *)
Definition strip (s : pystr) : pystr := rstrip (lstrip s).

(** ["".join(chunks)] *)
Definition join (chunks : list pystr) : pystr := concat chunks.

(** [bool(s)] *)
Definition truthy (s : pystr) : bool :=
  match s with [] => false | _ :: _ => true end.

(** ** [bytes.decode("utf-8", errors="ignore")]

    CPython's decoder: a well-formed sequence gives its code point; at an
    ill-formed one the bytes read up to the offending byte are dropped and
    decoding resumes at that byte; a sequence cut short by the end of the
    data is dropped. *)

Definition is_continuation (b : N) : bool := ((128 <=? b) && (b <? 192))%N.

Definition low6 (b : N) : N := N.land b 63.

Fixpoint decode_utf8_ignore (bs : list byte) : pystr :=
  match bs with
  | [] => []
  | b1 :: r1 =>
      let c1 := Byte.to_N b1 in
      if (c1 <? 128)%N then c1 :: decode_utf8_ignore r1
      else if (c1 <? 194)%N then decode_utf8_ignore r1
      else if (c1 <? 224)%N then
        match r1 with
        | [] => []
        | b2 :: r2 =>
            let c2 := Byte.to_N b2 in
            if is_continuation c2
            then N.lor (N.shiftl (N.land c1 31) 6) (low6 c2)
                 :: decode_utf8_ignore r2
            else decode_utf8_ignore r1
        end
      else if (c1 <? 240)%N then
        match r1 with
        | [] => []
        | b2 :: r2 =>
            let c2 := Byte.to_N b2 in
            if is_continuation c2
               && negb (if (c2 <? 160)%N then (c1 =? 224)%N else (c1 =? 237)%N)
            then
              match r2 with
              | [] => []
              | b3 :: r3 =>
                  let c3 := Byte.to_N b3 in
                  if is_continuation c3
                  then N.lor (N.shiftl (N.land c1 15) 12)
                         (N.lor (N.shiftl (low6 c2) 6) (low6 c3))
                       :: decode_utf8_ignore r3
                  else decode_utf8_ignore r2
              end
            else decode_utf8_ignore r1
        end
      else if (c1 <? 245)%N then
        match r1 with
        | [] => []
        | b2 :: r2 =>
            let c2 := Byte.to_N b2 in
            if is_continuation c2
               && negb (if (c2 <? 144)%N then (c1 =? 240)%N else (c1 =? 244)%N)
            then
              match r2 with
              | [] => []
              | b3 :: r3 =>
                  let c3 := Byte.to_N b3 in
                  if is_continuation c3
                  then
                    match r3 with
                    | [] => []
                    | b4 :: r4 =>
                        let c4 := Byte.to_N b4 in
                        if is_continuation c4
                        then N.lor (N.shiftl (N.land c1 7) 18)
                               (N.lor (N.shiftl (low6 c2) 12)
                                  (N.lor (N.shiftl (low6 c3) 6) (low6 c4)))
                             :: decode_utf8_ignore r4
                        else decode_utf8_ignore r3
                    end
                  else decode_utf8_ignore r2
              end
            else decode_utf8_ignore r1
        end
      else decode_utf8_ignore r1
  end.

(** The bytes of an ASCII literal, for writing test streams. *)
Definition b (s : string) : list byte := list_byte_of_string s.

End PyStr.

Import PyStr.

(** * Exceptions

    [ClientError] and [EventStreamError] are botocore's; they carry the
    error code of [e.response["Error"]["Code"]] (absent when the response
    has none) and the text [str(e)].  [RuntimeError] carries the exception
    it was raised [from], when there is one. *)

#[warnings="-register-all"]
Inductive exn : Type :=
| ClientError (code : option pystr) (text : pystr)
| EventStreamError (code : option pystr) (text : pystr)
| RuntimeError (msg : pystr) (cause : option exn)
| TimeoutError (msg : pystr)
| KeyError (key : pystr)
| ValueError (msg : pystr)
| IndexError.

(** The outcome of running Python code: a value, a raised exception, or
    [NoFuel] when a loop of the model ran out of the iterations it was
    given (the source loop is unbounded). *)
Inductive res (A : Type) : Type :=
| Ok (a : A)
| Raise (e : exn)
| NoFuel.

Arguments Ok {A} a.
Arguments Raise {A} e.
Arguments NoFuel {A}.

(** [l[-1]] and [l[0]] *)
Definition index_last {A} (l : list A) : res A :=
  match last l with
  | Some x => Ok x
  | None => Raise IndexError
  end.

Definition index_first {A} (l : list A) : res A :=
  match l with
  | x :: _ => Ok x
  | [] => Raise IndexError
  end.

(** * cli.py: identifier helpers *)

Definition arn_prefix : pystr := u "arn:aws:bedrock:".
Definition alias_marker : pystr := u "/alias/".
Definition agent_marker : pystr := u "/agent/".
Definition slash : pystr := u "/".

(** The test both helpers make before they parse:
    [value and value.startswith("arn:aws:bedrock:") and marker in value]. *)
Definition is_locator (marker value : pystr) : bool :=
  truthy value && startswith arn_prefix value && contains marker value.

(** [_extract_alias_id]: the [try] body is [value.split("/alias/")[-1]];
    [except Exception] returns [value]. *)
Definition _extract_alias_id (value : pystr) : pystr :=
  if is_locator alias_marker value
  then
    match index_last (split alias_marker value) with
    | Ok r => r
    | _ => value
    end
  else value.

(** [_extract_agent_id]: the [try] body is
    [after = value.split("/agent/")[-1]; return after.split("/")[0]]. *)
Definition _extract_agent_id (value : pystr) : pystr :=
  if is_locator agent_marker value
  then
    match index_last (split agent_marker value) with
    | Ok after =>
        match index_first (split slash after) with
        | Ok r => r
        | _ => value
        end
    | _ => value
    end
  else value.

(** The specification's [normalizeIdentifier(value, kind)] names the pair
    of helpers. *)
Inductive kind : Type := agent | alias.

Definition normalizeIdentifier (value : pystr) (k : kind) : pystr :=
  match k with
  | agent => _extract_agent_id value
  | alias => _extract_alias_id value
  end.

(** * The outside world

    Response dicts of the control plane and of the runtime.  A key that a
    response may lack is an optional field. *)

Abbreviation dict := (gmap pystr pystr).

Record list_agents_response : Type := {
  agents : option (list dict);
  agentSummaries : option (list dict);
  la_nextToken : option pystr
}.

Record list_agent_aliases_response : Type := {
  agentAliasSummaries : option (list dict);
  agentAliases : option (list dict);
  laa_nextToken : option pystr
}.

(** [{"agent": {...}}], the shape of the answers of [get_agent] and
    [create_agent]. *)
Record agent_response : Type := { agent_field : option dict }.

(** [AgentConfig] *)
Record AgentConfig : Type := {
  region : pystr;
  agent_name : pystr;
  foundation_model : pystr;
  instruction : pystr;
  role_arn : pystr;
  description : pystr;
  idle_ttl_seconds : Z
}.

Record create_agent_request : Type := {
  agentName : pystr;
  rq_instruction : pystr;
  foundationModel : pystr;
  rq_description : pystr;
  idleSessionTTLInSeconds : Z;
  agentResourceRoleArn : pystr;
  clientToken : pystr
}.

Record invoke_agent_request : Type := {
  agentId : pystr;
  agentAliasId : pystr;
  inputText : pystr;
  sessionId : pystr;
  enableTrace : bool
}.

(** One event of the completion stream: [{"chunk": {"bytes": ...}}],
    [{"finalResponse": {"text": ...}}], or a dict with neither key (a trace
    event). *)
Record chunk_dict : Type := { bytes : option (list byte) }.
Record final_dict : Type := { text : option pystr }.
Record event : Type := {
  chunk : option chunk_dict;
  finalResponse : option final_dict
}.

(** The event stream is read lazily: it yields [stream_events] and then
    either ends or raises [stream_failure]. *)
Record event_stream : Type := {
  stream_events : list event;
  stream_failure : option exn
}.

Record invoke_agent_response : Type := { completion : option event_stream }.

(** What the program asks of the outside world, in the order it asks. *)
Inductive call : Type :=
| Call_list_agents (maxResults : Z) (nextToken : option pystr)
| Call_get_agent (agent_id : pystr)
| Call_create_agent (rq : create_agent_request)
| Call_prepare_agent (agent_id : pystr)
| Call_list_agent_aliases (agent_id : pystr) (maxResults : Z)
    (nextToken : option pystr)
| Call_invoke_agent (rq : invoke_agent_request)
| Call_time
| Call_sleep (seconds : Q)
| Call_uuid4.

(** The boto3 clients, the clock and the uuid generator, as a state machine
    over a state [S] of the world's own.  A remote operation answers or
    raises.  [EventStreamError_isa_ClientError] is the class relation of
    [botocore.exceptions] that decides which [except] clause of the source
    receives an [EventStreamError]; botocore declares
    [class EventStreamError(ClientError)], i.e. [true]. *)
Record Env (S : Type) : Type := {
  api_list_agents : Z -> option pystr -> S -> (exn + list_agents_response) * S;
  api_get_agent : pystr -> S -> (exn + agent_response) * S;
  api_create_agent : create_agent_request -> S -> (exn + agent_response) * S;
  api_prepare_agent : pystr -> S -> (exn + dict) * S;
  api_list_agent_aliases :
    pystr -> Z -> option pystr -> S -> (exn + list_agent_aliases_response) * S;
  api_invoke_agent :
    invoke_agent_request -> S -> (exn + invoke_agent_response) * S;
  time_time : S -> Q * S;
  time_sleep : Q -> S -> S;
  uuid4 : S -> pystr * S;
  EventStreamError_isa_ClientError : bool
}.

Arguments api_list_agents {S} _ _ _ _.
Arguments api_get_agent {S} _ _ _.
Arguments api_create_agent {S} _ _ _.
Arguments api_prepare_agent {S} _ _ _.
Arguments api_list_agent_aliases {S} _ _ _ _ _.
Arguments api_invoke_agent {S} _ _ _.
Arguments time_time {S} _ _.
Arguments time_sleep {S} _ _ _.
Arguments uuid4 {S} _ _.
Arguments EventStreamError_isa_ClientError {S} _.

(** The state a computation threads: the world and the log of calls. *)
Record world (S : Type) : Type := World { remote : S; calls : list call }.

Arguments World {S} _ _.
Arguments remote {S} _.
Arguments calls {S} _.

(** * The monad of the methods *)

Definition M (S A : Type) : Type := world S -> res A * world S.

Definition ret {S A} (a : A) : M S A := fun w => (Ok a, w).

Definition raise {S A} (e : exn) : M S A := fun w => (Raise e, w).

Definition no_fuel {S A} : M S A := fun w => (NoFuel, w).

Definition bind {S A B} (m : M S A) (k : A -> M S B) : M S B :=
  fun w =>
    match m w with
    | (Ok a, w') => k a w'
    | (Raise e, w') => (Raise e, w')
    | (NoFuel, w') => (NoFuel, w')
    end.

(** [try: m  except ...: h e]; the handler decides by the class of [e] and
    re-raises what no clause takes. *)
Definition try_except {S A} (m : M S A) (h : exn -> M S A) : M S A :=
  fun w =>
    match m w with
    | (Raise e, w') => h e w'
    | r => r
    end.

#[global] Instance M_ret {S} : MRet (M S) := fun A => @ret S A.
#[global] Instance M_bind {S} : MBind (M S) := fun A B k m => @bind S A B m k.

(** A remote operation: logged, then answered by the world. *)
Definition remote_call {S A} (c : call) (op : S -> (exn + A) * S) : M S A :=
  fun w =>
    let '(r, s') := op (remote w) in
    let w' := World s' (calls w ++ [c]) in
    match r with
    | inl e => (Raise e, w')
    | inr a => (Ok a, w')
    end.

Definition local_call {S A} (c : call) (op : S -> A * S) : M S A :=
  fun w =>
    let '(a, s') := op (remote w) in (Ok a, World s' (calls w ++ [c])).

(** * agent_manager.py: AgentManager *)

(** [x or rest] on an optional list: an absent key and an empty list are
    both falsy. *)
Definition or_list {A} (x : option (list A)) (rest : list A) : list A :=
  match x with
  | Some (a :: l) => a :: l
  | _ => rest
  end.

(** [resp.get("agents") or resp.get("agentSummaries") or []] and
    [resp.get("agentAliasSummaries") or resp.get("agentAliases") or []] *)
Definition agent_items (resp : list_agents_response) : list dict :=
  or_list (agents resp) (or_list (agentSummaries resp) []).

Definition alias_items (resp : list_agent_aliases_response) : list dict :=
  or_list (agentAliasSummaries resp) (or_list (agentAliases resp) []).

(** The reading the specification words: the first key present wins, and
    without either key the page is empty. *)
Definition first_present {A} (x y : option (list A)) : list A :=
  match x, y with
  | Some l, _ => l
  | None, Some l => l
  | None, None => []
  end.

(** [bool(token)] for [token: Optional[str]] *)
Definition truthy_opt (t : option pystr) : bool :=
  match t with
  | Some v => truthy v
  | None => false
  end.

(** [bool(d)] for [d: Optional[dict]] *)
Definition truthy_dict (d : option dict) : bool :=
  match d with
  | Some m => negb (bool_decide (m = ∅))
  | None => false
  end.

(** [a.get(key) == value] *)
Definition has_value (key value : pystr) (a : dict) : bool :=
  bool_decide (a !! key = Some value).

(** [kwargs["nextToken"] = token] only [if token]. *)
Definition kw_token (t : option pystr) : option pystr :=
  if truthy_opt t then t else None.

Definition Qltb (x y : Q) : bool := negb (Qle_bool y x).

Definition access_denied_codes : list pystr :=
  [u "AccessDeniedException"; u "accessDeniedException"].

Definition terminal_statuses : list pystr := [u "FAILED"; u "DELETING"].

Definition invoke_denied_message : pystr :=
  u "Access denied invoking agent. Ensure your caller has bedrock:InvokeAgent and (for streaming) bedrock:InvokeModelWithResponseStream permissions.".

Definition stream_denied_message : pystr :=
  u "Access denied during agent streaming. Grant bedrock:InvokeAgent and bedrock:InvokeModelWithResponseStream to the invoking identity and retry.".

(** [e.response["Error"]["Code"]], and [str(e)]. *)
Definition error_code (e : exn) : option pystr :=
  match e with
  | ClientError c _ | EventStreamError c _ => c
  | _ => None
  end.

Definition str_exn (e : exn) : pystr :=
  match e with
  | ClientError _ t | EventStreamError _ t => t
  | RuntimeError m _ | TimeoutError m | KeyError m | ValueError m => m
  | IndexError => []
  end.

(** The text one stream event contributes to [chunks], if any. *)
Definition event_text (ev : event) : option pystr :=
  match chunk ev with
  | Some c => Some (decode_utf8_ignore (or_list (bytes c) []))
  | None =>
      match finalResponse ev with
      | Some f =>
          match text f with
          | Some txt => if truthy txt then Some txt else None
          | None => None
          end
      | None => None
      end
  end.

(** The two messages of [wait_for_status]. *)
Definition terminal_message (status : pystr) : pystr :=
  u "Agent moved to terminal state: " ++ status.

Definition timeout_message (agent_id desired : pystr) : pystr :=
  u "Timed out waiting for agent " ++ agent_id ++ u " to reach " ++ desired.

(** [n] sleeps of [d] seconds. *)
Fixpoint slept (n : nat) (d : Q) : Q :=
  match n with
  | O => 0
  | Datatypes.S k => d + slept k d
  end.

(** The keyword arguments of [self.agents.create_agent(...)]. *)
Definition create_request (cfg : AgentConfig) (token : pystr)
    : create_agent_request :=
  {| agentName := agent_name cfg;
     rq_instruction := instruction cfg;
     foundationModel := foundation_model cfg;
     rq_description := description cfg;
     idleSessionTTLInSeconds := idle_ttl_seconds cfg;
     agentResourceRoleArn := role_arn cfg;
     clientToken := token |}.

(** The keyword arguments of [self.runtime.invoke_agent(...)]. *)
Definition invoke_request (agent_id alias_id text sid : pystr)
    (enable_trace : bool) : invoke_agent_request :=
  {| agentId := agent_id; agentAliasId := alias_id; inputText := text;
     sessionId := sid; enableTrace := enable_trace |}.

Section AgentManager.

Context {S : Type} (env : Env S).

(** [isinstance(e, ClientError)] and [isinstance(e, EventStreamError)] *)
Definition isinstance_ClientError (e : exn) : bool :=
  match e with
  | ClientError _ _ => true
  | EventStreamError _ _ => EventStreamError_isa_ClientError env
  | _ => false
  end.

Definition isinstance_EventStreamError (e : exn) : bool :=
  match e with
  | EventStreamError _ _ => true
  | _ => false
  end.

Definition now : M S Q := local_call Call_time (time_time env).

(** [time.sleep(d)]: Python refuses a negative length. *)
Definition sleep (d : Q) : M S unit :=
  if Qltb d 0
  then raise (ValueError (u "sleep length must be non-negative"))
  else local_call (Call_sleep d) (fun s => (tt, time_sleep env d s)).

Definition new_uuid : M S pystr := local_call Call_uuid4 (uuid4 env).

(** ** Control plane *)

(** The [while True] loop of [list_agents]; [acc] is [agents]. *)
Fixpoint list_agents_loop (fuel : nat) (max_results : Z) (acc : list dict)
    (token : option pystr) : M S (list dict) :=
  match fuel with
  | O => no_fuel
  | Datatypes.S fuel' =>
      resp ← remote_call (Call_list_agents max_results (kw_token token))
               (api_list_agents env max_results (kw_token token));
      let items := agent_items resp in
      let acc' := acc ++ items in
      let token' := la_nextToken resp in
      if negb (truthy_opt token') then mret acc'
      else list_agents_loop fuel' max_results acc' token'
  end.

Definition list_agents (fuel : nat) (max_results : Z) : M S (list dict) :=
  list_agents_loop fuel max_results [] None.

Definition find_agent_by_name (fuel : nat) (name : pystr)
    : M S (option dict) :=
  l ← list_agents fuel 100;
  mret (List.find (has_value (u "agentName") name) l).

(** [resp["agent"]] *)
Definition get_item_agent (resp : agent_response) : M S dict :=
  match agent_field resp with
  | Some a => mret a
  | None => raise (KeyError (u "agent"))
  end.

Definition get_agent (agent_id : pystr) : M S dict :=
  resp ← remote_call (Call_get_agent agent_id) (api_get_agent env agent_id);
  get_item_agent resp.

Definition create_agent (fuel : nat) (cfg : AgentConfig) : M S dict :=
  try_except
    (token ← new_uuid;
     let rq := create_request cfg token in
     resp ← remote_call (Call_create_agent rq) (api_create_agent env rq);
     get_item_agent resp)
    (fun e =>
       if isinstance_ClientError e then
         if bool_decide (error_code e = Some (u "ConflictException")) then
           existing ← find_agent_by_name fuel (agent_name cfg);
           match existing with
           | Some a =>
               if truthy_dict existing && truthy_opt (a !! u "agentId")
               then get_agent (default [] (a !! u "agentId"))
               else raise e
           | None => raise e
           end
         else raise e
       else raise e).

Definition prepare_agent (agent_id : pystr) : M S dict :=
  remote_call (Call_prepare_agent agent_id) (api_prepare_agent env agent_id).

(** The [while time.time() - start < timeout_s] loop of
    [wait_for_status]. *)
Fixpoint wait_loop (fuel : nat) (agent_id desired : pystr)
    (timeout_s poll_s start : Q) : M S pystr :=
  match fuel with
  | O => no_fuel
  | Datatypes.S fuel' =>
      t ← now;
      if Qltb (t - start) timeout_s then
        resp ← remote_call (Call_get_agent agent_id)
                 (api_get_agent env agent_id);
        a ← get_item_agent resp;
        let status := a !! u "agentStatus" in
        if bool_decide (status = Some desired) then mret desired
        else
          match status with
          | Some st =>
              if bool_decide (st ∈ terminal_statuses)
              then raise (RuntimeError (terminal_message st) None)
              else (_ ← sleep poll_s;
                    wait_loop fuel' agent_id desired timeout_s poll_s start)
          | None =>
              _ ← sleep poll_s;
              wait_loop fuel' agent_id desired timeout_s poll_s start
          end
      else
        raise (TimeoutError (timeout_message agent_id desired))
  end.

Definition wait_for_status (fuel : nat) (agent_id desired : pystr)
    (timeout_s poll_s : Q) : M S pystr :=
  start ← now;
  wait_loop fuel agent_id desired timeout_s poll_s start.

(** The [while True] loop of [list_aliases]. *)
Fixpoint list_aliases_loop (fuel : nat) (agent_id : pystr) (max_results : Z)
    (acc : list dict) (token : option pystr) : M S (list dict) :=
  match fuel with
  | O => no_fuel
  | Datatypes.S fuel' =>
      resp ← remote_call
               (Call_list_agent_aliases agent_id max_results (kw_token token))
               (api_list_agent_aliases env agent_id max_results (kw_token token));
      let items := alias_items resp in
      let acc' := acc ++ items in
      let token' := laa_nextToken resp in
      if negb (truthy_opt token') then mret acc'
      else list_aliases_loop fuel' agent_id max_results acc' token'
  end.

Definition list_aliases (fuel : nat) (agent_id : pystr) (max_results : Z)
    : M S (list dict) :=
  list_aliases_loop fuel agent_id max_results [] None.

(** ** Runtime *)

(** The [for event in resp.get("completion", [])] loop: the events read
    append to [chunks]; a stream that fails raises after its last event. *)
Definition read_stream (st : option event_stream) : M S (list pystr) :=
  match st with
  | None => mret []
  | Some es =>
      match stream_failure es with
      | Some e => raise e
      | None => mret (omap event_text (stream_events es))
      end
  end.

(** [if not session_id: session_id = str(uuid.uuid4())] *)
Definition resolve_session (session_id : option pystr) : M S pystr :=
  if truthy_opt session_id then mret (default [] session_id) else new_uuid.

Definition invoke (agent_id alias_id text : pystr)
    (session_id : option pystr) (enable_trace : bool) : M S pystr :=
  sid ← resolve_session session_id;
  try_except
    (let rq := invoke_request agent_id alias_id text sid enable_trace in
     resp ← remote_call (Call_invoke_agent rq) (api_invoke_agent env rq);
     chunks ← read_stream (completion resp);
     mret (strip (join chunks)))
    (fun e =>
       if isinstance_ClientError e then
         if bool_decide (default [] (error_code e) ∈ access_denied_codes)
         then raise (RuntimeError invoke_denied_message (Some e))
         else raise e
       else if isinstance_EventStreamError e then
         let msg := str_exn e in
         if contains (u "accessDeniedException") msg
            || contains (u "Access denied") msg
         then raise (RuntimeError stream_denied_message (Some e))
         else raise e
       else raise e).

(** ** cli.py: [prepare] and the preparation step of [quickstart]

    Both commands run [m.prepare_agent(agent_id)] and then
    [m.wait_for_status(agent_id, "PREPARED")]; the specification calls the
    sequence [prepareAndWait] and gives it the parameters of
    [wait_for_status]. *)
Definition prepareAndWait (fuel : nat) (agent_id desired : pystr)
    (timeout_s poll_s : Q) : M S pystr :=
  _ ← prepare_agent agent_id;
  wait_for_status fuel agent_id desired timeout_s poll_s.

Definition prepare_cmd (fuel : nat) (agent_id : pystr) : M S pystr :=
  prepareAndWait fuel agent_id (u "PREPARED") 600 10.

End AgentManager.

Definition marker_of (k : kind) : pystr :=
  match k with
  | agent => agent_marker
  | alias => alias_marker
  end.

Definition sample_arn : pystr :=
  u "arn:aws:bedrock:us-east-1:111111111111:agent/A1/alias/B2".

(** * Worlds to run the methods in

    ** A scripted world

    Each remote operation answers its [n]-th call with the [n]-th entry of
    its script; the clock starts at [0], a reading of it costs [tick]
    seconds and a sleep lasts as long as asked. *)

Module Sim.

Record script : Type := {
  on_list_agents : nat -> exn + list_agents_response;
  on_get_agent : nat -> exn + agent_response;
  on_create_agent : nat -> exn + agent_response;
  on_prepare_agent : nat -> exn + dict;
  on_list_agent_aliases : nat -> exn + list_agent_aliases_response;
  on_invoke_agent : nat -> exn + invoke_agent_response;
  tick : Q;
  stream_error_is_client_error : bool
}.

(** The operations a script answers, and the state of the scripted world:
    what was asked so far (latest first) and the time. *)
Inductive op : Type :=
| ListAgents | GetAgent | CreateAgent | PrepareAgent | ListAgentAliases
| InvokeAgent | Uuid4.

#[global] Instance op_eq_dec : EqDecision op.
Proof. solve_decision. Defined.

Record state : Type := { asked : list op; clock : Q }.

Definition start : state := {| asked := []; clock := 0 |}.

Definition count (o : op) (s : state) : nat :=
  length (filter (fun o' => o' = o) (asked s)).

(** The [n]-th call of [o] gets [f n]. *)
Definition answer {A} (o : op) (f : nat -> A) (s : state) : A * state :=
  (f (count o s), {| asked := o :: asked s; clock := clock s |}).

Definition env (sc : script) : Env state :=
  {| api_list_agents := fun _ _ => answer ListAgents (on_list_agents sc);
     api_get_agent := fun _ => answer GetAgent (on_get_agent sc);
     api_create_agent := fun _ => answer CreateAgent (on_create_agent sc);
     api_prepare_agent := fun _ => answer PrepareAgent (on_prepare_agent sc);
     api_list_agent_aliases := fun _ _ _ =>
       answer ListAgentAliases (on_list_agent_aliases sc);
     api_invoke_agent := fun _ => answer InvokeAgent (on_invoke_agent sc);
     time_time := fun s =>
       (clock s, {| asked := asked s; clock := Qred (clock s + tick sc) |});
     time_sleep := fun d s =>
       {| asked := asked s; clock := Qred (clock s + d) |};
     uuid4 := answer Uuid4 (fun n => u "uuid-" ++ replicate n 35%N);
     EventStreamError_isa_ClientError := stream_error_is_client_error sc |}.

Definition world0 : world state := World start [].

(** Answers of a service that is not asked. *)
Definition unavailable {A} : exn + A :=
  inl (ClientError (Some (u "ServiceUnavailableException")) (u "unavailable")).

End Sim.

(** ** A reference control plane

    A service that keeps agent names unique, as the specification describes
    the remote one: a creation under a name already taken is refused with
    the code [ConflictException]; otherwise the agent is stored under a
    fresh id.  [list_agents] answers with every stored agent on one page,
    [get_agent] with the stored agent of that id. *)

Module Service.

Record state : Type := { store : list dict; issued : nat }.

Definition fresh_id (n : nat) : pystr := u "AGENT" ++ replicate n 73%N.

Definition new_agent (rq : create_agent_request) (st : state) : dict :=
  <[u "agentId" := fresh_id (length (store st))]>
    (<[u "agentName" := agentName rq]>
       (<[u "agentStatus" := u "CREATING"]>
          (<[u "foundationModel" := foundationModel rq]> ∅))).

Definition conflict (name : pystr) : exn :=
  ClientError (Some (u "ConflictException"))
    (u "An error occurred (ConflictException) when calling the CreateAgent operation: " ++ name).

Definition not_found (id : pystr) : exn :=
  ClientError (Some (u "ResourceNotFoundException"))
    (u "An error occurred (ResourceNotFoundException) when calling the GetAgent operation: " ++ id).

Definition create (rq : create_agent_request) (st : state)
    : (exn + agent_response) * state :=
  if existsb (has_value (u "agentName") (agentName rq)) (store st)
  then (inl (conflict (agentName rq)), st)
  else (inr {| agent_field := Some (new_agent rq st) |},
        {| store := store st ++ [new_agent rq st]; issued := issued st |}).

Definition get (id : pystr) (st : state) : (exn + agent_response) * state :=
  match List.find (has_value (u "agentId") id) (store st) with
  | Some a => (inr {| agent_field := Some a |}, st)
  | None => (inl (not_found id), st)
  end.

Definition env : Env state :=
  {| api_list_agents := fun _ _ st =>
       (inr {| agents := None; agentSummaries := Some (store st);
               la_nextToken := None |}, st);
     api_get_agent := get;
     api_create_agent := create;
     api_prepare_agent := fun _ st => (Sim.unavailable, st);
     api_list_agent_aliases := fun _ _ _ st => (Sim.unavailable, st);
     api_invoke_agent := fun _ st => (Sim.unavailable, st);
     time_time := fun st => (0%Q, st);
     time_sleep := fun _ st => st;
     uuid4 := fun st =>
       (u "uuid-" ++ replicate (issued st) 35%N,
        {| store := store st; issued := Datatypes.S (issued st) |});
     EventStreamError_isa_ClientError := true |}.

Definition empty : state := {| store := []; issued := 0 |}.

End Service.

(** ** Test data *)

Module Fixtures.

Definition cfg0 : AgentConfig :=
  {| region := u "us-east-1";
     agent_name := u "strand-demo-agent";
     foundation_model := u "anthropic.claude-3-haiku-20240307-v1:0";
     instruction := u "You are a helpful assistant that answers questions.";
     role_arn := u "arn:aws:iam::111111111111:role/agent";
     description := u "Sample agent created by aws_strand_sdk";
     idle_ttl_seconds := 600 |}.

Definition summary (id name status : pystr) : dict :=
  <[u "agentId" := id]>
    (<[u "agentName" := name]> (<[u "agentStatus" := status]> ∅)).

Definition one_page (items : list dict) : exn + list_agents_response :=
  inr {| agents := None; agentSummaries := Some items; la_nextToken := None |}.

(** The creation is refused with a conflict and no agent is listed. *)
Definition conflict_nothing_listed : Sim.script :=
  {| Sim.on_list_agents := fun _ => one_page [];
     Sim.on_get_agent := fun _ => Sim.unavailable;
     Sim.on_create_agent := fun _ => inl (Service.conflict (agent_name cfg0));
     Sim.on_prepare_agent := fun _ => Sim.unavailable;
     Sim.on_list_agent_aliases := fun _ => Sim.unavailable;
     Sim.on_invoke_agent := fun _ => Sim.unavailable;
     Sim.tick := 0;
     Sim.stream_error_is_client_error := true |}.

(** The creation is refused with a conflict and the agent is listed. *)
Definition conflict_listed : Sim.script :=
  {| Sim.on_list_agents := fun _ =>
       one_page [summary (u "OTHER") (u "another-agent") (u "PREPARED");
                 summary (u "A1") (agent_name cfg0) (u "PREPARED")];
     Sim.on_get_agent := fun _ =>
       inr {| agent_field :=
                Some (summary (u "A1") (agent_name cfg0) (u "PREPARED")) |};
     Sim.on_create_agent := fun _ => inl (Service.conflict (agent_name cfg0));
     Sim.on_prepare_agent := fun _ => Sim.unavailable;
     Sim.on_list_agent_aliases := fun _ => Sim.unavailable;
     Sim.on_invoke_agent := fun _ => Sim.unavailable;
     Sim.tick := 0;
     Sim.stream_error_is_client_error := true |}.

(** The creation is refused for another reason. *)
Definition throttled : exn :=
  ClientError (Some (u "ThrottlingException")) (u "Rate exceeded").

Definition creation_throttled : Sim.script :=
  {| Sim.on_list_agents := fun _ => one_page [];
     Sim.on_get_agent := fun _ => Sim.unavailable;
     Sim.on_create_agent := fun _ => inl throttled;
     Sim.on_prepare_agent := fun _ => Sim.unavailable;
     Sim.on_list_agent_aliases := fun _ => Sim.unavailable;
     Sim.on_invoke_agent := fun _ => Sim.unavailable;
     Sim.tick := 0;
     Sim.stream_error_is_client_error := true |}.

(** Three pages of two agents each, under either key, and the same for
    aliases. *)
Definition item (n : nat) : dict :=
  summary (u "ID" ++ replicate n 73%N) (u "agent" ++ replicate n 73%N)
    (u "PREPARED").

Definition agents_page (n : nat) : list_agents_response :=
  match n with
  | 0 => {| agents := Some [item 0; item 1]; agentSummaries := None;
            la_nextToken := Some (u "t1") |}
  | 1 => {| agents := None; agentSummaries := Some [item 2; item 3];
            la_nextToken := Some (u "t2") |}
  | _ => {| agents := Some [item 4; item 5]; agentSummaries := Some [item 0];
            la_nextToken := None |}
  end.

Definition aliases_page (n : nat) : list_agent_aliases_response :=
  match n with
  | 0 => {| agentAliasSummaries := Some [item 0; item 1]; agentAliases := None;
            laa_nextToken := Some (u "t1") |}
  | 1 => {| agentAliasSummaries := None; agentAliases := Some [item 2; item 3];
            laa_nextToken := Some (u "t2") |}
  | _ => {| agentAliasSummaries := Some [item 4; item 5]; agentAliases := None;
            laa_nextToken := Some [] |}
  end.

Definition three_pages : Sim.script :=
  {| Sim.on_list_agents := fun n => inr (agents_page n);
     Sim.on_get_agent := fun _ => Sim.unavailable;
     Sim.on_create_agent := fun _ => Sim.unavailable;
     Sim.on_prepare_agent := fun _ => Sim.unavailable;
     Sim.on_list_agent_aliases := fun n => inr (aliases_page n);
     Sim.on_invoke_agent := fun _ => Sim.unavailable;
     Sim.tick := 0;
     Sim.stream_error_is_client_error := true |}.

(** A page with the first key present but empty. *)
Definition empty_first_key : list_agents_response :=
  {| agents := Some []; agentSummaries := Some [item 0];
     la_nextToken := None |}.

Definition page_empty_first_key : Sim.script :=
  {| Sim.on_list_agents := fun _ => inr empty_first_key;
     Sim.on_get_agent := fun _ => Sim.unavailable;
     Sim.on_create_agent := fun _ => Sim.unavailable;
     Sim.on_prepare_agent := fun _ => Sim.unavailable;
     Sim.on_list_agent_aliases := fun _ => Sim.unavailable;
     Sim.on_invoke_agent := fun _ => Sim.unavailable;
     Sim.tick := 0;
     Sim.stream_error_is_client_error := true |}.

(** A service that answers [prepare_agent] and reports the same status at
    every poll; a reading of the clock costs [tick] seconds. *)
Definition reporting (status : pystr) (tick : Q) : Sim.script :=
  {| Sim.on_list_agents := fun _ => one_page [];
     Sim.on_get_agent := fun _ =>
       inr {| agent_field :=
                Some (summary (u "A1") (agent_name cfg0) status) |};
     Sim.on_create_agent := fun _ => Sim.unavailable;
     Sim.on_prepare_agent := fun _ => inr ∅;
     Sim.on_list_agent_aliases := fun _ => Sim.unavailable;
     Sim.on_invoke_agent := fun _ => Sim.unavailable;
     Sim.tick := tick;
     Sim.stream_error_is_client_error := true |}.

(** A service that answers [prepare_agent] and fails every poll. *)
Definition poll_fails : Sim.script :=
  {| Sim.on_list_agents := fun _ => one_page [];
     Sim.on_get_agent := fun _ => Sim.unavailable;
     Sim.on_create_agent := fun _ => Sim.unavailable;
     Sim.on_prepare_agent := fun _ => inr ∅;
     Sim.on_list_agent_aliases := fun _ => Sim.unavailable;
     Sim.on_invoke_agent := fun _ => Sim.unavailable;
     Sim.tick := 0;
     Sim.stream_error_is_client_error := true |}.

(** Stream events: a data chunk, a final answer, a trace event. *)
Definition data (s : string) : event :=
  {| chunk := Some {| bytes := Some (b s) |}; finalResponse := None |}.

Definition final (s : string) : event :=
  {| chunk := None; finalResponse := Some {| text := Some (u s) |} |}.

Definition trace : event := {| chunk := None; finalResponse := None |}.

Definition hello_stream : list event :=
  [data "Hel"; data "lo"; final " world"].

Definition invoking (answer : exn + invoke_agent_response)
    (stream_error_is_client_error : bool) : Sim.script :=
  {| Sim.on_list_agents := fun _ => one_page [];
     Sim.on_get_agent := fun _ => Sim.unavailable;
     Sim.on_create_agent := fun _ => Sim.unavailable;
     Sim.on_prepare_agent := fun _ => Sim.unavailable;
     Sim.on_list_agent_aliases := fun _ => Sim.unavailable;
     Sim.on_invoke_agent := fun _ => answer;
     Sim.tick := 0;
     Sim.stream_error_is_client_error := stream_error_is_client_error |}.

Definition streaming (events : list event) (failure : option exn)
    : exn + invoke_agent_response :=
  inr {| completion :=
           Some {| stream_events := events; stream_failure := failure |} |}.

Definition denied_before : exn :=
  ClientError (Some (u "AccessDeniedException"))
    (u "An error occurred (AccessDeniedException) when calling the InvokeAgent operation: Access denied").

Definition denied_in_stream : exn :=
  EventStreamError (Some (u "accessDeniedException"))
    (u "An error occurred (accessDeniedException) when calling the InvokeAgent operation: Access denied").

End Fixtures.

(** * The runs the properties speak of *)

(** The world after the [try] body of [create_agent] asked for a token and
    for the creation. *)
Definition after_create {S : Type} (w : world S) (cfg : AgentConfig) (tok : pystr)
    (s2 : S) : world S :=
  World s2 (calls w ++ [Call_uuid4; Call_create_agent (create_request cfg tok)]).

Section Pages.

Context {S R : Type}.
Context (fetch : option pystr -> S -> (exn + R) * S).
Context (items_of : R -> list dict) (token_of : R -> option pystr).
Context (call_of : option pystr -> call).

(** The loop both list methods run, over the operation it pages. *)
Fixpoint paginate (fuel : nat) (acc : list dict) (token : option pystr)
    : M S (list dict) :=
  match fuel with
  | O => no_fuel
  | Datatypes.S fuel' =>
      resp ← remote_call (call_of (kw_token token)) (fetch (kw_token token));
      let acc' := acc ++ items_of resp in
      if negb (truthy_opt (token_of resp)) then mret acc'
      else paginate fuel' acc' (token_of resp)
  end.

(** [page_run w token pages w']: asked from [w] with [token], the remote
    answers the pages in turn, each but the last with a continuation token
    that the next request carries, the last with none; [w'] is the world
    after the last answer. *)
Inductive page_run : world S -> option pystr -> list R -> world S -> Prop :=
| page_last w token resp s' :
    fetch (kw_token token) (remote w) = (inr resp, s') ->
    truthy_opt (token_of resp) = false ->
    page_run w token [resp]
      (World s' (calls w ++ [call_of (kw_token token)]))
| page_more w token resp s' pages w' :
    fetch (kw_token token) (remote w) = (inr resp, s') ->
    truthy_opt (token_of resp) = true ->
    page_run (World s' (calls w ++ [call_of (kw_token token)]))
      (token_of resp) pages w' ->
    page_run w token (resp :: pages) w'.

(** The tokens of the requests of a run. *)
Definition request_tokens (token : option pystr) (pages : list R)
    : list (option pystr) :=
  kw_token token :: List.map token_of (removelast pages).

End Pages.

Section Polls.

Context {S : Type} (env : Env S).
Context (agent_id desired : pystr) (timeout_s poll_s : Q).

(** The calls of the loop: clock readings, polls and sleeps. *)
Definition is_wait_call (c : call) : Prop :=
  c = Call_time \/ c = Call_get_agent agent_id \/ c = Call_sleep poll_s.

(** The ways the loop ends. *)
Definition wait_exit (r : res pystr) : Prop :=
  r = Ok desired
  \/ (exists st, st ∈ terminal_statuses /\ st <> desired
                 /\ r = Raise (RuntimeError (terminal_message st) None))
  \/ r = Raise (TimeoutError (timeout_message agent_id desired)).

(** [get_agent] answers every poll with an agent record. *)
Definition always_answers : Prop :=
  forall s, exists a s',
      api_get_agent env agent_id s = (inr {| agent_field := Some a |}, s').

(** The service reports [status] at every poll. *)
Definition always_reports (status : pystr) : Prop :=
  forall s, exists a s',
      api_get_agent env agent_id s = (inr {| agent_field := Some a |}, s')
      /\ a !! u "agentStatus" = Some status.

(** [time_of] tells the time of a state of the world: a reading of the
    clock lies between the times before and after it, a poll does not turn
    the clock back, and a sleep lasts at least as long as asked. *)
Definition clock_advances (time_of : S -> Q) : Prop :=
  (forall s t s', time_time env s = (t, s') ->
                  (time_of s <= t)%Q /\ (t <= time_of s')%Q)
  /\ (forall s ans s', api_get_agent env agent_id s = (ans, s') ->
                       (time_of s <= time_of s')%Q)
  /\ (forall s d, (time_of s + d <= time_of (time_sleep env d s))%Q).

(** [polls_before start n w w']: from [w] the loop makes [n] polls that
    each pass the loop test, observe a status that is neither the awaited
    one nor terminal, and sleep; [w'] is the world at the next loop test. *)
Inductive polls_before (start : Q) : nat -> world S -> world S -> Prop :=
| polls_none w : polls_before start 0 w w
| polls_next n w t s1 resp s2 a w' :
    time_time env (remote w) = (t, s1) ->
    Qltb (t - start) timeout_s = true ->
    api_get_agent env agent_id s1 = (inr resp, s2) ->
    agent_field resp = Some a ->
    a !! u "agentStatus" <> Some desired ->
    (forall st, a !! u "agentStatus" = Some st -> st ∉ terminal_statuses) ->
    (0 <= poll_s)%Q ->
    polls_before start n
      (World (time_sleep env poll_s s2)
         (calls w ++ [Call_time; Call_get_agent agent_id; Call_sleep poll_s]))
      w' ->
    polls_before start (Datatypes.S n) w w'.

End Polls.

Section Invocation.

Context {S : Type} (env : Env S).
Context (agent_id alias_id text : pystr) (enable_trace : bool).

(** The world after the request was sent. *)
Definition after_invoke (w1 : world S) (sid : pystr) (s2 : S) : world S :=
  World s2 (calls w1 ++ [Call_invoke_agent
                           (invoke_request agent_id alias_id text sid
                              enable_trace)]).

(** What the two [except] clauses do with an exception of the [try]
    body. *)
Definition invoke_handler (e : exn) : exn :=
  if isinstance_ClientError env e then
    if bool_decide (default [] (error_code e) ∈ access_denied_codes)
    then RuntimeError invoke_denied_message (Some e)
    else e
  else if isinstance_EventStreamError e then
    if contains (u "accessDeniedException") (str_exn e)
       || contains (u "Access denied") (str_exn e)
    then RuntimeError stream_denied_message (Some e)
    else e
  else e.

End Invocation.

(** * More of agent_manager.py, and further runs *)

Section MoreManager.

Context {S : Type} (env : Env S).

(** [find_alias_by_name] *)
Definition find_alias_by_name (fuel : nat) (agent_id alias_name : pystr)
    : M S (option dict) :=
  l ← list_aliases env fuel agent_id 100;
  mret (List.find (has_value (u "agentAliasName") alias_name) l).

End MoreManager.

Section FailingPages.

Context {S R : Type}.
Context (fetch : option pystr -> S -> (exn + R) * S).
Context (token_of : R -> option pystr) (call_of : option pystr -> call).

(** [page_fault w token n e w']: asked from [w] with [token], the remote
    answers [n] pages that each carry a continuation token and then fails
    the next request with [e]; [w'] is the world after the failure. *)
Inductive page_fault
    : world S -> option pystr -> nat -> exn -> world S -> Prop :=
| fault_here w token e s' :
    fetch (kw_token token) (remote w) = (inl e, s') ->
    page_fault w token 0 e (World s' (calls w ++ [call_of (kw_token token)]))
| fault_later w token resp s' n e w' :
    fetch (kw_token token) (remote w) = (inr resp, s') ->
    truthy_opt (token_of resp) = true ->
    page_fault (World s' (calls w ++ [call_of (kw_token token)]))
      (token_of resp) n e w' ->
    page_fault w token (Datatypes.S n) e w'.

(** The remote answers every request with a page that carries a
    continuation token. *)
Definition endless : Prop :=
  forall token s, exists resp s',
      fetch token s = (inr resp, s') /\ truthy_opt (token_of resp) = true.

End FailingPages.

(** The calls that ask the remote to create an agent, and those that poll
    one. *)
Definition is_creation (c : call) : bool :=
  match c with
  | Call_create_agent _ => true
  | _ => false
  end.

Definition is_poll (c : call) : bool :=
  match c with
  | Call_get_agent _ => true
  | _ => false
  end.

(** A stream event that carries the bytes [bs]. *)
Definition chunk_event (bs : list byte) : event :=
  {| chunk := Some {| bytes := Some bs |}; finalResponse := None |}.

Definition is_ascii (x : byte) : Prop := (Byte.to_N x < 128)%N.

(** ** More test data *)

Module Samples.

Definition base : Sim.script :=
  {| Sim.on_list_agents := fun _ => Sim.unavailable;
     Sim.on_get_agent := fun _ => Sim.unavailable;
     Sim.on_create_agent := fun _ => Sim.unavailable;
     Sim.on_prepare_agent := fun _ => Sim.unavailable;
     Sim.on_list_agent_aliases := fun _ => Sim.unavailable;
     Sim.on_invoke_agent := fun _ => Sim.unavailable;
     Sim.tick := 0;
     Sim.stream_error_is_client_error := true |}.

(** The answers to the list operations, the rest as in [base]. *)
Definition listing (agents_at : nat -> exn + list_agents_response)
    (aliases_at : nat -> exn + list_agent_aliases_response) : Sim.script :=
  {| Sim.on_list_agents := agents_at;
     Sim.on_get_agent := Sim.on_get_agent base;
     Sim.on_create_agent := Sim.on_create_agent base;
     Sim.on_prepare_agent := Sim.on_prepare_agent base;
     Sim.on_list_agent_aliases := aliases_at;
     Sim.on_invoke_agent := Sim.on_invoke_agent base;
     Sim.tick := 0;
     Sim.stream_error_is_client_error := true |}.

(** One page with a token, then a failure. *)
Definition second_page_fails : Sim.script :=
  listing
    (fun n => match n with
              | 0 => inr (Fixtures.agents_page 0)
              | _ => Sim.unavailable
              end)
    (fun n => match n with
              | 0 => inr (Fixtures.aliases_page 0)
              | _ => Sim.unavailable
              end).

(** Every page carries a token. *)
Definition always_more : Sim.script :=
  listing (fun _ => inr (Fixtures.agents_page 0))
    (fun _ => inr (Fixtures.aliases_page 0)).

(** An alias summary. *)
Definition alias_summary (id name : pystr) : dict :=
  <[u "agentAliasId" := id]> (<[u "agentAliasName" := name]> ∅).

End Samples.

(** The first item of a list that carries [v] under [key], and that there
    is none. *)
Definition first_with (key v : pystr) (l : list dict) (found : option dict)
    : Prop :=
  match found with
  | Some a =>
      exists l1 l2, l = l1 ++ a :: l2 /\ a !! key = Some v
                    /\ Forall (fun b : dict => b !! key <> Some v) l1
  | None => Forall (fun b : dict => b !! key <> Some v) l
  end.

Module Samples2.

(** The remote answers the creation and the polls without the ["agent"]
    key. *)
Definition no_agent_key : Sim.script :=
  {| Sim.on_list_agents := Sim.on_list_agents Samples.base;
     Sim.on_get_agent := fun _ => inr {| agent_field := None |};
     Sim.on_create_agent := fun _ => inr {| agent_field := None |};
     Sim.on_prepare_agent := fun _ => inr ∅;
     Sim.on_list_agent_aliases := Sim.on_list_agent_aliases Samples.base;
     Sim.on_invoke_agent := Sim.on_invoke_agent Samples.base;
     Sim.tick := 0;
     Sim.stream_error_is_client_error := true |}.

(** The creation is refused with a conflict and the listing fails. *)
Definition conflict_listing_fails : Sim.script :=
  {| Sim.on_list_agents := fun _ => inl Fixtures.throttled;
     Sim.on_get_agent := Sim.on_get_agent Samples.base;
     Sim.on_create_agent :=
       fun _ => inl (Service.conflict (agent_name Fixtures.cfg0));
     Sim.on_prepare_agent := Sim.on_prepare_agent Samples.base;
     Sim.on_list_agent_aliases := Sim.on_list_agent_aliases Samples.base;
     Sim.on_invoke_agent := Sim.on_invoke_agent Samples.base;
     Sim.tick := 0;
     Sim.stream_error_is_client_error := true |}.

End Samples2.

(** The session id the request of [invoke] carries: the caller's, or a
    fresh uuid when the caller gave none or an empty one. *)
Definition session_sent {S : Type} (env : Env S) (session_id : option pystr)
    (w : world S) : pystr :=
  if truthy_opt session_id then default [] session_id
  else (uuid4 env (remote w)).1.

Module Samples3.

(** A stream error whose text speaks of a denial but whose code is
    another. *)
Definition throttled_in_stream : exn :=
  EventStreamError (Some (u "throttlingException"))
    (u "An error occurred (throttlingException) when calling the InvokeAgent operation: Access denied to more capacity").

End Samples3.

(** * agent_manager.py: [load_config_from_env] *)

(** [x or y] and [x or "literal"] for [x: Optional[str]]: [None] and the
    empty string are falsy. *)
Definition or_opt (x y : option pystr) : option pystr :=
  if truthy_opt x then x else y.

Definition or_str (x : option pystr) (y : pystr) : pystr :=
  match x with
  | Some v => if truthy v then v else y
  | None => y
  end.

(** [os.environ.get(key, dflt)] and [os.getenv(key, dflt)]; [environ] maps
    the variables that are set to their values. *)
Definition getenv (environ : dict) (key dflt : pystr) : pystr :=
  default dflt (environ !! key).

Definition default_region : pystr := u "us-east-1".
Definition default_agent_name : pystr := u "strand-demo-agent".
Definition default_foundation_model : pystr :=
  u "anthropic.claude-3-haiku-20240307-v1:0".
Definition default_instruction : pystr := u "You are a helpful assistant.".

(** The defaults of the dataclass [AgentConfig]. *)
Definition default_description : pystr :=
  u "Sample agent created by aws_strand_sdk".
Definition default_idle_ttl_seconds : Z := 600.

Definition load_config_from_env (environ : dict) : res AgentConfig :=
  let region :=
    or_str (or_opt (environ !! u "AWS_REGION")
              (environ !! u "AWS_DEFAULT_REGION")) default_region in
  let agent_name := getenv environ (u "AGENT_NAME") default_agent_name in
  let foundation_model :=
    getenv environ (u "FOUNDATION_MODEL") default_foundation_model in
  let instruction :=
    getenv environ (u "AGENT_INSTRUCTION") default_instruction in
  let role_arn := getenv environ (u "AGENT_ROLE_ARN") [] in
  if negb (truthy role_arn)
  then Raise (ValueError
                (u "AGENT_ROLE_ARN env var is required to create an agent."))
  else Ok {| region := region;
             agent_name := agent_name;
             foundation_model := foundation_model;
             instruction := instruction;
             role_arn := role_arn;
             description := default_description;
             idle_ttl_seconds := default_idle_ttl_seconds |}.

(** * cli.py: the commands

    A command ends by returning, by an exception that escapes, or by
    [raise SystemExit(code)].  What a command prints is not part of the
    model; a command that prints a table or a text returns it.

    [environ] is the environment as the command reads it, after
    [setup_env]; [ctx_region] is [ctx.obj.get("region")].  A command is
    modelled from the manager that [build_manager] returned. *)

(** The check that [create-agent] and [quickstart] make before they build
    a manager: the instruction chosen has at least 40 characters and the
    role is not empty, or the command leaves with status 2. *)
Definition command_config (ctx_region instruction : option pystr)
    (environ : dict) : Z + AgentConfig :=
  let chosen_instruction :=
    or_str instruction
      (getenv environ (u "AGENT_INSTRUCTION") default_instruction) in
  if (length chosen_instruction <? 40)%nat then inl 2%Z
  else
    let cfg :=
      {| region :=
           or_str (or_opt (or_opt (environ !! u "AWS_REGION")
                             (environ !! u "AWS_DEFAULT_REGION")) ctx_region)
             default_region;
         agent_name := getenv environ (u "AGENT_NAME") default_agent_name;
         foundation_model :=
           getenv environ (u "FOUNDATION_MODEL") default_foundation_model;
         instruction := chosen_instruction;
         role_arn := getenv environ (u "AGENT_ROLE_ARN") [];
         description := default_description;
         idle_ttl_seconds := default_idle_ttl_seconds |} in
    if negb (truthy (role_arn cfg)) then inl 2%Z else inr cfg.

(** [str(d.get(key))] for a dict of strings. *)
Definition str_get (d : dict) (key : pystr) : pystr :=
  default (u "None") (d !! key).

(** The rows of the table of [create-agent]. *)
Definition created_rows (a : dict) : list (pystr * pystr) :=
  List.map (fun k => (k, str_get a k))
    [u "agentId"; u "agentArn"; u "agentName"; u "agentStatus";
     u "foundationModel"].

(** The keyword arguments and the answer of
    [self.agents.create_agent_alias(...)]. *)
Record create_agent_alias_request : Type := {
  caa_agentId : pystr;
  agentAliasName : pystr;
  caa_description : pystr;
  caa_clientToken : pystr
}.

Record create_agent_alias_response : Type := { agentAlias : option dict }.

(** What a command asks of the outside world: what the methods of the
    manager ask, and the creation of an alias. *)
Inductive cli_call : Type :=
| Manager_call (c : call)
| Call_create_agent_alias (rq : create_agent_alias_request).

Record CliEnv (S : Type) : Type := {
  manager_env : Env S;
  api_create_agent_alias :
    create_agent_alias_request -> S
    -> (exn + create_agent_alias_response) * S
}.

Arguments manager_env {S} _.
Arguments api_create_agent_alias {S} _ _ _.

Record cli_world (S : Type) : Type :=
  CliWorld { cli_remote : S; cli_calls : list cli_call }.

Arguments CliWorld {S} _ _.
Arguments cli_remote {S} _.
Arguments cli_calls {S} _.

Inductive outcome (A : Type) : Type :=
| Returned (a : A)
| Raised (e : exn)
| SystemExit (code : Z)
| OutOfFuel.

Arguments Returned {A} a.
Arguments Raised {A} e.
Arguments SystemExit {A} code.
Arguments OutOfFuel {A}.

Definition Cmd (S A : Type) : Type := cli_world S -> outcome A * cli_world S.

Definition c_ret {S A} (a : A) : Cmd S A := fun w => (Returned a, w).

Definition c_raise {S A} (e : exn) : Cmd S A := fun w => (Raised e, w).

Definition sys_exit {S A} (code : Z) : Cmd S A := fun w => (SystemExit code, w).

Definition c_bind {S A B} (m : Cmd S A) (k : A -> Cmd S B) : Cmd S B :=
  fun w =>
    match m w with
    | (Returned a, w') => k a w'
    | (Raised e, w') => (Raised e, w')
    | (SystemExit code, w') => (SystemExit code, w')
    | (OutOfFuel, w') => (OutOfFuel, w')
    end.

(** [try: m  except Exception: h]; [SystemExit] is no [Exception]. *)
Definition c_try {S A} (m : Cmd S A) (h : exn -> Cmd S A) : Cmd S A :=
  fun w =>
    match m w with
    | (Raised e, w') => h e w'
    | r => r
    end.

#[global] Instance C_ret {S} : MRet (Cmd S) := fun A => @c_ret S A.
#[global] Instance C_bind {S} : MBind (Cmd S) :=
  fun A B k m => @c_bind S A B m k.

Definition of_res {A} (r : res A) : outcome A :=
  match r with
  | Ok a => Returned a
  | Raise e => Raised e
  | NoFuel => OutOfFuel
  end.

(** A method of the manager, run by a command: what it asks is added to
    the log of the command. *)
Definition lift {S A} (m : M S A) : Cmd S A :=
  fun w =>
    let r := m (World (cli_remote w) []) in
    (of_res r.1,
     CliWorld (remote r.2) (cli_calls w ++ List.map Manager_call (calls r.2))).

Definition cli_remote_call {S A} (c : cli_call) (op : S -> (exn + A) * S)
    : Cmd S A :=
  fun w =>
    let '(r, s') := op (cli_remote w) in
    let w' := CliWorld s' (cli_calls w ++ [c]) in
    match r with
    | inl e => (Raised e, w')
    | inr a => (Returned a, w')
    end.

(** [d[key]] *)
Definition getitem {S : Type} (d : dict) (key : pystr) : Cmd S pystr :=
  match d !! key with
  | Some v => c_ret v
  | None => c_raise (KeyError key)
  end.

Definition create_alias_request (agent_id alias_name token : pystr)
    : create_agent_alias_request :=
  {| caa_agentId := agent_id;
     agentAliasName := alias_name;
     caa_description := u "Alias " ++ alias_name;
     caa_clientToken := token |}.

Section Commands.

Context {S : Type} (env : CliEnv S).

(** agent_manager.py: [create_alias] *)
Definition create_alias (agent_id alias_name : pystr) : Cmd S dict :=
  token ← lift (new_uuid (manager_env env));
  let rq := create_alias_request agent_id alias_name token in
  resp ← cli_remote_call (Call_create_agent_alias rq)
           (api_create_agent_alias env rq);
  match agentAlias resp with
  | Some a => c_ret a
  | None => c_raise (KeyError (u "agentAlias"))
  end.

Definition create_agent_cmd (fuel : nat) (ctx_region instruction : option pystr)
    (environ : dict) : Cmd S (list (pystr * pystr)) :=
  match command_config ctx_region instruction environ with
  | inl code => sys_exit code
  | inr cfg =>
      a ← lift (create_agent (manager_env env) fuel cfg);
      c_ret (created_rows a)
  end.

Definition alias_cmd (agent_id name : pystr) : Cmd S dict :=
  create_alias agent_id name.

Definition quickstart_cmd (fuel : nat) (ctx_region instruction : option pystr)
    (environ : dict) (alias_name prompt : pystr) : Cmd S pystr :=
  match command_config ctx_region instruction environ with
  | inl code => sys_exit code
  | inr cfg =>
      a ← lift (create_agent (manager_env env) fuel cfg);
      agent_id ← getitem a (u "agentId");
      _ ← lift (prepare_agent (manager_env env) agent_id);
      _ ← lift (wait_for_status (manager_env env) fuel agent_id
                  (u "PREPARED") 600 10);
      al ← create_alias agent_id alias_name;
      alias_id ← getitem al (u "agentAliasId");
      lift (invoke (manager_env env) agent_id alias_id prompt None false)
  end.

(** [invoke]: the alias the command invokes, for an agent id that was
    normalized already.  It is [None] when the summary found, or the alias
    created, has no ["agentAliasId"]. *)
Definition invoke_cmd_alias (fuel : nat) (agent_id : pystr)
    (alias_id : option pystr) (alias_name : pystr)
    (create_alias_if_missing : bool) : Cmd S (option pystr) :=
  if truthy_opt alias_id
  then c_ret (Some (_extract_alias_id (default [] alias_id)))
  else
    found ← c_try
              (lift (find_alias_by_name (manager_env env) fuel agent_id
                       alias_name))
              (fun _ => sys_exit 2);
    if negb (truthy_dict found) then
      if create_alias_if_missing then
        created ← create_alias agent_id alias_name;
        c_ret (created !! u "agentAliasId")
      else sys_exit 2
    else c_ret (a ← found; a !! u "agentAliasId").

End Commands.

Module CliSim.

(** The scripted world, with an answer to the creation of an alias. *)
Definition env (sc : Sim.script)
    (on_create_alias : exn + create_agent_alias_response)
    : CliEnv Sim.state :=
  {| manager_env := Sim.env sc;
     api_create_agent_alias := fun _ s => (on_create_alias, s) |}.

Definition world0 : cli_world Sim.state :=
  CliWorld (remote Sim.world0) [].

End CliSim.

Module Environments.

(** An environment with a role and an instruction of 51 characters, and
    one that sets the role only. *)
Definition role_only : dict :=
  <[u "AGENT_ROLE_ARN" := u "arn:aws:iam::111111111111:role/agent"]> ∅.

Definition complete : dict :=
  <[u "AGENT_INSTRUCTION" :=
      u "You are a helpful assistant that answers questions."]> role_only.

End Environments.

(** The requests of a command that change something at the remote, or run
    the agent. *)
Inductive step : Type := Creation | Preparation | AliasCreation | Invocation.

Definition step_of (c : cli_call) : option step :=
  match c with
  | Manager_call (Call_create_agent _) => Some Creation
  | Manager_call (Call_prepare_agent _) => Some Preparation
  | Call_create_agent_alias _ => Some AliasCreation
  | Manager_call (Call_invoke_agent _) => Some Invocation
  | _ => None
  end.

(** A lookup, a reading of the clock, a sleep, a fresh token. *)
Definition is_quiet (c : call) : Prop := step_of (Manager_call c) = None.

Section Sends.

Context {S A : Type}.

(** [sends l m]: what [m] adds to the log holds, in this order, the steps
    [l] when [m] returns, and the first of them otherwise. *)
Definition sends (l : list step) (m : Cmd S A) : Prop :=
  forall w, exists extra,
    cli_calls (m w).2 = cli_calls w ++ extra
    /\ omap step_of extra `prefix_of` l
    /\ (forall a, (m w).1 = Returned a -> omap step_of extra = l).

End Sends.

Module Samples4.

(** A service on which every step of [quickstart] goes through: it lists
    the aliases [dev] and [prod] of the agent, and creates [prod]. *)
Definition smooth : Sim.script :=
  {| Sim.on_list_agents := fun _ => Fixtures.one_page [];
     Sim.on_get_agent := fun _ =>
       inr {| agent_field :=
                Some (Fixtures.summary (u "A1") (u "strand-demo-agent")
                        (u "PREPARED")) |};
     Sim.on_create_agent := fun _ =>
       inr {| agent_field :=
                Some (Fixtures.summary (u "A1") (u "strand-demo-agent")
                        (u "CREATING")) |};
     Sim.on_prepare_agent := fun _ => inr ∅;
     Sim.on_list_agent_aliases := fun _ =>
       inr {| agentAliasSummaries :=
                Some [Samples.alias_summary (u "AL0") (u "dev");
                      Samples.alias_summary (u "AL1") (u "prod")];
              agentAliases := None;
              laa_nextToken := None |};
     Sim.on_invoke_agent := fun _ =>
       Fixtures.streaming Fixtures.hello_stream None;
     Sim.tick := 0;
     Sim.stream_error_is_client_error := true |}.

Definition alias_created : exn + create_agent_alias_response :=
  inr {| agentAlias := Some (Samples.alias_summary (u "AL1") (u "prod")) |}.

Definition alias_exists : exn + create_agent_alias_response :=
  inl (ClientError (Some (u "ConflictException")) (u "alias exists")).

End Samples4.

Module Samples5.

(** The sample stream with whitespace around it, cut differently, and a
    trace event in between. *)
Definition padded_stream : list event :=
  [Fixtures.data "  Hel"; Fixtures.trace; Fixtures.data "lo";
   {| chunk := None;
      finalResponse := Some {| text := Some (u " world " ++ [10%N; 9%N]) |} |}].

(** The characters Python's [str.strip()] removes. *)
Definition whitespace : list N :=
  [9; 10; 11; 12; 13; 28; 29; 30; 31; 32; 133; 160; 5760;
   8192; 8193; 8194; 8195; 8196; 8197; 8198; 8199; 8200; 8201; 8202;
   8232; 8233; 8239; 8287; 12288]%N.

End Samples5.

(** ** A control plane that keeps names unique

    The services the specification has in mind, by what they promise.
    [stored s] gives the agents the service holds in state [s], in the
    order it lists them.  A creation under a name that is taken is refused
    with [ConflictException] and changes nothing; a creation under a free
    name stores one more agent, of that name and with an id; the pages of
    the listing, asked for one after the other by their continuation
    tokens, are [page_bound] at most and show together the agents held;
    [get_agent] answers an agent of the id asked whenever one is held.  The
    reference control plane [Service.env] is one of them. *)

Section NameUnique.

Context {S : Type} (env : Env S) (stored : S -> list dict).

Definition name_taken (name : pystr) (s : S) : bool :=
  existsb (has_value (u "agentName") name) (stored s).

Record keeps_names_unique (page_bound : nat) : Prop := {
  knu_uuid4 : forall s, stored (uuid4 env s).2 = stored s;
  knu_taken : forall rq s,
    name_taken (agentName rq) s = true ->
    exists e s',
      api_create_agent env rq s = (inl e, s')
      /\ isinstance_ClientError env e = true
      /\ error_code e = Some (u "ConflictException")
      /\ stored s' = stored s;
  knu_free : forall rq s,
    name_taken (agentName rq) s = false ->
    exists a s',
      api_create_agent env rq s = (inr {| agent_field := Some a |}, s')
      /\ a !! u "agentName" = Some (agentName rq)
      /\ truthy_opt (a !! u "agentId") = true
      /\ stored s' ≡ₚ a :: stored s;
  knu_list : forall w : world S,
    exists pages w',
      page_run (api_list_agents env 100) la_nextToken (Call_list_agents 100)
        w None pages w'
      /\ length pages <= page_bound
      /\ concat (List.map agent_items pages) = stored (remote w)
      /\ stored (remote w') = stored (remote w);
  knu_get : forall a id s,
    a ∈ stored s -> a !! u "agentId" = Some id ->
    exists r s',
      api_get_agent env id s = (inr {| agent_field := Some r |}, s')
      /\ r !! u "agentId" = Some id
      /\ stored s' = stored s
}.

(** Every agent held carries an id. *)
Definition all_have_ids (s : S) : Prop :=
  Forall (fun a : dict => truthy_opt (a !! u "agentId") = true) (stored s).

End NameUnique.

(** An outcome that ends the command that meets it: every one but a
    return. *)
Definition stopped {A B} (o : outcome A) : option (outcome B) :=
  match o with
  | Returned _ => None
  | Raised e => Some (Raised e)
  | SystemExit code => Some (SystemExit code)
  | OutOfFuel => Some OutOfFuel
  end.

(** [w'] is [w] with a longer log, in which the steps are [l]. *)
Definition steps_since {S} (w w' : cli_world S) (l : list step) : Prop :=
  exists extra,
    cli_calls w' = cli_calls w ++ extra /\ omap step_of extra = l.

(** * Properties of the string operations *)

Section StringFacts.

Implicit Types (p sep cur s t : pystr).

Lemma startswith_spec p s : startswith p s = true <-> exists t, s = p ++ t.
Proof.
  revert s. induction p as [|a p IH]; intros s; simpl.
  - split; [intros _; by exists s | done].
  - destruct s as [|c s]; simpl.
    + split; [done | intros [t Ht]; discriminate].
    + destruct (N.eqb_spec a c) as [->|Hne].
      * rewrite IH. split; intros [t Ht]; exists t; congruence.
      * split; [done | intros [t Ht]; congruence].
Qed.

Lemma startswith_app p s t : startswith p s = true -> startswith p (s ++ t) = true.
Proof.
  rewrite !startswith_spec. intros [r ->]. exists (r ++ t). by rewrite app_assoc.
Qed.

Lemma startswith_shorter p q s :
  startswith (p ++ q) s = true -> startswith p s = true.
Proof.
  rewrite !startswith_spec. intros [r ->]. exists (q ++ r). by rewrite app_assoc.
Qed.

Lemma contains_spec sub s :
  contains sub s = true <-> exists a c, s = a ++ sub ++ c.
Proof.
  induction s as [|x s IH]; simpl.
  - rewrite orb_false_r, startswith_spec. split.
    + intros [t Ht]. exists [], t. done.
    + intros (a & c & H). symmetry in H.
      apply app_eq_nil in H as [-> H]. apply app_eq_nil in H as [-> ->].
      by exists [].
  - rewrite orb_true_iff, startswith_spec, IH. split.
    + intros [[t Ht] | (a & c & ->)].
      * exists [], t. done.
      * exists (x :: a), c. done.
    + intros (a & c & H). destruct a as [|y a]; simpl in H.
      * left. by exists c.
      * right. exists a, c. congruence.
Qed.

Lemma contains_weaken p q s :
  contains (p ++ q) s = true -> contains p s = true.
Proof.
  rewrite !contains_spec. intros (a & c & ->).
  exists a, (q ++ c). by rewrite <- app_assoc.
Qed.

Lemma contains_nil_r sub : sub <> [] -> contains sub [] = false.
Proof. by destruct sub. Qed.

Lemma contains_cons sub c s :
  contains sub (c :: s) = startswith sub (c :: s) || contains sub s.
Proof. done. Qed.

Lemma split_go_cur fuel sep cur s :
  split_go fuel sep cur s =
  match split_go fuel sep [] s with
  | [] => []
  | p :: ps => (cur ++ p) :: ps
  end.
Proof.
  revert cur s. induction fuel as [|fuel IH]; intros cur s; cbn [split_go]; [done|].
  destruct s as [|c s]; [by rewrite app_nil_r|].
  destruct (startswith sep (c :: s)); [by rewrite app_nil_r|].
  rewrite (IH (cur ++ [c])), (IH ([] ++ [c])).
  destruct (split_go fuel sep [] s); [done|]. by rewrite <- app_assoc.
Qed.

Lemma split_go_nonempty fuel sep cur s : split_go fuel sep cur s <> [].
Proof.
  revert cur s. induction fuel as [|fuel IH]; intros cur s; cbn [split_go]; [done|].
  destruct s as [|c s]; [done|].
  destruct (startswith sep (c :: s)); [done | apply IH].
Qed.

(** The text without a separator is the only piece, and conversely. *)
Lemma split_go_single fuel sep s :
  contains sep s = false -> split_go fuel sep [] s = [s].
Proof.
  revert s. induction fuel as [|fuel IH]; intros s Hc; cbn [split_go]; [done|].
  destruct s as [|c s]; [done|].
  rewrite contains_cons in Hc. apply orb_false_iff in Hc as [Hs Hc].
  rewrite Hs, split_go_cur, (IH s Hc). done.
Qed.

Lemma split_go_single_inv fuel sep s p :
  sep <> [] -> length s <= fuel ->
  split_go fuel sep [] s = [p] -> p = s /\ contains sep s = false.
Proof.
  intros Hsep. revert s p.
  induction fuel as [|fuel IH]; intros s p Hlen; cbn [split_go].
  - destruct s; [|simpl in Hlen; lia]. intros [= <-].
    by rewrite contains_nil_r.
  - destruct s as [|c s].
    + intros [= <-]. by rewrite contains_nil_r.
    + rewrite contains_cons.
      destruct (startswith sep (c :: s)) eqn:Hs.
      * intros [= _ H]. by apply split_go_nonempty in H.
      * rewrite split_go_cur.
        destruct (split_go fuel sep [] s) as [|q [|q' qs]] eqn:Hq; [done| |done].
        intros [= <-]. simpl in Hlen.
        destruct (IH s q ltac:(lia) Hq) as [-> ->]. done.
Qed.

(** The last piece holds no separator. *)
Lemma split_go_last_clean fuel sep s l :
  sep <> [] -> length s <= fuel ->
  last (split_go fuel sep [] s) = Some l -> contains sep l = false.
Proof.
  intros Hsep. revert s l.
  induction fuel as [|fuel IH]; intros s l Hlen; cbn [split_go].
  - destruct s; [|simpl in Hlen; lia]. intros [= <-].
    by rewrite contains_nil_r.
  - destruct s as [|c s].
    + intros [= <-]. by rewrite contains_nil_r.
    + destruct (startswith sep (c :: s)) eqn:Hs.
      * destruct (split_go fuel sep [] (drop (length sep) (c :: s))) eqn:Hq;
          [by apply split_go_nonempty in Hq|].
        rewrite last_cons_cons, <- Hq. apply IH.
        rewrite length_drop. destruct sep; [done|]. simpl in *. lia.
      * rewrite split_go_cur. simpl in Hlen.
        destruct (split_go fuel sep [] s) as [|q [|q' qs]] eqn:Hq.
        -- by apply split_go_nonempty in Hq.
        -- intros [= <-].
           destruct (split_go_single_inv fuel sep s q Hsep ltac:(lia) Hq) as [-> Hc].
           simpl app. by rewrite contains_cons, Hs, Hc.
        -- rewrite last_cons_cons. intros Hl. apply (IH s l ltac:(lia)).
           by rewrite Hq.
Qed.

(** The first piece is a prefix of the text and holds no separator. *)
Lemma split_go_head_prefix fuel sep s p :
  head (split_go fuel sep [] s) = Some p -> exists r, s = p ++ r.
Proof.
  revert s p. induction fuel as [|fuel IH]; intros s p; cbn [split_go head app].
  - intros [= <-]. exists []. by rewrite app_nil_r.
  - destruct s as [|c s]; [intros [= <-]; by exists []|].
    destruct (startswith sep (c :: s)).
    + intros [= <-]. by exists (c :: s).
    + rewrite split_go_cur.
      destruct (split_go fuel sep [] s) as [|q qs] eqn:Hq; [done|].
      cbn [head]. intros [= <-]. destruct (IH s q) as [r ->]; [by rewrite Hq|].
      by exists r.
Qed.

Lemma split_go_head_clean fuel sep s p :
  sep <> [] -> length s <= fuel ->
  head (split_go fuel sep [] s) = Some p -> contains sep p = false.
Proof.
  intros Hsep. revert s p.
  induction fuel as [|fuel IH]; intros s p Hlen; cbn [split_go head app].
  - destruct s; [|simpl in Hlen; lia]. intros [= <-].
    by rewrite contains_nil_r.
  - destruct s as [|c s]; [intros [= <-]; by rewrite contains_nil_r|].
    destruct (startswith sep (c :: s)) eqn:Hs.
    + intros [= <-]. by rewrite contains_nil_r.
    + rewrite split_go_cur. simpl in Hlen.
      destruct (split_go fuel sep [] s) as [|q qs] eqn:Hq; [done|].
      cbn [head]. intros [= <-]. simpl app. rewrite contains_cons.
      rewrite (IH s q ltac:(lia)), orb_false_r by (by rewrite Hq).
      destruct (split_go_head_prefix fuel sep s q) as [r ->]; [by rewrite Hq|].
      destruct (startswith sep (c :: q)) eqn:Hs'; [|done].
      apply (startswith_app _ _ r) in Hs'. simpl in Hs', Hs. congruence.
Qed.

(** When no occurrence of the separator that starts inside [P] reaches past
    the end of [P], the scan closes a piece exactly at the end of [P]; the
    last piece of [P ++ sep ++ A] is then [A], provided [A] holds no
    separator. *)
Lemma split_go_last_app fuel sep P A :
  sep <> [] -> length (P ++ sep ++ A) <= fuel ->
  (forall X Y, P ++ sep ++ A = X ++ sep ++ Y -> length X < length P ->
               length X + length sep <= length P) ->
  contains sep A = false ->
  last (split_go fuel sep [] (P ++ sep ++ A)) = Some A.
Proof.
  intros Hsep. revert P.
  induction fuel as [|fuel IH]; intros P Hlen Hfree HA.
  - rewrite !length_app in Hlen. destruct sep; [done|simpl in Hlen; lia].
  - cbn [split_go].
    destruct (P ++ sep ++ A) as [|c s'] eqn:Hs.
    { apply app_eq_nil in Hs as [_ Hs]. apply app_eq_nil in Hs as [Hs _]. done. }
    destruct (startswith sep (c :: s')) eqn:Hst.
    + apply startswith_spec in Hst as [t Ht].
      destruct P as [|x P'].
      * simpl in Hs. rewrite <- Hs, drop_app_length.
        rewrite (split_go_single _ _ _ HA). done.
      * assert (Hle : length sep <= length (x :: P')).
        { specialize (Hfree [] t). simpl in Hfree. apply Hfree; [|lia].
          rewrite <- Ht. done. }
        assert (HP : x :: P' = sep ++ drop (length sep) (x :: P')).
        { rewrite <- (take_drop (length sep) (x :: P')) at 1. f_equal.
          rewrite <- (take_app_le _ (sep ++ A)) by done.
          rewrite Hs, Ht. by rewrite take_app_length. }
        set (P2 := drop (length sep) (x :: P')) in *.
        assert (Hd : drop (length sep) (c :: s') = P2 ++ sep ++ A).
        { rewrite <- Hs, HP, <- app_assoc. by rewrite drop_app_length. }
        rewrite Hd.
        assert (HL : last (split_go fuel sep [] (P2 ++ sep ++ A)) = Some A).
        { apply IH; [| |done].
          - assert (length (c :: s') = length sep + length (P2 ++ sep ++ A)).
            { rewrite <- Hs, HP, <- app_assoc. by rewrite length_app. }
            destruct sep; [done|]. simpl in *. lia.
          - intros X Y HXY HX.
            specialize (Hfree (sep ++ X) Y).
            rewrite length_app in Hfree.
            assert (length (x :: P') = length sep + length P2).
            { rewrite HP at 1. by rewrite length_app. }
            enough (length sep + length X + length sep <= length (x :: P')) by lia.
            apply Hfree; [|lia].
            rewrite <- Hs, HP, <- !app_assoc. f_equal. done. }
        destruct (split_go fuel sep [] (P2 ++ sep ++ A)) eqn:Hq; [done|].
        by rewrite last_cons_cons.
    + destruct P as [|x P'].
      { simpl in Hs. assert (startswith sep (sep ++ A) = true)
          by (apply startswith_spec; eauto).
        rewrite Hs in H. congruence. }
      simpl in Hs. injection Hs as -> <-.
      rewrite split_go_cur.
      assert (HL : last (split_go fuel sep [] (P' ++ sep ++ A)) = Some A).
      { apply IH; [simpl in Hlen; lia| |done].
        intros X Y HXY HX. specialize (Hfree (c :: X) Y). simpl in Hfree.
        enough (Datatypes.S (length X + length sep) <= Datatypes.S (length P')) by lia.
        apply Hfree; [|lia]. by rewrite HXY. }
      destruct (split_go fuel sep [] (P' ++ sep ++ A)) as [|q [|q' qs]] eqn:Hq;
        [done| |by rewrite last_cons_cons in *].
      apply split_go_single_inv in Hq as [_ Hq]; [|done|simpl in Hlen; lia].
      assert (contains sep (P' ++ sep ++ A) = true)
        by (apply contains_spec; eauto).
      congruence.
Qed.

Lemma split_nonempty sep s : sep <> [] -> split sep s <> [].
Proof. destruct sep; [done|]. intros _. apply split_go_nonempty. Qed.

Lemma index_last_split sep s :
  sep <> [] ->
  exists l, index_last (split sep s) = Ok l /\ contains sep l = false.
Proof.
  intros Hsep. unfold index_last.
  destruct (last (split sep s)) as [l|] eqn:Hl.
  - exists l. split; [done|]. destruct sep as [|a sep]; [done|].
    by apply (split_go_last_clean (length s) (a :: sep) s).
  - apply last_None in Hl. by apply split_nonempty in Hl.
Qed.

Lemma index_first_split sep s :
  sep <> [] ->
  exists p, index_first (split sep s) = Ok p /\ contains sep p = false.
Proof.
  intros Hsep. unfold index_first.
  destruct (split sep s) as [|p ps] eqn:Hp; [by apply split_nonempty in Hp|].
  exists p. split; [done|]. destruct sep as [|a sep]; [done|].
  apply (split_go_head_clean (length s) (a :: sep) s); [done..|].
  unfold split in Hp. by rewrite Hp.
Qed.

End StringFacts.

(** ** The operations on sample values *)

Example split_keeps_empty_pieces :
  split (u "/") (u "a//b/") = [u "a"; []; u "b"; []].
Proof. reflexivity. Qed.

(** Occurrences of the separator are taken from the left and do not
    overlap. *)
Example split_takes_leftmost :
  split alias_marker (u "X/alias/alias/Y") = [u "X"; u "alias/Y"].
Proof. reflexivity. Qed.

Example strip_both_ends :
  strip (u "  hi there " ++ [10; 160]%N) = u "hi there".
Proof. reflexivity. Qed.

Example decode_two_bytes : decode_utf8_ignore [xc3; xa9] = [233%N].
Proof. reflexivity. Qed.

Example decode_three_bytes : decode_utf8_ignore [xe2; x82; xac] = [8364%N].
Proof. reflexivity. Qed.

Example decode_four_bytes :
  decode_utf8_ignore [xf0; x9f; x98; x80] = [128512%N].
Proof. reflexivity. Qed.

(** Ill-formed bytes are dropped: an overlong form, a surrogate, a lone
    continuation byte, a sequence cut short by a letter. *)
Example decode_drops_ill_formed :
  decode_utf8_ignore [xc0; x80] = []
  /\ decode_utf8_ignore [xed; xa0; x80] = []
  /\ decode_utf8_ignore [x41; x80; x42] = u "AB"
  /\ decode_utf8_ignore [xe2; x82; x41] = u "A".
Proof. repeat split. Qed.

(** A character whose bytes arrive in two chunks is lost: each chunk is
    decoded on its own. *)
Example decode_across_chunks :
  decode_utf8_ignore [xc3] ++ decode_utf8_ignore [xa9] = []
  /\ decode_utf8_ignore ([xc3] ++ [xa9]) = [233%N].
Proof. split; reflexivity. Qed.

(** A trace event and a final answer without text add nothing. *)
Example event_text_samples :
  event_text Fixtures.trace = None
  /\ event_text {| chunk := None;
                   finalResponse := Some {| text := Some [] |} |} = None
  /\ event_text (Fixtures.data "Hel") = Some (u "Hel")
  /\ event_text (Fixtures.final " world") = Some (u " world")
  /\ event_text {| chunk := Some {| bytes := None |};
                   finalResponse := Some {| text := Some (u "x") |} |}
     = Some [].
Proof. repeat split. Qed.

(** * Properties of the identifier helpers *)

Lemma alias_marker_nonempty : alias_marker <> [].
Proof. done. Qed.

Lemma agent_marker_nonempty : agent_marker <> [].
Proof. done. Qed.

Lemma slash_nonempty : slash <> [].
Proof. done. Qed.

Lemma is_locator_clean marker value :
  contains marker value = false -> is_locator marker value = false.
Proof. unfold is_locator. intros ->. by rewrite andb_false_r. Qed.

Lemma _extract_alias_id_not_locator value :
  is_locator alias_marker value = false -> _extract_alias_id value = value.
Proof. unfold _extract_alias_id. by intros ->. Qed.

Lemma _extract_agent_id_not_locator value :
  is_locator agent_marker value = false -> _extract_agent_id value = value.
Proof. unfold _extract_agent_id. by intros ->. Qed.

(** What [_extract_alias_id] returns is never parsed again. *)
Lemma _extract_alias_id_locator value :
  is_locator alias_marker value = true ->
  index_last (split alias_marker value) = Ok (_extract_alias_id value)
  /\ contains alias_marker (_extract_alias_id value) = false.
Proof.
  unfold _extract_alias_id. intros ->.
  destruct (index_last_split alias_marker value alias_marker_nonempty)
    as (l & -> & Hl).
  done.
Qed.

Lemma _extract_agent_id_locator value :
  is_locator agent_marker value = true ->
  (exists after,
      index_last (split agent_marker value) = Ok after
      /\ index_first (split slash after) = Ok (_extract_agent_id value))
  /\ contains agent_marker (_extract_agent_id value) = false.
Proof.
  unfold _extract_agent_id. intros ->.
  destruct (index_last_split agent_marker value agent_marker_nonempty)
    as (after & Ha & _).
  destruct (index_first_split slash after slash_nonempty) as (r & Hf & Hr).
  rewrite Ha, Hf. split; [by exists after|].
  destruct (contains agent_marker r) eqn:Hc; [|done].
  change agent_marker with (slash ++ u "agent/") in Hc.
  apply contains_weaken in Hc. congruence.
Qed.

Lemma _extract_alias_id_idempotent value :
  _extract_alias_id (_extract_alias_id value) = _extract_alias_id value.
Proof.
  destruct (is_locator alias_marker value) eqn:Hg.
  - apply _extract_alias_id_not_locator, is_locator_clean.
    by apply _extract_alias_id_locator.
  - by rewrite !(_extract_alias_id_not_locator value Hg).
Qed.

Lemma _extract_agent_id_idempotent value :
  _extract_agent_id (_extract_agent_id value) = _extract_agent_id value.
Proof.
  destruct (is_locator agent_marker value) eqn:Hg.
  - apply _extract_agent_id_not_locator, is_locator_clean.
    by apply _extract_agent_id_locator.
  - by rewrite !(_extract_agent_id_not_locator value Hg).
Qed.

(** C4. [normalizeIdentifier] is a total function on strings and is
    idempotent for both kinds; the [try] bodies of the two helpers never
    raise (the indexing they do always finds its piece), and an input that
    fails the locator test is returned unchanged. *)
Theorem normalizeIdentifier_total_idempotent (x : pystr) (k : kind) :
  normalizeIdentifier (normalizeIdentifier x k) k = normalizeIdentifier x k
  /\ (exists l, index_last (split (marker_of k) x) = Ok l
                /\ exists r, index_first (split slash l) = Ok r)
  /\ (is_locator (marker_of k) x = false -> normalizeIdentifier x k = x).
Proof.
  split; [|split].
  - destruct k; [apply _extract_agent_id_idempotent
                | apply _extract_alias_id_idempotent].
  - assert (Hk : marker_of k <> []) by (by destruct k).
    destruct (index_last_split (marker_of k) x Hk) as (l & Hl & _).
    destruct (index_first_split slash l slash_nonempty) as (r & Hr & _).
    eauto.
  - destruct k; [apply _extract_agent_id_not_locator
                | apply _extract_alias_id_not_locator].
Qed.

(** C5. On the specification's sample locator the alias helper returns
    ["B2"] and a bare identifier passes through, but the agent helper
    returns the whole locator, not ["A1"]: it looks for ["/agent/"], and in
    a locator the agent segment follows a colon. *)
Theorem normalizeIdentifier_sample_arn :
  normalizeIdentifier sample_arn alias = u "B2"
  /\ normalizeIdentifier (u "B2") alias = u "B2"
  /\ normalizeIdentifier sample_arn agent = sample_arn
  /\ normalizeIdentifier sample_arn agent <> u "A1".
Proof.
  split; [by vm_compute|]. split; [by vm_compute|]. split; [by vm_compute|].
  vm_compute. discriminate.
Qed.

(** An occurrence of ["/alias/"] that starts before the end of [P] and
    reaches past it shares its last slash with the marker that follows [P]:
    [P] then ends in ["/alias"]. *)
Lemma alias_marker_overlap P A X Y :
  P ++ alias_marker ++ A = X ++ alias_marker ++ Y ->
  length X < length P ->
  (forall X0, P <> X0 ++ u "/alias") ->
  length X + length alias_marker <= length P.
Proof.
  intros Heq HX Hend.
  destruct (decide (length X + length alias_marker <= length P)) as [|Hn]; [done|].
  exfalso.
  assert (HP : P = X ++ drop (length X) P).
  { rewrite <- (take_drop (length X) P) at 1. f_equal.
    rewrite <- (take_app_le _ (alias_marker ++ A)) by lia.
    rewrite Heq. by rewrite take_app_length. }
  set (Z := drop (length X) P) in *.
  assert (HZ : 0 < length Z < 7).
  { assert (length P = length X + length Z) by (rewrite HP at 1; by rewrite length_app).
    change (length alias_marker) with 7 in Hn. lia. }
  rewrite HP, <- app_assoc in Heq. apply app_inv_head in Heq.
  apply (Hend X). rewrite HP at 1. f_equal.
  change alias_marker with [47; 97; 108; 105; 97; 115; 47]%N in Heq.
  destruct Z as [|z1 [|z2 [|z3 [|z4 [|z5 [|z6 [|z7 Z]]]]]]];
    simpl in HZ; try lia; simplify_eq/=.
  done.
Qed.

Lemma agent_segment_not_alias_end pre ag X0 :
  47%N ∉ ag -> ag <> u "alias" ->
  arn_prefix ++ pre ++ u ":agent/" ++ ag <> X0 ++ u "/alias".
Proof.
  intros Hslash Hne Heq.
  apply (f_equal (@rev N)) in Heq.
  rewrite !app_assoc, !rev_app_distr in Heq.
  assert (Hr : 47%N ∉ rev ag).
  { rewrite list_elem_of_In, <- in_rev, <- list_elem_of_In. done. }
  assert (Hrne : rev ag <> [115; 97; 105; 108; 97]%N).
  { intros H. apply Hne. apply (f_equal (@rev N)) in H.
    by rewrite rev_involutive in H. }
  change (rev (u ":agent/")) with (47 :: rev (u ":agent"))%N in Heq.
  change (rev (u "/alias")) with [115; 97; 105; 108; 97; 47]%N in Heq.
  destruct (rev ag) as [|a1 [|a2 [|a3 [|a4 [|a5 [|a6 r]]]]]]; simplify_eq/=.
  apply Hr. set_solver.
Qed.

(** C6. A locator that begins with ["arn:aws:bedrock:"] and has the form
    [<prefix>:agent/<AGENT_ID>/alias/<ALIAS_ID>], with a slash-free agent
    segment other than the word [alias] and an alias segment that holds no
    further alias marker, is normalized with kind [alias] to [ALIAS_ID]. *)
Theorem normalizeIdentifier_alias_of_locator (pre ag al : pystr) :
  47%N ∉ ag -> ag <> u "alias" -> contains alias_marker al = false ->
  normalizeIdentifier
    (arn_prefix ++ pre ++ u ":agent/" ++ ag ++ alias_marker ++ al) alias = al.
Proof.
  intros Hslash Hne Hal. cbn [normalizeIdentifier].
  set (P := arn_prefix ++ pre ++ u ":agent/" ++ ag).
  replace (arn_prefix ++ pre ++ u ":agent/" ++ ag ++ alias_marker ++ al)
    with (P ++ alias_marker ++ al) by (unfold P; by rewrite <- !app_assoc).
  unfold _extract_alias_id.
  assert (Hloc : is_locator alias_marker (P ++ alias_marker ++ al) = true).
  { unfold is_locator. rewrite !andb_true_iff. split; [split|].
    - done.
    - apply startswith_spec. unfold P. rewrite <- !app_assoc. eauto.
    - apply contains_spec. eauto. }
  rewrite Hloc. unfold index_last, split.
  change alias_marker with (47 :: u "alias/")%N at 1.
  cbv iota. change (47 :: u "alias/")%N with alias_marker.
  rewrite (split_go_last_app _ alias_marker P al); [done|done|done| |done].
  intros X Y HXY HX. apply (alias_marker_overlap P al X Y HXY HX).
  intros X0. by apply agent_segment_not_alias_end.
Qed.

Lemma normalizeIdentifier_alias_of_locator_witness :
  normalizeIdentifier
    (arn_prefix ++ u "eu-west-1:123456789012" ++ u ":agent/" ++ u "5YVSEANCUS"
       ++ alias_marker ++ u "TSTALIASID") alias = u "TSTALIASID".
Proof.
  apply (normalizeIdentifier_alias_of_locator
           (u "eu-west-1:123456789012") (u "5YVSEANCUS") (u "TSTALIASID")).
  - apply (bool_decide_unpack _). vm_compute. exact I.
  - vm_compute. discriminate.
  - vm_compute. reflexivity.
Defined.

(** A locator with another prefix is not parsed: the alias kind returns
    [x:agent/A1/alias/B2] as it is. *)
Lemma normalizeIdentifier_other_prefix_unchanged :
  u "x:agent/A1/alias/B2" = u "x" ++ u ":agent/" ++ u "A1" ++ alias_marker ++ u "B2"
  /\ normalizeIdentifier (u "x:agent/A1/alias/B2") alias = u "x:agent/A1/alias/B2"
  /\ normalizeIdentifier (u "x:agent/A1/alias/B2") alias <> u "B2".
Proof.
  split; [by vm_compute|]. split; [by vm_compute|]. vm_compute. discriminate.
Qed.

(** * Running the methods *)

Section Run.

Context {S : Type} (env : Env S).

Lemma bind_run {A B} (m : M S A) (k : A -> M S B) (w : world S) :
  (m ≫= k) w =
  match m w with
  | (Ok a, w') => k a w'
  | (Raise e, w') => (Raise e, w')
  | (NoFuel, w') => (NoFuel, w')
  end.
Proof. done. Qed.

Lemma bind_ok {A B} (m : M S A) (k : A -> M S B) w a w' :
  m w = (Ok a, w') -> (m ≫= k) w = k a w'.
Proof. intros H. by rewrite bind_run, H. Qed.

Lemma bind_raise {A B} (m : M S A) (k : A -> M S B) w e w' :
  m w = (Raise e, w') -> (m ≫= k) w = (Raise e, w').
Proof. intros H. by rewrite bind_run, H. Qed.

Lemma bind_no_fuel {A B} (m : M S A) (k : A -> M S B) w w' :
  m w = (NoFuel, w') -> (m ≫= k) w = (NoFuel, w').
Proof. intros H. by rewrite bind_run, H. Qed.

Lemma remote_call_answer {A} c (op : S -> (exn + A) * S) w a s' :
  op (remote w) = (inr a, s') ->
  remote_call c op w = (Ok a, World s' (calls w ++ [c])).
Proof. unfold remote_call. by intros ->. Qed.

Lemma remote_call_fault {A} c (op : S -> (exn + A) * S) w e s' :
  op (remote w) = (inl e, s') ->
  remote_call c op w = (Raise e, World s' (calls w ++ [c])).
Proof. unfold remote_call. by intros ->. Qed.

Lemma local_call_run {A} c (op : S -> A * S) w a s' :
  op (remote w) = (a, s') ->
  local_call c op w = (Ok a, World s' (calls w ++ [c])).
Proof. unfold local_call. by intros ->. Qed.

(** The [try] body of [create_agent] when the remote refuses the
    creation. *)
Lemma create_agent_refused fuel cfg w tok s1 e s2 :
  uuid4 env (remote w) = (tok, s1) ->
  api_create_agent env (create_request cfg tok) s1 = (inl e, s2) ->
  create_agent env fuel cfg w =
  (let w2 := World s2 (calls w ++ [Call_uuid4;
                                    Call_create_agent (create_request cfg tok)]) in
   if isinstance_ClientError env e then
     if bool_decide (error_code e = Some (u "ConflictException")) then
       (existing ← find_agent_by_name env fuel (agent_name cfg);
        match existing with
        | Some a =>
            if truthy_dict existing && truthy_opt (a !! u "agentId")
            then get_agent env (default [] (a !! u "agentId"))
            else raise e
        | None => raise e
        end) w2
     else (Raise e, w2)
   else (Raise e, w2)).
Proof.
  intros Hu Hc. unfold create_agent, try_except.
  rewrite (bind_ok _ _ _ tok (World s1 (calls w ++ [Call_uuid4])))
    by (by apply local_call_run).
  cbv zeta.
  rewrite (bind_raise _ _ _ e
             (World s2 ((calls w ++ [Call_uuid4])
                          ++ [Call_create_agent (create_request cfg tok)])))
    by (by apply remote_call_fault).
  rewrite <- app_assoc. simpl app.
  destruct (isinstance_ClientError env e); [|done].
  destruct (bool_decide _); done.
Qed.

End Run.

(** * [create_agent]: recovery from a conflict *)

Section CreateAgent.

Context {S : Type} (env : Env S).

Implicit Types (w : world S) (cfg : AgentConfig) (e : exn).

Lemma find_agent_by_name_run fuel name w l w' :
  list_agents env fuel 100 w = (Ok l, w') ->
  find_agent_by_name env fuel name w
  = (Ok (List.find (has_value (u "agentName") name) l), w').
Proof. intros H. unfold find_agent_by_name. by rewrite (bind_ok _ _ _ _ _ H). Qed.

(** A conflict whose lookup finds the agent: the answer of [get_agent] for
    the id found is the result, whatever it is. *)
Lemma create_agent_conflict_found fuel cfg w tok s1 e s2 l w3 a id :
  uuid4 env (remote w) = (tok, s1) ->
  api_create_agent env (create_request cfg tok) s1 = (inl e, s2) ->
  isinstance_ClientError env e = true ->
  error_code e = Some (u "ConflictException") ->
  list_agents env fuel 100 (after_create w cfg tok s2) = (Ok l, w3) ->
  List.find (has_value (u "agentName") (agent_name cfg)) l = Some a ->
  a !! u "agentId" = Some id -> truthy id = true ->
  create_agent env fuel cfg w = get_agent env id w3.
Proof.
  intros Hu Hc Hcls Hcode Hl Hf Hid Ht.
  rewrite (create_agent_refused env fuel cfg w tok s1 e s2 Hu Hc).
  cbv zeta. rewrite Hcls, Hcode, bool_decide_eq_true_2 by done.
  fold (after_create w cfg tok s2).
  rewrite (bind_ok _ _ _ _ _ (find_agent_by_name_run _ _ _ _ _ Hl)), Hf.
  rewrite Hid. simpl. rewrite Ht, andb_true_r.
  rewrite bool_decide_eq_false_2; [done|].
  intros ->. by rewrite lookup_empty in Hid.
Qed.

(** An error that is not a conflict leaves [create_agent] as it was
    raised. *)
Lemma create_agent_other_error fuel cfg w tok s1 e s2 :
  uuid4 env (remote w) = (tok, s1) ->
  api_create_agent env (create_request cfg tok) s1 = (inl e, s2) ->
  error_code e <> Some (u "ConflictException") ->
  create_agent env fuel cfg w = (Raise e, after_create w cfg tok s2).
Proof.
  intros Hu Hc Hcode.
  rewrite (create_agent_refused env fuel cfg w tok s1 e s2 Hu Hc).
  cbv zeta. rewrite bool_decide_eq_false_2 by done.
  by destruct (isinstance_ClientError env e).
Qed.

(** C10. When the remote refuses the creation with [ConflictException] and
    the lookup finds no agent of the requested name in what [list_agents]
    returned, or finds one without an [agentId], the conflict is raised
    again to the caller. *)
Theorem create_agent_conflict_reraised fuel cfg w tok s1 e s2 l w3 :
  uuid4 env (remote w) = (tok, s1) ->
  api_create_agent env (create_request cfg tok) s1 = (inl e, s2) ->
  isinstance_ClientError env e = true ->
  error_code e = Some (u "ConflictException") ->
  list_agents env fuel 100 (after_create w cfg tok s2) = (Ok l, w3) ->
  (Forall (fun a : dict => a !! u "agentName" <> Some (agent_name cfg)) l
   \/ exists a, List.find (has_value (u "agentName") (agent_name cfg)) l = Some a
                /\ truthy_opt (a !! u "agentId") = false) ->
  create_agent env fuel cfg w = (Raise e, w3).
Proof.
  intros Hu Hc Hcls Hcode Hl Hnone.
  rewrite (create_agent_refused env fuel cfg w tok s1 e s2 Hu Hc).
  cbv zeta. rewrite Hcls, Hcode, bool_decide_eq_true_2 by done.
  fold (after_create w cfg tok s2).
  rewrite (bind_ok _ _ _ _ _ (find_agent_by_name_run _ _ _ _ _ Hl)).
  destruct Hnone as [Hall | (a & Hf & Hid)].
  - destruct (List.find _ l) as [a|] eqn:Hf; [|done].
    apply find_some in Hf as [Hin Hname].
    rewrite Forall_forall in Hall. apply list_elem_of_In, Hall in Hin.
    unfold has_value in Hname. by apply bool_decide_eq_true_1 in Hname.
  - rewrite Hf, Hid. by rewrite andb_false_r.
Qed.

End CreateAgent.

Lemma create_agent_conflict_reraised_witness :
  (create_agent (Sim.env Fixtures.conflict_nothing_listed) 1 Fixtures.cfg0
     Sim.world0).1
  = Raise (Service.conflict (agent_name Fixtures.cfg0)).
Proof.
  erewrite (create_agent_conflict_reraised
              (Sim.env Fixtures.conflict_nothing_listed) 1 Fixtures.cfg0
              Sim.world0 _ _ _ _ []).
  - reflexivity.
  - reflexivity.
  - reflexivity.
  - reflexivity.
  - reflexivity.
  - reflexivity.
  - left. constructor.
Defined.

(** * [create_agent] against the reference control plane *)

Section ReferenceService.

Implicit Types (w : world Service.state) (cfg : AgentConfig).

Lemma find_has_value (key v : pystr) (l : list dict) (a : dict) :
  List.find (has_value key v) l = Some a -> a !! key = Some v.
Proof.
  intros [_ H]%find_some. by apply bool_decide_eq_true_1 in H.
Qed.

(** On the empty service the first call creates ["AGENT"] and the second
    finds it. *)
Example service_create_agent_twice_from_empty :
  let run1 := create_agent Service.env 1 Fixtures.cfg0
                (World Service.empty []) in
  let run2 := create_agent Service.env 1 Fixtures.cfg0 run1.2 in
  (r ← match run1.1 with Ok r => Some r | _ => None end; r !! u "agentId")
  = Some (u "AGENT")
  /\ (r ← match run2.1 with Ok r => Some r | _ => None end; r !! u "agentId")
     = Some (u "AGENT")
  /\ length (Service.store (remote run2.2)) = 1.
Proof. repeat split; by vm_compute. Qed.

End ReferenceService.

(** * Pagination *)

Section Paginate.

Context {S R : Type}.
Context (fetch : option pystr -> S -> (exn + R) * S).
Context (items_of : R -> list dict) (token_of : R -> option pystr).
Context (call_of : option pystr -> call).

Lemma paginate_run w token pages w' :
  page_run fetch token_of call_of w token pages w' ->
  forall fuel acc, length pages <= fuel ->
    paginate fetch items_of token_of call_of fuel acc token w
    = (Ok (acc ++ concat (List.map items_of pages)), w').
Proof.
  induction 1 as [w token resp s' Hf Ht | w token resp s' pages w' Hf Ht Hrun IH];
    intros fuel acc Hfuel.
  - destruct fuel as [|fuel]; [simpl in Hfuel; lia|]. cbn [paginate].
    rewrite (bind_ok _ _ _ _ _ (remote_call_answer _ _ _ _ _ Hf)).
    cbv zeta. rewrite Ht. simpl. by rewrite app_nil_r.
  - destruct fuel as [|fuel]; [simpl in Hfuel; lia|]. cbn [paginate].
    rewrite (bind_ok _ _ _ _ _ (remote_call_answer _ _ _ _ _ Hf)).
    cbv zeta. rewrite Ht. cbn [negb].
    rewrite IH by (simpl in Hfuel; lia).
    simpl. by rewrite app_assoc.
Qed.

Lemma page_run_calls w token pages w' :
  page_run fetch token_of call_of w token pages w' ->
  calls w' = calls w ++ List.map call_of (request_tokens token_of token pages).
Proof.
  induction 1 as [w token resp s' Hf Ht | w token resp s' pages w' Hf Ht Hrun IH].
  - done.
  - rewrite IH. cbn [calls]. rewrite <- app_assoc. f_equal.
    unfold request_tokens. destruct pages as [|p pages]; [inversion Hrun|].
    cbn [removelast List.map app]. unfold kw_token at 2. by rewrite Ht.
Qed.

(** Every page of a run but the last carries a token, the last none. *)
Lemma page_run_tokens w token pages w' :
  page_run fetch token_of call_of w token pages w' ->
  Forall (fun r => truthy_opt (token_of r) = true) (removelast pages)
  /\ (exists r, last pages = Some r /\ truthy_opt (token_of r) = false).
Proof.
  induction 1 as [w token resp s' Hf Ht | w token resp s' pages w' Hf Ht Hrun IH].
  - split; [constructor | by exists resp].
  - destruct IH as [Hall (r & Hr & Hlast)].
    destruct pages as [|p pages]; [done|]. split.
    + cbn [removelast]. by constructor.
    + exists r. by rewrite last_cons_cons.
Qed.

End Paginate.

Section ListMethods.

Context {S : Type} (env : Env S).

Lemma list_agents_loop_paginate fuel max_results acc token (w : world S) :
  list_agents_loop env fuel max_results acc token w
  = paginate (api_list_agents env max_results) agent_items la_nextToken
      (Call_list_agents max_results) fuel acc token w.
Proof.
  revert acc token w. induction fuel as [|fuel IH]; intros acc token w; [done|].
  cbn [list_agents_loop paginate]. rewrite !bind_run.
  destruct (remote_call _ _ w) as [[resp| |] w1]; [|done..].
  cbv zeta. destruct (negb _); [done | apply IH].
Qed.

Lemma list_aliases_loop_paginate fuel agent_id max_results acc token
    (w : world S) :
  list_aliases_loop env fuel agent_id max_results acc token w
  = paginate (api_list_agent_aliases env agent_id max_results) alias_items
      laa_nextToken (Call_list_agent_aliases agent_id max_results)
      fuel acc token w.
Proof.
  revert acc token w. induction fuel as [|fuel IH]; intros acc token w; [done|].
  cbn [list_aliases_loop paginate]. rewrite !bind_run.
  destruct (remote_call _ _ w) as [[resp| |] w1]; [|done..].
  cbv zeta. destruct (negb _); [done | apply IH].
Qed.

Lemma or_list_default {A} (x y : option (list A)) :
  or_list x (or_list y []) =
  match x with
  | Some (a :: l) => a :: l
  | _ => default [] y
  end.
Proof. by destruct x as [[|a l]|], y as [[|b k]|]. Qed.

End ListMethods.

(** C8. [list_agents] and [list_aliases] return the items of all pages in
    order: the first request carries no token, each later request the token
    of the page before it, and the loop ends at the first page whose token
    is absent or empty.  The items of a page are those under the first key
    when that key holds a non-empty list, otherwise those under the second
    key, and no items when neither key is there. *)
Theorem list_methods_concatenate_pages :
  (forall S (env : Env S) max_results (w w' : world S) pages fuel,
      page_run (api_list_agents env max_results) la_nextToken
        (Call_list_agents max_results) w None pages w' ->
      length pages <= fuel ->
      list_agents env fuel max_results w
      = (Ok (concat (List.map agent_items pages)), w')
      /\ calls w' = calls w ++ List.map (Call_list_agents max_results)
                                (request_tokens la_nextToken None pages))
  /\ (forall S (env : Env S) agent_id max_results (w w' : world S) pages fuel,
         page_run (api_list_agent_aliases env agent_id max_results)
           laa_nextToken (Call_list_agent_aliases agent_id max_results)
           w None pages w' ->
         length pages <= fuel ->
         list_aliases env fuel agent_id max_results w
         = (Ok (concat (List.map alias_items pages)), w')
         /\ calls w' = calls w
                       ++ List.map (Call_list_agent_aliases agent_id max_results)
                            (request_tokens laa_nextToken None pages))
  /\ (forall resp,
         agent_items resp =
         match agents resp with
         | Some (a :: l) => a :: l
         | _ => default [] (agentSummaries resp)
         end)
  /\ (forall resp,
         alias_items resp =
         match agentAliasSummaries resp with
         | Some (a :: l) => a :: l
         | _ => default [] (agentAliases resp)
         end).
Proof.
  split; [|split; [|split]].
  - intros S env max_results w w' pages fuel Hrun Hfuel. split.
    + unfold list_agents. rewrite list_agents_loop_paginate.
      by rewrite (paginate_run _ _ _ _ _ _ _ _ Hrun).
    + apply (page_run_calls _ _ _ _ _ _ _ Hrun).
  - intros S env agent_id max_results w w' pages fuel Hrun Hfuel. split.
    + unfold list_aliases. rewrite list_aliases_loop_paginate.
      by rewrite (paginate_run _ _ _ _ _ _ _ _ Hrun).
    + apply (page_run_calls _ _ _ _ _ _ _ Hrun).
  - intros resp. apply or_list_default.
  - intros resp. apply or_list_default.
Qed.

Lemma list_methods_concatenate_pages_witness :
  (list_agents (Sim.env Fixtures.three_pages) 3 100 Sim.world0).1
  = Ok (List.map Fixtures.item [0; 1; 2; 3; 4; 5])
  /\ (list_aliases (Sim.env Fixtures.three_pages) 3 (u "A1") 100 Sim.world0).1
     = Ok (List.map Fixtures.item [0; 1; 2; 3; 4; 5]).
Proof.
  destruct list_methods_concatenate_pages as (Hagents & Haliases & _).
  split.
  - assert (Hrun : exists w',
               page_run (api_list_agents (Sim.env Fixtures.three_pages) 100)
                 la_nextToken (Call_list_agents 100) Sim.world0 None
                 (List.map Fixtures.agents_page [0; 1; 2]) w').
    { eexists.
      eapply page_more; [reflexivity..|].
      eapply page_more; [reflexivity..|].
      eapply page_last; reflexivity. }
    destruct Hrun as [w' Hrun].
    destruct (Hagents _ _ _ _ _ _ 3 Hrun) as [-> _]; [simpl; lia|reflexivity].
  - assert (Hrun : exists w',
               page_run
                 (api_list_agent_aliases (Sim.env Fixtures.three_pages)
                    (u "A1") 100)
                 laa_nextToken (Call_list_agent_aliases (u "A1") 100)
                 Sim.world0 None
                 (List.map Fixtures.aliases_page [0; 1; 2]) w').
    { eexists.
      eapply page_more; [reflexivity..|].
      eapply page_more; [reflexivity..|].
      eapply page_last; reflexivity. }
    destruct Hrun as [w' Hrun].
    destruct (Haliases _ _ _ _ _ _ _ 3 Hrun) as [-> _]; [simpl; lia|reflexivity].
Defined.

(** A page that carries the first key with an empty list and the second
    with an item: the first key is present, and the item under the second
    is returned all the same. *)
Lemma list_agents_empty_first_key :
  agents Fixtures.empty_first_key = Some []
  /\ first_present (agents Fixtures.empty_first_key)
       (agentSummaries Fixtures.empty_first_key) = []
  /\ (list_agents (Sim.env Fixtures.page_empty_first_key) 1 100 Sim.world0).1
     = Ok [Fixtures.item 0].
Proof. repeat split. Qed.

(** * [create_agent] against any control plane that keeps names unique *)

Section NameUniqueService.

Context {S : Type} (env : Env S) (stored : S -> list dict) (page_bound : nat).
Context (Hknu : keeps_names_unique env stored page_bound).

Implicit Types (w : world S) (cfg : AgentConfig).

Lemma get_agent_answered w id resp s' r :
  api_get_agent env id (remote w) = (inr resp, s') ->
  agent_field resp = Some r ->
  get_agent env id w = (Ok r, World s' (calls w ++ [Call_get_agent id])).
Proof.
  intros Hg Hr. unfold get_agent.
  rewrite (bind_ok _ _ _ _ _ (remote_call_answer _ _ _ _ _ Hg)).
  unfold get_item_agent. by rewrite Hr.
Qed.

(** The name is taken: the creation is refused, the agent listed under the
    name is looked up and returned; nothing is stored. *)
Lemma knu_create_agent_taken fuel cfg w a id :
  page_bound <= fuel ->
  List.find (has_value (u "agentName") (agent_name cfg)) (stored (remote w))
  = Some a ->
  a !! u "agentId" = Some id -> truthy id = true ->
  exists r w',
    create_agent env fuel cfg w = (Ok r, w')
    /\ r !! u "agentId" = Some id
    /\ stored (remote w') = stored (remote w).
Proof.
  intros Hfuel Hf Hid Ht.
  destruct (uuid4 env (remote w)) as [tok s1] eqn:Hu.
  assert (Hs1 : stored s1 = stored (remote w)).
  { pose proof (knu_uuid4 _ _ _ Hknu (remote w)) as H. by rewrite Hu in H. }
  assert (Htaken : name_taken stored (agentName (create_request cfg tok)) s1
                   = true).
  { unfold name_taken. rewrite Hs1. apply existsb_exists. exists a.
    by apply find_some in Hf. }
  destruct (knu_taken _ _ _ Hknu _ _ Htaken)
    as (e & s2 & Hc & Hcls & Hcode & Hs2).
  destruct (knu_list _ _ _ Hknu (after_create w cfg tok s2))
    as (pages & w3 & Hrun & Hlen & Hitems & Hs3).
  cbn [after_create remote] in Hitems, Hs3.
  assert (Hl : list_agents env fuel 100 (after_create w cfg tok s2)
               = (Ok (stored s2), w3)).
  { unfold list_agents. rewrite list_agents_loop_paginate.
    rewrite (paginate_run _ _ _ _ _ _ _ _ Hrun) by lia.
    by rewrite Hitems. }
  assert (Hin : a ∈ stored (remote w3)).
  { rewrite Hs3, Hs2, Hs1. apply find_some in Hf as [Hin' _].
    by apply list_elem_of_In. }
  destruct (knu_get _ _ _ Hknu a id (remote w3) Hin Hid)
    as (r & s4 & Hg & Hr & Hs4).
  exists r, (World s4 (calls w3 ++ [Call_get_agent id])).
  split; [|split; [done|]].
  - rewrite (create_agent_conflict_found env fuel cfg w tok s1 e s2
               (stored s2) w3 a id Hu Hc Hcls Hcode Hl); [|by rewrite Hs2, Hs1|done..].
    by apply (get_agent_answered w3 id _ s4 r Hg).
  - cbn [remote]. by rewrite Hs4, Hs3, Hs2, Hs1.
Qed.

(** The name is free: the agent is created and returned, and it is the one
    the service holds under the name from then on. *)
Lemma knu_create_agent_free fuel cfg w :
  name_taken stored (agent_name cfg) (remote w) = false ->
  exists r w',
    create_agent env fuel cfg w = (Ok r, w')
    /\ r !! u "agentName" = Some (agent_name cfg)
    /\ truthy_opt (r !! u "agentId") = true
    /\ stored (remote w') ≡ₚ r :: stored (remote w).
Proof.
  intros Hfree.
  destruct (uuid4 env (remote w)) as [tok s1] eqn:Hu.
  assert (Hs1 : stored s1 = stored (remote w)).
  { pose proof (knu_uuid4 _ _ _ Hknu (remote w)) as H. by rewrite Hu in H. }
  assert (Hfree1 : name_taken stored (agentName (create_request cfg tok)) s1
                   = false).
  { unfold name_taken in *. by rewrite Hs1. }
  destruct (knu_free _ _ _ Hknu _ _ Hfree1) as (a & s2 & Hc & Hn & Hi & Hs2).
  exists a, (after_create w cfg tok s2). split; [|split; [done|split; [done|]]].
  - unfold create_agent, try_except, new_uuid.
    rewrite (bind_ok _ _ _ _ _ (local_call_run _ _ _ _ _ Hu)). cbv zeta.
    rewrite (bind_ok _ _ _ _ _
               (remote_call_answer _ _ (World s1 (calls w ++ [Call_uuid4]))
                  _ _ Hc)).
    unfold after_create. cbn. by rewrite <- app_assoc.
  - cbn [after_create remote]. by rewrite Hs2, Hs1.
Qed.

(** The first agent listed under a name that was free before [r] was
    stored is [r]. *)
Lemma find_after_creation (name : pystr) (l l' : list dict) (r : dict) :
  existsb (has_value (u "agentName") name) l = false ->
  r !! u "agentName" = Some name ->
  l' ≡ₚ r :: l ->
  List.find (has_value (u "agentName") name) l' = Some r.
Proof.
  intros Hfree Hr Hperm.
  destruct (List.find (has_value (u "agentName") name) l') as [x|] eqn:Hf.
  - apply find_some in Hf as [Hin Hx].
    apply list_elem_of_In in Hin. rewrite Hperm in Hin.
    apply elem_of_cons in Hin as [->|Hin]; [done|].
    assert (existsb (has_value (u "agentName") name) l = true); [|congruence].
    apply existsb_exists. exists x. split; [by apply list_elem_of_In|done].
  - assert (Hin : r ∈ l') by (rewrite Hperm; by left).
    apply list_elem_of_In in Hin. eapply find_none in Hf; [|exact Hin].
    unfold has_value in Hf. by rewrite Hr, bool_decide_eq_true_2 in Hf.
Qed.

(** Two calls in sequence return the same id, and one agent at most is
    stored. *)
Lemma knu_create_agent_twice fuel cfg w :
  page_bound <= fuel ->
  all_have_ids stored (remote w) ->
  exists r1 w1 r2 w2 id,
    create_agent env fuel cfg w = (Ok r1, w1)
    /\ create_agent env fuel cfg w1 = (Ok r2, w2)
    /\ r1 !! u "agentId" = Some id /\ r2 !! u "agentId" = Some id
    /\ length (stored (remote w2)) <= Datatypes.S (length (stored (remote w))).
Proof.
  intros Hfuel Hwf.
  destruct (name_taken stored (agent_name cfg) (remote w)) eqn:Htaken.
  - unfold name_taken in Htaken.
    apply existsb_exists in Htaken as (a & Hin & Ha).
    destruct (List.find (has_value (u "agentName") (agent_name cfg))
                (stored (remote w))) as [a'|] eqn:Hf.
    2:{ eapply find_none in Hf; [|exact Hin]. congruence. }
    assert (Hid : exists id, a' !! u "agentId" = Some id /\ truthy id = true).
    { apply find_some in Hf as [Hin' _]. unfold all_have_ids in Hwf.
      rewrite Forall_forall in Hwf. apply list_elem_of_In, Hwf in Hin'.
      destruct (a' !! u "agentId") as [id|]; [by exists id|done]. }
    destruct Hid as (id & Hid & Ht).
    destruct (knu_create_agent_taken fuel cfg w a' id Hfuel Hf Hid Ht)
      as (r1 & w1 & H1 & Hr1 & Hs1).
    rewrite <- Hs1 in Hf.
    destruct (knu_create_agent_taken fuel cfg w1 a' id Hfuel Hf Hid Ht)
      as (r2 & w2 & H2 & Hr2 & Hs2).
    exists r1, w1, r2, w2, id. rewrite Hs2, Hs1. repeat split; [done..|lia].
  - destruct (knu_create_agent_free fuel cfg w Htaken)
      as (r1 & w1 & H1 & Hn1 & Hi1 & Hs1).
    destruct (r1 !! u "agentId") as [id|] eqn:Hid; [|done].
    cbn [truthy_opt] in Hi1.
    assert (Hf : List.find (has_value (u "agentName") (agent_name cfg))
                   (stored (remote w1)) = Some r1)
      by (by apply (find_after_creation _ (stored (remote w)))).
    destruct (knu_create_agent_taken fuel cfg w1 r1 id Hfuel Hf Hid Hi1)
      as (r2 & w2 & H2 & Hr2 & Hs2).
    exists r1, w1, r2, w2, id. rewrite Hs2, Hs1. cbn [length].
    repeat split; [done..|lia].
Qed.

End NameUniqueService.

(** The reference control plane keeps names unique; one page shows its
    agents. *)
Lemma service_keeps_names_unique :
  keeps_names_unique Service.env Service.store 1.
Proof.
  split.
  - done.
  - intros rq st Htaken. unfold name_taken in Htaken.
    exists (Service.conflict (agentName rq)), st.
    cbn. unfold Service.create. by rewrite Htaken.
  - intros rq st Hfree. unfold name_taken in Hfree.
    exists (Service.new_agent rq st),
      {| Service.store := Service.store st ++ [Service.new_agent rq st];
         Service.issued := Service.issued st |}.
    cbn. unfold Service.create. rewrite Hfree.
    split; [done|]. split; [|split].
    + unfold Service.new_agent.
      rewrite lookup_insert_ne by (by vm_compute). by rewrite lookup_insert_eq.
    + unfold Service.new_agent. by rewrite lookup_insert_eq.
    + symmetry. apply Permutation_cons_append.
  - intros w.
    exists [{| agents := None; agentSummaries := Some (Service.store (remote w));
               la_nextToken := None |}].
    eexists. split; [by apply page_last|].
    split; [done|]. split; [|done].
    cbn. rewrite app_nil_r. by destruct (Service.store (remote w)).
  - intros a id st Hin Hid.
    destruct (List.find (has_value (u "agentId") id) (Service.store st))
      as [r|] eqn:Hf.
    + exists r, st. cbn. unfold Service.get. rewrite Hf.
      split; [done|]. split; [by apply find_has_value in Hf | done].
    + apply list_elem_of_In in Hin. eapply find_none in Hf; [|exact Hin].
      unfold has_value in Hf. by rewrite Hid, bool_decide_eq_true_2 in Hf.
Qed.




(** * [wait_for_status]: the polling loop *)

Section WaitForStatus.

Context {S : Type} (env : Env S).
Context (agent_id desired : pystr) (timeout_s poll_s : Q).

Implicit Types (w : world S) (r : res pystr).

Lemma Qltb_true x y : Qltb x y = true <-> (x < y)%Q.
Proof.
  unfold Qltb. rewrite negb_true_iff, <- not_true_iff_false, Qle_bool_iff.
  split; [apply Qnot_le_lt | apply Qlt_not_le].
Qed.

Lemma Qltb_false x y : Qltb x y = false <-> (y <= x)%Q.
Proof. unfold Qltb. by rewrite negb_false_iff, Qle_bool_iff. Qed.

Lemma sleep_run d w :
  (0 <= d)%Q ->
  sleep env d w
  = (Ok tt, World (time_sleep env d (remote w)) (calls w ++ [Call_sleep d])).
Proof.
  intros Hd. unfold sleep. apply Qltb_false in Hd. by rewrite Hd.
Qed.

(** The loop test fails: the timeout is raised without a poll. *)
Lemma wait_loop_timeout fuel start w t s1 :
  time_time env (remote w) = (t, s1) ->
  Qltb (t - start) timeout_s = false ->
  wait_loop env (Datatypes.S fuel) agent_id desired timeout_s poll_s start w
  = (Raise (TimeoutError (timeout_message agent_id desired)),
     World s1 (calls w ++ [Call_time])).
Proof.
  intros Ht Hlt. cbn [wait_loop]. unfold now.
  rewrite (bind_ok _ _ _ _ _ (local_call_run _ _ _ _ _ Ht)). by rewrite Hlt.
Qed.

(** The loop test holds and [get_agent] fails: its error leaves the
    loop. *)
Lemma wait_loop_poll_fault fuel start w t s1 e s2 :
  time_time env (remote w) = (t, s1) ->
  Qltb (t - start) timeout_s = true ->
  api_get_agent env agent_id s1 = (inl e, s2) ->
  wait_loop env (Datatypes.S fuel) agent_id desired timeout_s poll_s start w
  = (Raise e, World s2 (calls w ++ [Call_time; Call_get_agent agent_id])).
Proof.
  intros Ht Hlt Hg. cbn [wait_loop]. unfold now.
  rewrite (bind_ok _ _ _ _ _ (local_call_run _ _ _ _ _ Ht)). rewrite Hlt.
  erewrite bind_raise; [|by apply remote_call_fault].
  cbn [remote calls]. by rewrite <- app_assoc.
Qed.

(** The loop test holds and [get_agent] answers with agent [a]: what one
    poll does. *)
Lemma wait_loop_poll fuel start w t s1 resp s2 a :
  time_time env (remote w) = (t, s1) ->
  Qltb (t - start) timeout_s = true ->
  api_get_agent env agent_id s1 = (inr resp, s2) ->
  agent_field resp = Some a ->
  wait_loop env (Datatypes.S fuel) agent_id desired timeout_s poll_s start w
  = (let w2 := World s2 (calls w ++ [Call_time; Call_get_agent agent_id]) in
     if bool_decide (a !! u "agentStatus" = Some desired) then (Ok desired, w2)
     else
       match a !! u "agentStatus" with
       | Some st =>
           if bool_decide (st ∈ terminal_statuses)
           then (Raise (RuntimeError (terminal_message st) None), w2)
           else (_ ← sleep env poll_s;
                 wait_loop env fuel agent_id desired timeout_s poll_s start) w2
       | None =>
           (_ ← sleep env poll_s;
            wait_loop env fuel agent_id desired timeout_s poll_s start) w2
       end).
Proof.
  intros Ht Hlt Hg Ha. cbn [wait_loop]. unfold now.
  rewrite (bind_ok _ _ _ _ _ (local_call_run _ _ _ _ _ Ht)). rewrite Hlt.
  erewrite bind_ok; [|by apply remote_call_answer].
  unfold get_item_agent. rewrite Ha. cbn [remote calls].
  rewrite <- app_assoc. cbn [app]. rewrite bind_run. cbn [mret M_ret ret].
  cbv zeta. destruct (bool_decide (a !! u "agentStatus" = Some desired)); [done|].
  destruct (a !! u "agentStatus") as [st|]; [|done].
  by destruct (bool_decide (st ∈ terminal_statuses)).
Qed.

Lemma wait_loop_exits fuel start w r w' :
  always_answers env agent_id -> (0 <= poll_s)%Q ->
  wait_loop env fuel agent_id desired timeout_s poll_s start w = (r, w') ->
  (r = NoFuel \/ wait_exit agent_id desired r)
  /\ exists extra, calls w' = calls w ++ extra /\ Forall (is_wait_call agent_id poll_s) extra.
Proof.
  intros Hans Hpoll. revert w.
  induction fuel as [|fuel IH]; intros w Hrun.
  - injection Hrun as <- <-. split; [by left|]. exists [].
    by rewrite app_nil_r.
  - destruct (time_time env (remote w)) as [t s1] eqn:Ht.
    destruct (Qltb (t - start) timeout_s) eqn:Hlt.
    + destruct (Hans s1) as (a & s2 & Hg).
      rewrite (wait_loop_poll fuel start w t s1 _ s2 a Ht Hlt Hg eq_refl) in Hrun.
      cbv zeta in Hrun.
      assert (Hpolled : Forall (is_wait_call agent_id poll_s) [Call_time; Call_get_agent agent_id]).
      { constructor; [by left|]. constructor; [right; by left|]. constructor. }
      assert (Hagain :
                (_ ← sleep env poll_s;
                 wait_loop env fuel agent_id desired timeout_s poll_s start)
                  (World s2 (calls w ++ [Call_time; Call_get_agent agent_id]))
                = (r, w') ->
                (r = NoFuel \/ wait_exit agent_id desired r)
                /\ exists extra, calls w' = calls w ++ extra
                                 /\ Forall (is_wait_call agent_id poll_s) extra).
      { rewrite (bind_ok _ _ _ _ _ (sleep_run _ _ Hpoll)). intros H.
        apply IH in H as [Hr (extra & -> & Hextra)]. split; [done|].
        cbn [calls]. rewrite <- !app_assoc.
        eexists. split; [reflexivity|].
        apply Forall_app. split; [done|]. constructor; [|done].
        right. by right. }
      destruct (bool_decide (a !! u "agentStatus" = Some desired)) eqn:Hd.
      * injection Hrun as <- <-. split; [right; by left|]. eauto.
      * apply bool_decide_eq_false_1 in Hd.
        destruct (a !! u "agentStatus") as [st|] eqn:Hst; [|by apply Hagain].
        destruct (bool_decide (st ∈ terminal_statuses)) eqn:Hterm;
          [|by apply Hagain].
        injection Hrun as <- <-. apply bool_decide_eq_true_1 in Hterm.
        split; [|eauto]. right. right. left. exists st.
        repeat split; [done|congruence].
    + rewrite (wait_loop_timeout fuel start w t s1 Ht Hlt) in Hrun.
      injection Hrun as <- <-. split; [right; right; by right|].
      exists [Call_time]. split; [done|].
      constructor; [by left | constructor].
Qed.

(** A status that is neither awaited nor terminal keeps the loop polling
    until the clock passes the bound: after at most [n] sleeps that cover
    the time left, the timeout is raised. *)
Lemma wait_loop_times_out time_of status :
  clock_advances env agent_id time_of -> always_reports env agent_id status ->
  status <> desired -> status ∉ terminal_statuses -> (0 <= poll_s)%Q ->
  forall n fuel start w,
    n < fuel ->
    (timeout_s <= (time_of (remote w) - start) + slept n poll_s)%Q ->
    exists w',
      wait_loop env fuel agent_id desired timeout_s poll_s start w
      = (Raise (TimeoutError (timeout_message agent_id desired)), w').
Proof.
  intros (Hread & Hget & Hsleep) Hrep Hnd Hnt Hpoll.
  induction n as [|n IH]; intros fuel start w Hfuel Hleft;
    (destruct fuel as [|fuel]; [lia|]);
    destruct (time_time env (remote w)) as [t s1] eqn:Ht;
    destruct (Hread _ _ _ Ht) as [Hlo Hhi];
    destruct (Qltb (t - start) timeout_s) eqn:Hlt;
    try (eexists; eapply wait_loop_timeout; eassumption).
  - apply Qltb_true in Hlt. cbn [slept] in Hleft. lra.
  - destruct (Hrep s1) as (a & s2 & Hg & Hst).
    rewrite (wait_loop_poll fuel start w t s1 _ s2 a Ht Hlt Hg eq_refl).
    cbv zeta. rewrite Hst.
    rewrite bool_decide_eq_false_2 by congruence.
    rewrite bool_decide_eq_false_2 by done.
    rewrite (bind_ok _ _ _ _ _ (sleep_run _ _ Hpoll)).
    apply IH; [lia|]. cbn [remote].
    specialize (Hget _ _ _ Hg). specialize (Hsleep s2 poll_s).
    cbn [slept] in Hleft. lra.
Qed.

Lemma wait_loop_polls_before start n w w' :
  polls_before env agent_id desired timeout_s poll_s start n w w' ->
  forall fuel,
    wait_loop env (n + fuel) agent_id desired timeout_s poll_s start w
    = wait_loop env fuel agent_id desired timeout_s poll_s start w'.
Proof.
  induction 1 as [w | n w t s1 resp s2 a w' Ht Hlt Hg Ha Hnd Hnt Hpoll Hrun IH];
    intros fuel; [done|].
  cbn [Nat.add].
  rewrite (wait_loop_poll (n + fuel) start w t s1 resp s2 a Ht Hlt Hg Ha).
  cbv zeta. rewrite bool_decide_eq_false_2 by done.
  rewrite <- IH.
  assert (Hgo : (_ ← sleep env poll_s;
                 wait_loop env (n + fuel) agent_id desired timeout_s poll_s start)
                  (World s2 (calls w ++ [Call_time; Call_get_agent agent_id]))
                = wait_loop env (n + fuel) agent_id desired timeout_s poll_s start
                    (World (time_sleep env poll_s s2)
                       (calls w ++ [Call_time; Call_get_agent agent_id;
                                    Call_sleep poll_s]))).
  { rewrite (bind_ok _ _ _ _ _ (sleep_run _ _ Hpoll)). cbn [remote calls].
    by rewrite <- app_assoc. }
  destruct (a !! u "agentStatus") as [st|] eqn:Hst; [|done].
  rewrite bool_decide_eq_false_2 by (by apply Hnt). done.
Qed.

End WaitForStatus.

(** C9. The awaited status is compared before the terminal statuses are
    checked: when [desired] is itself ["FAILED"] or ["DELETING"] and a poll
    of [wait_for_status] (the first, or one after [n] polls that saw
    neither the awaited nor a terminal status) observes it, the call returns
    that status and raises no terminal-state error. *)
Theorem wait_for_status_returns_desired_terminal {S : Type} (env : Env S)
    (agent_id desired : pystr) (timeout_s poll_s : Q) (fuel n : nat)
    (w wk : world S) (t0 t : Q) (s0 s1 s2 : S) (resp : agent_response)
    (a : dict) :
  desired ∈ terminal_statuses ->
  time_time env (remote w) = (t0, s0) ->
  polls_before env agent_id desired timeout_s poll_s t0 n
    (World s0 (calls w ++ [Call_time])) wk ->
  time_time env (remote wk) = (t, s1) ->
  (t - t0 < timeout_s)%Q ->
  api_get_agent env agent_id s1 = (inr resp, s2) ->
  agent_field resp = Some a ->
  a !! u "agentStatus" = Some desired ->
  n < fuel ->
  wait_for_status env fuel agent_id desired timeout_s poll_s w
  = (Ok desired, World s2 (calls wk ++ [Call_time; Call_get_agent agent_id])).
Proof.
  intros _ Ht0 Hpolls Ht Hlt Hg Ha Hst Hfuel.
  unfold wait_for_status, now.
  rewrite (bind_ok _ _ _ _ _ (local_call_run _ _ _ _ _ Ht0)).
  replace fuel with (n + Datatypes.S (fuel - Datatypes.S n)) by lia.
  rewrite (wait_loop_polls_before _ _ _ _ _ _ _ _ _ Hpolls).
  apply Qltb_true in Hlt.
  rewrite (wait_loop_poll _ _ _ _ _ _ _ _ _ _ _ _ _ Ht Hlt Hg Ha).
  cbv zeta. by rewrite bool_decide_eq_true_2.
Qed.

Lemma wait_for_status_returns_desired_terminal_witness :
  (wait_for_status (Sim.env (Fixtures.reporting (u "FAILED") 0)) 1
     (u "A1") (u "FAILED") 600 10 Sim.world0).1
  = Ok (u "FAILED").
Proof.
  erewrite (wait_for_status_returns_desired_terminal
              (Sim.env (Fixtures.reporting (u "FAILED") 0))
              (u "A1") (u "FAILED") 600 10 1 0 Sim.world0);
    [ reflexivity
    | by apply (bool_decide_unpack _)
    | reflexivity
    | apply polls_none
    | reflexivity
    | reflexivity
    | reflexivity
    | reflexivity
    | reflexivity
    | lia ].
Defined.

(** * [prepareAndWait] *)

Section PrepareAndWait.

Context {S : Type} (env : Env S).
Context (agent_id desired : pystr) (timeout_s poll_s : Q).

Lemma prepareAndWait_prepared fuel (w : world S) d s1 :
  api_prepare_agent env agent_id (remote w) = (inr d, s1) ->
  prepareAndWait env fuel agent_id desired timeout_s poll_s w
  = wait_for_status env fuel agent_id desired timeout_s poll_s
      (World s1 (calls w ++ [Call_prepare_agent agent_id])).
Proof.
  intros Hp. unfold prepareAndWait, prepare_agent.
  by rewrite (bind_ok _ _ _ _ _ (remote_call_answer _ _ _ _ _ Hp)).
Qed.

Lemma prepareAndWait_refused fuel (w : world S) e s1 :
  api_prepare_agent env agent_id (remote w) = (inl e, s1) ->
  prepareAndWait env fuel agent_id desired timeout_s poll_s w
  = (Raise e, World s1 (calls w ++ [Call_prepare_agent agent_id])).
Proof.
  intros Hp. unfold prepareAndWait, prepare_agent.
  by rewrite (bind_raise _ _ _ _ _ (remote_call_fault _ _ _ _ _ Hp)).
Qed.

(** With a service that answers, a finished call ended in one of the three
    ways, after one [prepare_agent] and then clock readings, polls and
    sleeps only. *)
Lemma prepareAndWait_exits fuel (w : world S) d s1 r w' :
  always_answers env agent_id -> (0 <= poll_s)%Q ->
  api_prepare_agent env agent_id (remote w) = (inr d, s1) ->
  prepareAndWait env fuel agent_id desired timeout_s poll_s w = (r, w') ->
  (r = NoFuel \/ wait_exit agent_id desired r)
  /\ exists extra,
      calls w' = calls w ++ Call_prepare_agent agent_id :: extra
      /\ Forall (is_wait_call agent_id poll_s) extra.
Proof.
  intros Hans Hpoll Hp. rewrite (prepareAndWait_prepared fuel w d s1 Hp).
  unfold wait_for_status, now.
  destruct (time_time env s1) as [t0 s0] eqn:Ht0.
  rewrite (bind_ok _ _ _ _ _
             (local_call_run _ _
                (World s1 (calls w ++ [Call_prepare_agent agent_id]))
                t0 s0 Ht0)).
  intros Hrun.
  apply (wait_loop_exits env agent_id desired timeout_s poll_s) in Hrun
    as [Hr (extra & -> & Hextra)]; [|done..].
  split; [done|]. exists (Call_time :: extra). cbn [calls].
  rewrite <- !app_assoc. split; [done|]. constructor; [by left | done].
Qed.

(** The exit is taken at the poll that observes it. *)
Lemma wait_for_status_exit_at_poll fuel n (w wk : world S) t0 s0 t s1 :
  time_time env (remote w) = (t0, s0) ->
  polls_before env agent_id desired timeout_s poll_s t0 n
    (World s0 (calls w ++ [Call_time])) wk ->
  time_time env (remote wk) = (t, s1) ->
  n < fuel ->
  ((timeout_s <= t - t0)%Q ->
   wait_for_status env fuel agent_id desired timeout_s poll_s w
   = (Raise (TimeoutError (timeout_message agent_id desired)),
      World s1 (calls wk ++ [Call_time])))
  /\ (forall e s2,
         (t - t0 < timeout_s)%Q ->
         api_get_agent env agent_id s1 = (inl e, s2) ->
         wait_for_status env fuel agent_id desired timeout_s poll_s w
         = (Raise e,
            World s2 (calls wk ++ [Call_time; Call_get_agent agent_id])))
  /\ (forall resp s2 a,
         (t - t0 < timeout_s)%Q ->
         api_get_agent env agent_id s1 = (inr resp, s2) ->
         agent_field resp = Some a ->
         let w2 := World s2 (calls wk ++ [Call_time; Call_get_agent agent_id]) in
         (a !! u "agentStatus" = Some desired ->
          wait_for_status env fuel agent_id desired timeout_s poll_s w
          = (Ok desired, w2))
         /\ (forall st,
                a !! u "agentStatus" = Some st -> st <> desired ->
                st ∈ terminal_statuses ->
                wait_for_status env fuel agent_id desired timeout_s poll_s w
                = (Raise (RuntimeError (terminal_message st) None), w2))).
Proof.
  intros Ht0 Hpolls Ht Hfuel.
  assert (Hloop :
            wait_for_status env fuel agent_id desired timeout_s poll_s w
            = wait_loop env (Datatypes.S (fuel - Datatypes.S n)) agent_id desired
                timeout_s poll_s t0 wk).
  { unfold wait_for_status, now.
    rewrite (bind_ok _ _ _ _ _ (local_call_run _ _ _ _ _ Ht0)).
    replace fuel with (n + Datatypes.S (fuel - Datatypes.S n)) at 1 by lia.
    apply (wait_loop_polls_before _ _ _ _ _ _ _ _ _ Hpolls). }
  rewrite Hloop. split; [|split].
  - intros Hout. apply Qltb_false in Hout.
    by apply (wait_loop_timeout _ _ _ _ _ _ _ _ t s1).
  - intros e s2 Hlt Hg. apply Qltb_true in Hlt.
    by apply (wait_loop_poll_fault _ _ _ _ _ _ _ _ t s1).
  - intros resp s2 a Hlt Hg Ha w2. apply Qltb_true in Hlt.
    rewrite (wait_loop_poll _ _ _ _ _ _ _ _ _ _ _ _ _ Ht Hlt Hg Ha).
    cbv zeta. split.
    + intros Hst. by rewrite bool_decide_eq_true_2.
    + intros st Hst Hne Hterm. rewrite Hst.
      rewrite bool_decide_eq_false_2 by congruence.
      by rewrite bool_decide_eq_true_2.
Qed.

(** The exits beside the three: a poll whose answer lacks the ["agent"]
    key, and a sleep of negative length. *)
Lemma wait_for_status_other_exits fuel n (w wk : world S) t0 s0 t s1 resp s2 :
  time_time env (remote w) = (t0, s0) ->
  polls_before env agent_id desired timeout_s poll_s t0 n
    (World s0 (calls w ++ [Call_time])) wk ->
  time_time env (remote wk) = (t, s1) ->
  n < fuel ->
  (t - t0 < timeout_s)%Q ->
  api_get_agent env agent_id s1 = (inr resp, s2) ->
  let w2 := World s2 (calls wk ++ [Call_time; Call_get_agent agent_id]) in
  (agent_field resp = None ->
   wait_for_status env fuel agent_id desired timeout_s poll_s w
   = (Raise (KeyError (u "agent")), w2))
  /\ (forall a,
         agent_field resp = Some a ->
         a !! u "agentStatus" <> Some desired ->
         (forall st, a !! u "agentStatus" = Some st ->
                     st ∉ terminal_statuses) ->
         (poll_s < 0)%Q ->
         wait_for_status env fuel agent_id desired timeout_s poll_s w
         = (Raise (ValueError (u "sleep length must be non-negative")), w2)).
Proof.
  intros Ht0 Hpolls Ht Hfuel Hlt Hg w2.
  assert (Hloop :
            wait_for_status env fuel agent_id desired timeout_s poll_s w
            = wait_loop env (Datatypes.S (fuel - Datatypes.S n)) agent_id desired
                timeout_s poll_s t0 wk).
  { unfold wait_for_status, now.
    rewrite (bind_ok _ _ _ _ _ (local_call_run _ _ _ _ _ Ht0)).
    replace fuel with (n + Datatypes.S (fuel - Datatypes.S n)) at 1 by lia.
    apply (wait_loop_polls_before _ _ _ _ _ _ _ _ _ Hpolls). }
  rewrite Hloop. apply Qltb_true in Hlt. split.
  - intros Ha. cbn [wait_loop]. unfold now.
    rewrite (bind_ok _ _ _ _ _ (local_call_run _ _ _ _ _ Ht)). rewrite Hlt.
    erewrite bind_ok; [|by apply remote_call_answer].
    unfold get_item_agent. rewrite Ha. cbn [remote calls].
    rewrite <- app_assoc. done.
  - intros a Ha Hnd Hnt Hneg.
    rewrite (wait_loop_poll _ _ _ _ _ _ _ _ _ _ _ _ _ Ht Hlt Hg Ha).
    cbv zeta. rewrite bool_decide_eq_false_2 by done.
    assert (Hsleep : forall k : unit -> M S pystr,
               (sleep env poll_s ≫= k) w2
               = (Raise (ValueError (u "sleep length must be non-negative")),
                  w2)).
    { intros k. rewrite bind_run. unfold sleep.
      by rewrite (proj2 (Qltb_true _ _) Hneg). }
    destruct (a !! u "agentStatus") as [st|] eqn:Hst; [|apply Hsleep].
    rewrite bool_decide_eq_false_2 by (by apply Hnt). apply Hsleep.
Qed.

(** A service that keeps reporting a status that is neither awaited nor
    terminal: the call ends with the timeout. *)
Lemma prepareAndWait_times_out time_of status fuel n (w : world S) d s1 :
  clock_advances env agent_id time_of ->
  always_reports env agent_id status ->
  status <> desired -> status ∉ terminal_statuses -> (0 <= poll_s)%Q ->
  (timeout_s <= slept n poll_s)%Q -> n < fuel ->
  api_prepare_agent env agent_id (remote w) = (inr d, s1) ->
  exists w',
    prepareAndWait env fuel agent_id desired timeout_s poll_s w
    = (Raise (TimeoutError (timeout_message agent_id desired)), w').
Proof.
  intros Hclock Hrep Hnd Hnt Hpoll Hn Hfuel Hp.
  rewrite (prepareAndWait_prepared fuel w d s1 Hp).
  unfold wait_for_status, now.
  destruct (time_time env s1) as [t0 s0] eqn:Ht0.
  rewrite (bind_ok _ _ _ _ _
             (local_call_run _ _
                (World s1 (calls w ++ [Call_prepare_agent agent_id]))
                t0 s0 Ht0)).
  apply (wait_loop_times_out env agent_id desired timeout_s poll_s
           time_of status Hclock Hrep Hnd Hnt Hpoll n); [done|].
  destruct Hclock as (Hread & _). destruct (Hread _ _ _ Ht0) as [_ Hhi].
  cbn [remote]. lra.
Qed.

End PrepareAndWait.

Section WaitBound.

Context {S : Type} (env : Env S).
Context (agent_id desired : pystr) (timeout_s poll_s : Q).
Context (time_of : S -> Q).

Lemma wait_loop_bounded :
  clock_advances env agent_id time_of -> (0 <= poll_s)%Q ->
  forall n fuel start (w : world S),
    n < fuel ->
    (timeout_s <= (time_of (remote w) - start) + slept n poll_s)%Q ->
    (wait_loop env fuel agent_id desired timeout_s poll_s start w).1 <> NoFuel
    /\ exists extra,
        calls (wait_loop env fuel agent_id desired timeout_s poll_s start w).2
        = calls w ++ extra
        /\ length (List.filter is_poll extra) <= n.
Proof.
  intros (Hread & Hget & Hsleep) Hpoll.
  induction n as [|n IH]; intros fuel start w Hfuel Hleft;
    (destruct fuel as [|fuel]; [lia|]);
    cbn [wait_loop]; unfold now; rewrite bind_run; unfold local_call;
    destruct (time_time env (remote w)) as [t s1] eqn:Ht;
    destruct (Hread _ _ _ Ht) as [Hlo Hhi];
    destruct (Qltb (t - start) timeout_s) eqn:Hlt;
    try (split; [done|]; exists [Call_time]; split; [done | simpl; lia]).
  - apply Qltb_true in Hlt. cbn [slept] in Hleft. lra.
  - rewrite bind_run. unfold remote_call. cbn [remote calls].
    destruct (api_get_agent env agent_id s1) as [[e|resp] s2] eqn:Hg.
    { split; [done|]. exists [Call_time; Call_get_agent agent_id].
      rewrite <- app_assoc. split; [done | simpl; lia]. }
    assert (Hstop : forall (r : res pystr),
               r <> NoFuel ->
               (r, World s2 ((calls w ++ [Call_time])
                               ++ [Call_get_agent agent_id])).1 <> NoFuel
               /\ exists extra,
                   calls (r, World s2 ((calls w ++ [Call_time])
                                         ++ [Call_get_agent agent_id])).2
                   = calls w ++ extra
                   /\ length (List.filter is_poll extra) <= Datatypes.S n).
    { intros r Hr. split; [done|].
      exists [Call_time; Call_get_agent agent_id].
      rewrite <- app_assoc. split; [done | simpl; lia]. }
    assert (Hagain :
              let w2 := World s2 ((calls w ++ [Call_time])
                                    ++ [Call_get_agent agent_id]) in
              ((_ ← sleep env poll_s;
                wait_loop env fuel agent_id desired timeout_s poll_s start)
                 w2).1 <> NoFuel
              /\ exists extra,
                  calls ((_ ← sleep env poll_s;
                          wait_loop env fuel agent_id desired timeout_s poll_s
                            start) w2).2
                  = calls w ++ extra
                  /\ length (List.filter is_poll extra) <= Datatypes.S n).
    { cbv zeta. rewrite (bind_ok _ _ _ _ _ (sleep_run _ _ _ Hpoll)).
      cbn [remote calls].
      destruct (IH fuel start
                  (World (time_sleep env poll_s s2)
                     (((calls w ++ [Call_time]) ++ [Call_get_agent agent_id])
                        ++ [Call_sleep poll_s])))
        as [Hr (extra & Hcalls & Hlen)]; [lia| |].
      { cbn [remote]. specialize (Hget _ _ _ Hg).
        specialize (Hsleep s2 poll_s). cbn [slept] in Hleft. lra. }
      split; [done|].
      exists ([Call_time; Call_get_agent agent_id; Call_sleep poll_s] ++ extra).
      rewrite Hcalls. cbn [calls]. rewrite <- !app_assoc.
      split; [done|]. cbn. lia. }
    rewrite bind_run. unfold get_item_agent.
    destruct (agent_field resp) as [a|]; cbn [mret M_ret ret raise];
      [|by apply Hstop].
    cbv zeta.
    destruct (bool_decide (a !! u "agentStatus" = Some desired));
      [by apply Hstop|].
    destruct (a !! u "agentStatus") as [st|]; [|exact Hagain].
    destruct (bool_decide (st ∈ terminal_statuses));
      [by apply Hstop | exact Hagain].
Qed.

End WaitBound.

(** With a clock that advances by the sleeps, a call against a service
    that answers ends, in one of the three ways and after [n] polls at
    most, when [n] sleeps cover the timeout. *)
Lemma prepareAndWait_ends {S : Type} (env : Env S) (agent_id desired : pystr)
    (timeout_s poll_s : Q) (time_of : S -> Q) (fuel n : nat) (w : world S)
    (d : dict) (s1 : S) :
  always_answers env agent_id ->
  clock_advances env agent_id time_of ->
  (0 <= poll_s)%Q -> (timeout_s <= slept n poll_s)%Q -> n < fuel ->
  api_prepare_agent env agent_id (remote w) = (inr d, s1) ->
  wait_exit agent_id desired
    (prepareAndWait env fuel agent_id desired timeout_s poll_s w).1
  /\ exists extra,
      calls (prepareAndWait env fuel agent_id desired timeout_s poll_s w).2
      = calls w ++ Call_prepare_agent agent_id :: extra
      /\ Forall (is_wait_call agent_id poll_s) extra
      /\ length (List.filter is_poll extra) <= n.
Proof.
  intros Hans Hclock Hpoll Hn Hfuel Hp.
  destruct (prepareAndWait env fuel agent_id desired timeout_s poll_s w)
    as [r w'] eqn:Hrun.
  destruct (prepareAndWait_exits env agent_id desired timeout_s poll_s fuel w
              d s1 r w' Hans Hpoll Hp Hrun)
    as [Hexit (extra & Hcalls & Hextra)].
  rewrite (prepareAndWait_prepared env agent_id desired timeout_s poll_s
             fuel w d s1 Hp) in Hrun.
  unfold wait_for_status, now in Hrun. rewrite bind_run in Hrun.
  unfold local_call in Hrun. cbn [remote calls] in Hrun.
  destruct (time_time env s1) as [t0 s0] eqn:Ht0.
  destruct (wait_loop_bounded env agent_id desired timeout_s poll_s time_of
              Hclock Hpoll n fuel t0
              (World s0 ((calls w ++ [Call_prepare_agent agent_id])
                           ++ [Call_time])))
    as [Hr (extra' & Hcalls' & Hlen)]; [done| |].
  { destruct Hclock as (Hread & _). destruct (Hread _ _ _ Ht0) as [_ Hhi].
    cbn [remote]. lra. }
  rewrite Hrun in Hr, Hcalls'. cbn [fst snd calls] in *.
  split; [by destruct Hexit|].
  exists extra. split; [done|]. split; [done|].
  assert (Hsame : extra = Call_time :: extra').
  { rewrite Hcalls, <- !app_assoc in Hcalls'.
    apply app_inv_head in Hcalls'. by injection Hcalls'. }
  rewrite Hsame. cbn. lia.
Qed.

(** The scripted world keeps time when a reading of its clock costs
    nothing or more. *)
Lemma sim_clock_advances (sc : Sim.script) (agent_id : pystr) :
  (0 <= Sim.tick sc)%Q ->
  clock_advances (Sim.env sc) agent_id Sim.clock.
Proof.
  intros Htick. split; [|split].
  - intros s t s' [= <- <-]. cbn [Sim.clock]. split; [apply Qle_refl|].
    rewrite Qred_correct. lra.
  - intros s ans s' [= _ <-]. cbn [Sim.clock]. apply Qle_refl.
  - intros s d. cbn [time_sleep Sim.env Sim.clock]. rewrite Qred_correct.
    apply Qle_refl.
Qed.

Lemma sim_always_reports (status : pystr) (tick : Q) (agent_id : pystr) :
  always_reports (Sim.env (Fixtures.reporting status tick)) agent_id status.
Proof.
  intros s. eexists. eexists. split; [reflexivity|].
  unfold Fixtures.summary.
  rewrite lookup_insert_ne by (by vm_compute).
  rewrite lookup_insert_ne by (by vm_compute).
  apply lookup_insert_eq.
Qed.

(** C2. [prepareAndWait] issues [prepare_agent] once and then runs
    [wait_for_status]; an error of [prepare_agent], or of [get_agent] at
    a poll, is raised as it is.  With a service that answers every poll
    with an agent record and a poll interval that is not negative, a call
    that ends does so in one of three ways: it returns the awaited status;
    it raises the terminal-state error for a status ["FAILED"] or
    ["DELETING"] other than the awaited one; or it raises the timeout that
    names the agent and the awaited status; and besides the one
    [prepare_agent] it only reads the clock, polls and sleeps.  Each exit
    is taken at the poll that meets it: the timeout at the first loop test
    with [timeout_s <= elapsed], before any further poll; the return at the
    first poll that observes the awaited status; the terminal error at the
    first poll that observes another, terminal status.  Against a service
    that always reports a status that is neither awaited nor terminal
    (["PREPARING"]), with a clock that advances by the sleeps and [n]
    sleeps that cover the timeout, the call ends with the timeout.  With
    such a clock and such sleeps the call does end, against every service
    that answers, in one of the three ways and after [n] polls at most.
    The exits beside the three, and beside the errors of the remote, are
    two: an answer without the ["agent"] key raises [KeyError], and a
    negative poll interval raises [ValueError] at the first sleep. *)
Theorem prepareAndWait_exits_three_ways :
  (forall S (env : Env S) agent_id desired timeout_s poll_s fuel
          (w : world S) d s1,
      api_prepare_agent env agent_id (remote w) = (inr d, s1) ->
      prepareAndWait env fuel agent_id desired timeout_s poll_s w
      = wait_for_status env fuel agent_id desired timeout_s poll_s
          (World s1 (calls w ++ [Call_prepare_agent agent_id])))
  /\ (forall S (env : Env S) agent_id desired timeout_s poll_s fuel
             (w : world S) e s1,
         api_prepare_agent env agent_id (remote w) = (inl e, s1) ->
         prepareAndWait env fuel agent_id desired timeout_s poll_s w
         = (Raise e, World s1 (calls w ++ [Call_prepare_agent agent_id])))
  /\ (forall S (env : Env S) agent_id desired timeout_s poll_s fuel
             (w : world S) d s1 r w',
         always_answers env agent_id -> (0 <= poll_s)%Q ->
         api_prepare_agent env agent_id (remote w) = (inr d, s1) ->
         prepareAndWait env fuel agent_id desired timeout_s poll_s w = (r, w') ->
         (r = NoFuel \/ wait_exit agent_id desired r)
         /\ exists extra,
             calls w' = calls w ++ Call_prepare_agent agent_id :: extra
             /\ Forall (is_wait_call agent_id poll_s) extra)
  /\ (forall S (env : Env S) agent_id desired timeout_s poll_s fuel n
             (w wk : world S) t0 s0 t s1,
         time_time env (remote w) = (t0, s0) ->
         polls_before env agent_id desired timeout_s poll_s t0 n
           (World s0 (calls w ++ [Call_time])) wk ->
         time_time env (remote wk) = (t, s1) ->
         n < fuel ->
         ((timeout_s <= t - t0)%Q ->
          wait_for_status env fuel agent_id desired timeout_s poll_s w
          = (Raise (TimeoutError (timeout_message agent_id desired)),
             World s1 (calls wk ++ [Call_time])))
         /\ (forall e s2,
                (t - t0 < timeout_s)%Q ->
                api_get_agent env agent_id s1 = (inl e, s2) ->
                wait_for_status env fuel agent_id desired timeout_s poll_s w
                = (Raise e,
                   World s2 (calls wk ++ [Call_time;
                                          Call_get_agent agent_id])))
         /\ (forall resp s2 a,
                (t - t0 < timeout_s)%Q ->
                api_get_agent env agent_id s1 = (inr resp, s2) ->
                agent_field resp = Some a ->
                let w2 :=
                  World s2 (calls wk ++ [Call_time; Call_get_agent agent_id]) in
                (a !! u "agentStatus" = Some desired ->
                 wait_for_status env fuel agent_id desired timeout_s poll_s w
                 = (Ok desired, w2))
                /\ (forall st,
                       a !! u "agentStatus" = Some st -> st <> desired ->
                       st ∈ terminal_statuses ->
                       wait_for_status env fuel agent_id desired timeout_s
                         poll_s w
                       = (Raise (RuntimeError (terminal_message st) None), w2))))
  /\ (forall S (env : Env S) agent_id desired timeout_s poll_s time_of status
             fuel n (w : world S) d s1,
         clock_advances env agent_id time_of ->
         always_reports env agent_id status ->
         status <> desired -> status ∉ terminal_statuses -> (0 <= poll_s)%Q ->
         (timeout_s <= slept n poll_s)%Q -> n < fuel ->
         api_prepare_agent env agent_id (remote w) = (inr d, s1) ->
         exists w',
           prepareAndWait env fuel agent_id desired timeout_s poll_s w
           = (Raise (TimeoutError (timeout_message agent_id desired)), w'))
  /\ (forall S (env : Env S) agent_id desired timeout_s poll_s
             (time_of : S -> Q) fuel n (w : world S) d s1,
         always_answers env agent_id ->
         clock_advances env agent_id time_of ->
         (0 <= poll_s)%Q -> (timeout_s <= slept n poll_s)%Q -> n < fuel ->
         api_prepare_agent env agent_id (remote w) = (inr d, s1) ->
         wait_exit agent_id desired
           (prepareAndWait env fuel agent_id desired timeout_s poll_s w).1
         /\ exists extra,
             calls (prepareAndWait env fuel agent_id desired timeout_s
                      poll_s w).2
             = calls w ++ Call_prepare_agent agent_id :: extra
             /\ Forall (is_wait_call agent_id poll_s) extra
             /\ length (List.filter is_poll extra) <= n)
  /\ (forall S (env : Env S) agent_id desired timeout_s poll_s fuel n
             (w wk : world S) t0 s0 t s1 resp s2,
         time_time env (remote w) = (t0, s0) ->
         polls_before env agent_id desired timeout_s poll_s t0 n
           (World s0 (calls w ++ [Call_time])) wk ->
         time_time env (remote wk) = (t, s1) ->
         n < fuel ->
         (t - t0 < timeout_s)%Q ->
         api_get_agent env agent_id s1 = (inr resp, s2) ->
         let w2 :=
           World s2 (calls wk ++ [Call_time; Call_get_agent agent_id]) in
         (agent_field resp = None ->
          wait_for_status env fuel agent_id desired timeout_s poll_s w
          = (Raise (KeyError (u "agent")), w2))
         /\ (forall a,
                agent_field resp = Some a ->
                a !! u "agentStatus" <> Some desired ->
                (forall st, a !! u "agentStatus" = Some st ->
                            st ∉ terminal_statuses) ->
                (poll_s < 0)%Q ->
                wait_for_status env fuel agent_id desired timeout_s poll_s w
                = (Raise (ValueError (u "sleep length must be non-negative")),
                   w2))).
Proof.
  split; [|split; [|split; [|split; [|split; [|split]]]]].
  - intros S env agent_id desired timeout_s poll_s.
    apply prepareAndWait_prepared.
  - intros S env agent_id desired timeout_s poll_s.
    apply prepareAndWait_refused.
  - intros S env agent_id desired timeout_s poll_s.
    apply prepareAndWait_exits.
  - intros S env agent_id desired timeout_s poll_s.
    apply wait_for_status_exit_at_poll.
  - intros S env agent_id desired timeout_s poll_s.
    apply prepareAndWait_times_out.
  - intros S env agent_id desired timeout_s poll_s time_of fuel n w d s1.
    apply prepareAndWait_ends.
  - intros S env agent_id desired timeout_s poll_s.
    apply wait_for_status_other_exits.
Qed.

Lemma prepareAndWait_exits_three_ways_witness :
  (prepareAndWait (Sim.env (Fixtures.reporting (u "PREPARING") 0)) 61
     (u "A1") (u "PREPARED") 600 10 Sim.world0).1
  = Raise (TimeoutError
             (u "Timed out waiting for agent A1 to reach PREPARED"))
  /\ (wait_for_status (Sim.env (Fixtures.reporting (u "FAILED") 0)) 1
        (u "A1") (u "PREPARED") 600 10 Sim.world0).1
     = Raise (RuntimeError (u "Agent moved to terminal state: FAILED") None)
  /\ (wait_for_status (Sim.env (Fixtures.reporting (u "PREPARING") 0)) 1
        (u "A1") (u "PREPARED") 600 (-1) Sim.world0).1
     = Raise (ValueError (u "sleep length must be non-negative")).
Proof.
  destruct prepareAndWait_exits_three_ways
    as (_ & _ & _ & Hat & Hout & _ & Hother).
  split; [|split].
  - destruct (Hout _ (Sim.env (Fixtures.reporting (u "PREPARING") 0))
                (u "A1") (u "PREPARED") 600%Q 10%Q Sim.clock (u "PREPARING")
                61 60 Sim.world0 ∅ (Sim.answer Sim.PrepareAgent (fun _ => tt)
                                      Sim.start).2) as [w' ->].
    + apply sim_clock_advances. apply Qle_refl.
    + apply sim_always_reports.
    + by vm_compute.
    + apply (bool_decide_unpack _). by vm_compute.
    + by vm_compute.
    + by vm_compute.
    + lia.
    + reflexivity.
    + reflexivity.
  - destruct (Hat _ (Sim.env (Fixtures.reporting (u "FAILED") 0))
                (u "A1") (u "PREPARED") 600%Q 10%Q 1 0 Sim.world0 _ _ _ _ _
                eq_refl (polls_none _ _ _ _ _ _ _) eq_refl ltac:(lia))
      as (_ & _ & Hpoll).
    destruct (Hpoll _ _ _ eq_refl eq_refl eq_refl) as [_ Hterm].
    rewrite (Hterm (u "FAILED")); [reflexivity | reflexivity | by vm_compute|].
    apply (bool_decide_unpack _). by vm_compute.
  - destruct (Hother _ (Sim.env (Fixtures.reporting (u "PREPARING") 0))
                (u "A1") (u "PREPARED") 600%Q (-1)%Q 1 0 Sim.world0 _ _ _ _ _
                _ _
                eq_refl (polls_none _ _ _ _ _ _ _) eq_refl ltac:(lia)
                eq_refl eq_refl) as [_ Hneg].
    rewrite (Hneg _ eq_refl); [reflexivity | by vm_compute | | by vm_compute].
    intros st [= <-]. apply (bool_decide_unpack _). by vm_compute.
Defined.

(** A poll that observes ["FAILED"] does not always make the call fail,
    and the three exits are not the only ones: when ["FAILED"] is the
    awaited status the call returns it, and an error of [get_agent] ends
    the call in a fourth way. *)
Lemma prepareAndWait_awaited_failed_returns :
  Sim.on_get_agent (Fixtures.reporting (u "FAILED") 0) 0
  = inr {| agent_field :=
             Some (Fixtures.summary (u "A1") (agent_name Fixtures.cfg0)
                     (u "FAILED")) |}
  /\ (prepareAndWait (Sim.env (Fixtures.reporting (u "FAILED") 0)) 1
        (u "A1") (u "FAILED") 600 10 Sim.world0).1
     = Ok (u "FAILED")
  /\ (prepareAndWait (Sim.env Fixtures.poll_fails) 1
        (u "A1") (u "PREPARED") 600 10 Sim.world0).1
     = Raise (ClientError (Some (u "ServiceUnavailableException"))
                (u "unavailable")).
Proof. repeat split. Qed.

(** * [invoke] *)

Section Invoke.

Context {S : Type} (env : Env S).
Context (agent_id alias_id text : pystr) (session_id : option pystr)
  (enable_trace : bool).

Implicit Types (w : world S) (e : exn).

Lemma invoke_handler_run e w :
  (if isinstance_ClientError env e then
     if bool_decide (default [] (error_code e) ∈ access_denied_codes)
     then raise (RuntimeError invoke_denied_message (Some e))
     else raise e
   else if isinstance_EventStreamError e then
     let msg := str_exn e in
     if contains (u "accessDeniedException") msg
        || contains (u "Access denied") msg
     then raise (RuntimeError stream_denied_message (Some e))
     else raise e
   else raise e) w
  = (Raise (invoke_handler env e) : res pystr, w).
Proof.
  unfold invoke_handler.
  destruct (isinstance_ClientError env e).
  - by destruct (bool_decide _).
  - destruct (isinstance_EventStreamError e); [|done].
    cbv zeta. by destruct (_ || _).
Qed.

(** The stream is read to its end. *)
Lemma invoke_answered w sid w1 resp s2 events :
  resolve_session env session_id w = (Ok sid, w1) ->
  api_invoke_agent env
    (invoke_request agent_id alias_id text sid enable_trace) (remote w1)
  = (inr resp, s2) ->
  completion resp
  = Some {| stream_events := events; stream_failure := None |} ->
  invoke env agent_id alias_id text session_id enable_trace w
  = (Ok (strip (join (omap event_text events))), after_invoke agent_id alias_id text enable_trace w1 sid s2).
Proof.
  intros Hsid Hcall Hstream. unfold invoke.
  rewrite (bind_ok _ _ _ _ _ Hsid). unfold try_except. cbv zeta.
  rewrite (bind_ok _ _ _ _ _ (remote_call_answer _ _ _ _ _ Hcall)).
  rewrite Hstream. done.
Qed.

(** The request is refused. *)
Lemma invoke_refused w sid w1 e s2 :
  resolve_session env session_id w = (Ok sid, w1) ->
  api_invoke_agent env
    (invoke_request agent_id alias_id text sid enable_trace) (remote w1)
  = (inl e, s2) ->
  invoke env agent_id alias_id text session_id enable_trace w
  = (Raise (invoke_handler env e), after_invoke agent_id alias_id text enable_trace w1 sid s2).
Proof.
  intros Hsid Hcall. unfold invoke.
  rewrite (bind_ok _ _ _ _ _ Hsid). unfold try_except. cbv zeta.
  rewrite (bind_raise _ _ _ _ _ (remote_call_fault _ _ _ _ _ Hcall)).
  apply invoke_handler_run.
Qed.

(** The stream fails while it is read. *)
Lemma invoke_stream_failed w sid w1 resp s2 events e :
  resolve_session env session_id w = (Ok sid, w1) ->
  api_invoke_agent env
    (invoke_request agent_id alias_id text sid enable_trace) (remote w1)
  = (inr resp, s2) ->
  completion resp
  = Some {| stream_events := events; stream_failure := Some e |} ->
  invoke env agent_id alias_id text session_id enable_trace w
  = (Raise (invoke_handler env e), after_invoke agent_id alias_id text enable_trace w1 sid s2).
Proof.
  intros Hsid Hcall Hstream. unfold invoke.
  rewrite (bind_ok _ _ _ _ _ Hsid). unfold try_except. cbv zeta.
  rewrite (bind_ok _ _ _ _ _ (remote_call_answer _ _ _ _ _ Hcall)).
  rewrite Hstream. cbn [read_stream stream_failure].
  rewrite bind_run. apply invoke_handler_run.
Qed.

End Invoke.

(** C3. With botocore's class relation ([EventStreamError] is a
    [ClientError]), an access-denied error raised by the call and one
    raised by the stream while it is read are both taken by the first
    [except] clause and surface as the same [RuntimeError] message, which
    names [bedrock:InvokeAgent] and
    [bedrock:InvokeModelWithResponseStream]. *)
Theorem invoke_access_denied_same_message {S : Type} (env : Env S)
    (agent_id alias_id text : pystr) (session_id : option pystr)
    (enable_trace : bool) (w w1 : world S) (sid : pystr) :
  EventStreamError_isa_ClientError env = true ->
  resolve_session env session_id w = (Ok sid, w1) ->
  (forall e s2,
      api_invoke_agent env
        (invoke_request agent_id alias_id text sid enable_trace) (remote w1)
      = (inl e, s2) ->
      isinstance_ClientError env e = true ->
      default [] (error_code e) ∈ access_denied_codes ->
      invoke env agent_id alias_id text session_id enable_trace w
      = (Raise (RuntimeError invoke_denied_message (Some e)),
         after_invoke agent_id alias_id text enable_trace w1 sid s2))
  /\ (forall resp s2 events code txt,
         api_invoke_agent env
           (invoke_request agent_id alias_id text sid enable_trace) (remote w1)
         = (inr resp, s2) ->
         completion resp
         = Some {| stream_events := events;
                   stream_failure := Some (EventStreamError (Some code) txt) |} ->
         code ∈ access_denied_codes ->
         invoke env agent_id alias_id text session_id enable_trace w
         = (Raise (RuntimeError invoke_denied_message
                     (Some (EventStreamError (Some code) txt))),
            after_invoke agent_id alias_id text enable_trace w1 sid s2))
  /\ contains (u "bedrock:InvokeAgent") invoke_denied_message = true
  /\ contains (u "bedrock:InvokeModelWithResponseStream") invoke_denied_message
     = true.
Proof.
  intros Hisa Hsid. split; [|split; [|split]].
  - intros e s2 Hcall Hcls Hcode.
    rewrite (invoke_refused env _ _ _ _ _ w sid w1 e s2 Hsid Hcall).
    unfold invoke_handler. by rewrite Hcls, bool_decide_eq_true_2.
  - intros resp s2 events code txt Hcall Hstream Hcode.
    rewrite (invoke_stream_failed env _ _ _ _ _ w sid w1 resp s2 events _
               Hsid Hcall Hstream).
    unfold invoke_handler. cbn [isinstance_ClientError error_code default].
    by rewrite Hisa, bool_decide_eq_true_2.
  - by vm_compute.
  - by vm_compute.
Qed.

Lemma invoke_access_denied_same_message_witness :
  (invoke (Sim.env (Fixtures.invoking (inl Fixtures.denied_before) true))
     (u "A1") (u "B2") (u "Say hello") None false Sim.world0).1
  = Raise (RuntimeError invoke_denied_message (Some Fixtures.denied_before))
  /\ (invoke (Sim.env (Fixtures.invoking
                         (Fixtures.streaming [Fixtures.data "Hel"]
                            (Some Fixtures.denied_in_stream)) true))
        (u "A1") (u "B2") (u "Say hello") None false Sim.world0).1
     = Raise (RuntimeError invoke_denied_message
                (Some Fixtures.denied_in_stream)).
Proof.
  split.
  - edestruct (invoke_access_denied_same_message
                 (Sim.env (Fixtures.invoking (inl Fixtures.denied_before) true))
                 (u "A1") (u "B2") (u "Say hello") None false Sim.world0)
      as (Hbefore & _); [reflexivity | reflexivity |].
    erewrite Hbefore; [reflexivity | reflexivity | reflexivity |].
    apply (bool_decide_unpack _). by vm_compute.
  - edestruct (invoke_access_denied_same_message
                 (Sim.env (Fixtures.invoking
                             (Fixtures.streaming [Fixtures.data "Hel"]
                                (Some Fixtures.denied_in_stream)) true))
                 (u "A1") (u "B2") (u "Say hello") None false Sim.world0)
      as (_ & Hstream & _); [reflexivity | reflexivity |].
    erewrite Hstream; [reflexivity | reflexivity | reflexivity |].
    apply (bool_decide_unpack _). by vm_compute.
Defined.

(** Were [EventStreamError] not a [ClientError], the stream error would
    reach the second clause, whose message differs in wording but names the
    same two permissions. *)
Remark invoke_stream_denied_second_clause :
  (invoke (Sim.env (Fixtures.invoking
                      (Fixtures.streaming [Fixtures.data "Hel"]
                         (Some Fixtures.denied_in_stream)) false))
     (u "A1") (u "B2") (u "Say hello") None false Sim.world0).1
  = Raise (RuntimeError stream_denied_message (Some Fixtures.denied_in_stream))
  /\ stream_denied_message <> invoke_denied_message
  /\ contains (u "bedrock:InvokeAgent") stream_denied_message = true
  /\ contains (u "bedrock:InvokeModelWithResponseStream") stream_denied_message
     = true.
Proof.
  split; [by vm_compute|]. split; [by vm_compute|]. split; by vm_compute.
Qed.

(** * Pagination: failures, endless lists, lookups by name *)

Section PaginateMore.

Context {S R : Type}.
Context (fetch : option pystr -> S -> (exn + R) * S).
Context (items_of : R -> list dict) (token_of : R -> option pystr).
Context (call_of : option pystr -> call).

Lemma paginate_fault w token n e w' :
  page_fault fetch token_of call_of w token n e w' ->
  forall fuel acc, n < fuel ->
    paginate fetch items_of token_of call_of fuel acc token w = (Raise e, w').
Proof.
  induction 1 as [w token e s' Hf | w token resp s' n e w' Hf Ht Hrun IH];
    intros fuel acc Hfuel; (destruct fuel as [|fuel]; [lia|]);
    cbn [paginate].
  - by rewrite (bind_raise _ _ _ _ _ (remote_call_fault _ _ _ _ _ Hf)).
  - rewrite (bind_ok _ _ _ _ _ (remote_call_answer _ _ _ _ _ Hf)).
    cbv zeta. rewrite Ht. cbn [negb]. apply IH. lia.
Qed.

Lemma page_fault_calls w token n e w' :
  page_fault fetch token_of call_of w token n e w' ->
  exists tokens,
    calls w' = calls w ++ List.map call_of tokens
    /\ length tokens = Datatypes.S n.
Proof.
  induction 1 as [w token e s' Hf | w token resp s' n e w' Hf Ht Hrun IH].
  - by exists [kw_token token].
  - destruct IH as (tokens & -> & Hlen).
    exists (kw_token token :: tokens). cbn [calls].
    rewrite <- app_assoc. split; [done | simpl; lia].
Qed.

Lemma paginate_endless fuel acc token w :
  endless fetch token_of ->
  (paginate fetch items_of token_of call_of fuel acc token w).1 = NoFuel.
Proof.
  intros Hend. revert acc token w.
  induction fuel as [|fuel IH]; intros acc token w; [done|].
  cbn [paginate].
  destruct (Hend (kw_token token) (remote w)) as (resp & s' & Hf & Ht).
  rewrite (bind_ok _ _ _ _ _ (remote_call_answer _ _ _ _ _ Hf)).
  cbv zeta. rewrite Ht. cbn [negb]. apply IH.
Qed.

(** What the loop asks, whatever the outcome: requests of its own
    operation only. *)
Lemma paginate_calls fuel acc token w :
  exists tokens,
    calls (paginate fetch items_of token_of call_of fuel acc token w).2
    = calls w ++ List.map call_of tokens.
Proof.
  revert acc token w. induction fuel as [|fuel IH]; intros acc token w.
  - exists []. cbn. by rewrite app_nil_r.
  - cbn [paginate]. rewrite bind_run. unfold remote_call.
    destruct (fetch (kw_token token) (remote w)) as [[e|resp] s'].
    + exists [kw_token token]. done.
    + cbv zeta. destruct (negb (truthy_opt (token_of resp))).
      * exists [kw_token token]. done.
      * destruct (IH (acc ++ items_of resp) (token_of resp)
                    (World s' (calls w ++ [call_of (kw_token token)])))
          as (tokens & Htok).
        exists (kw_token token :: tokens). rewrite Htok. cbn [calls].
        by rewrite <- app_assoc.
Qed.

End PaginateMore.

(** [List.find] returns the first element that passes the test. *)
Lemma find_first_match {A} (f : A -> bool) (l : list A) :
  match List.find f l with
  | Some a =>
      exists l1 l2, l = l1 ++ a :: l2 /\ f a = true
                    /\ Forall (fun b => f b = false) l1
  | None => Forall (fun b => f b = false) l
  end.
Proof.
  induction l as [|x l IH]; simpl; [constructor|].
  destruct (f x) eqn:Hx.
  - exists [], l. repeat split; [done | constructor].
  - destruct (List.find f l) as [a|].
    + destruct IH as (l1 & l2 & -> & Ha & Hl1).
      exists (x :: l1), l2. repeat split; [done | by constructor].
    + by constructor.
Qed.

(** X1. When a page request fails, [list_agents] and [list_aliases] raise
    that error: the items of the pages already read are not returned, and
    no further request is made. *)
Theorem list_methods_raise_page_error :
  (forall S (env : Env S) max_results (w w' : world S) n e fuel,
      page_fault (api_list_agents env max_results) la_nextToken
        (Call_list_agents max_results) w None n e w' ->
      n < fuel ->
      list_agents env fuel max_results w = (Raise e, w')
      /\ exists tokens,
          calls w' = calls w ++ List.map (Call_list_agents max_results) tokens
          /\ length tokens = Datatypes.S n)
  /\ (forall S (env : Env S) agent_id max_results (w w' : world S) n e fuel,
         page_fault (api_list_agent_aliases env agent_id max_results)
           laa_nextToken (Call_list_agent_aliases agent_id max_results)
           w None n e w' ->
         n < fuel ->
         list_aliases env fuel agent_id max_results w = (Raise e, w')
         /\ exists tokens,
             calls w' = calls w
                        ++ List.map
                             (Call_list_agent_aliases agent_id max_results)
                             tokens
             /\ length tokens = Datatypes.S n).
Proof.
  split.
  - intros S env max_results w w' n e fuel Hrun Hfuel. split.
    + unfold list_agents. rewrite list_agents_loop_paginate.
      by apply (paginate_fault _ _ _ _ _ _ _ _ _ Hrun).
    + apply (page_fault_calls _ _ _ _ _ _ _ _ Hrun).
  - intros S env agent_id max_results w w' n e fuel Hrun Hfuel. split.
    + unfold list_aliases. rewrite list_aliases_loop_paginate.
      by apply (paginate_fault _ _ _ _ _ _ _ _ _ Hrun).
    + apply (page_fault_calls _ _ _ _ _ _ _ _ Hrun).
Qed.

Lemma list_methods_raise_page_error_witness :
  (list_agents (Sim.env Samples.second_page_fails) 2 100 Sim.world0).1
  = Raise (ClientError (Some (u "ServiceUnavailableException"))
             (u "unavailable"))
  /\ (list_aliases (Sim.env Samples.second_page_fails) 2 (u "A1") 100
        Sim.world0).1
     = Raise (ClientError (Some (u "ServiceUnavailableException"))
                (u "unavailable")).
Proof.
  destruct list_methods_raise_page_error as (Hagents & Haliases).
  split.
  - assert (Hrun : exists w',
               page_fault
                 (api_list_agents (Sim.env Samples.second_page_fails) 100)
                 la_nextToken (Call_list_agents 100) Sim.world0 None 1
                 (ClientError (Some (u "ServiceUnavailableException"))
                    (u "unavailable")) w').
    { eexists. eapply fault_later; [reflexivity..|].
      eapply fault_here. reflexivity. }
    destruct Hrun as [w' Hrun].
    destruct (Hagents _ _ _ _ _ _ _ 2 Hrun) as [-> _]; [lia|reflexivity].
  - assert (Hrun : exists w',
               page_fault
                 (api_list_agent_aliases (Sim.env Samples.second_page_fails)
                    (u "A1") 100)
                 laa_nextToken (Call_list_agent_aliases (u "A1") 100)
                 Sim.world0 None 1
                 (ClientError (Some (u "ServiceUnavailableException"))
                    (u "unavailable")) w').
    { eexists. eapply fault_later; [reflexivity..|].
      eapply fault_here. reflexivity. }
    destruct Hrun as [w' Hrun].
    destruct (Haliases _ _ _ _ _ _ _ _ 2 Hrun) as [-> _]; [lia|reflexivity].
Defined.

(** X2. While the remote keeps answering with a continuation token,
    [list_agents] and [list_aliases] keep asking: the loop has no bound of
    its own, and returns nothing and raises nothing however many requests
    it is allowed. *)
Theorem list_methods_never_stop_on_tokens :
  (forall S (env : Env S) max_results (w : world S) fuel,
      endless (api_list_agents env max_results) la_nextToken ->
      (list_agents env fuel max_results w).1 = NoFuel)
  /\ (forall S (env : Env S) agent_id max_results (w : world S) fuel,
         endless (api_list_agent_aliases env agent_id max_results)
           laa_nextToken ->
         (list_aliases env fuel agent_id max_results w).1 = NoFuel).
Proof.
  split.
  - intros S env max_results w fuel Hend.
    unfold list_agents. rewrite list_agents_loop_paginate.
    by apply paginate_endless.
  - intros S env agent_id max_results w fuel Hend.
    unfold list_aliases. rewrite list_aliases_loop_paginate.
    by apply paginate_endless.
Qed.

Lemma list_methods_never_stop_on_tokens_witness :
  (list_agents (Sim.env Samples.always_more) 1000 100 Sim.world0).1 = NoFuel
  /\ (list_aliases (Sim.env Samples.always_more) 1000 (u "A1") 100
        Sim.world0).1 = NoFuel.
Proof.
  destruct list_methods_never_stop_on_tokens as (Hagents & Haliases).
  split.
  - apply Hagents. intros token s. eexists. eexists. split; reflexivity.
  - apply Haliases. intros token s. eexists. eexists. split; reflexivity.
Defined.

Lemma has_value_true (key v : pystr) (a : dict) :
  has_value key v a = true <-> a !! key = Some v.
Proof. unfold has_value. apply bool_decide_eq_true. Qed.

Lemma has_value_false (key v : pystr) (a : dict) :
  has_value key v a = false <-> a !! key <> Some v.
Proof. unfold has_value. apply bool_decide_eq_false. Qed.

Lemma find_first_with (key v : pystr) (l : list dict) :
  first_with key v l (List.find (has_value key v) l).
Proof.
  unfold first_with.
  pose proof (find_first_match (has_value key v) l) as H.
  destruct (List.find (has_value key v) l) as [a|].
  - destruct H as (l1 & l2 & -> & Ha & Hl1). exists l1, l2.
    split; [done|]. split; [by apply has_value_true|].
    eapply Forall_impl; [exact Hl1|]. intros b. apply has_value_false.
  - eapply Forall_impl; [exact H|]. intros b. apply has_value_false.
Qed.

(** X3. [find_agent_by_name] and [find_alias_by_name] read every page and
    return the first item, in page order, whose name equals the one asked
    for (so an agent on a later page is found, and of two agents of one
    name the earlier listed wins); they return [None] exactly when no item
    of any page has that name. *)
Theorem find_by_name_first_in_page_order :
  (forall S (env : Env S) name (w w' : world S) pages fuel,
      page_run (api_list_agents env 100) la_nextToken (Call_list_agents 100)
        w None pages w' ->
      length pages <= fuel ->
      exists found,
        find_agent_by_name env fuel name w = (Ok found, w')
        /\ first_with (u "agentName") name
             (concat (List.map agent_items pages)) found)
  /\ (forall S (env : Env S) agent_id name (w w' : world S) pages fuel,
         page_run (api_list_agent_aliases env agent_id 100) laa_nextToken
           (Call_list_agent_aliases agent_id 100) w None pages w' ->
         length pages <= fuel ->
         exists found,
           find_alias_by_name env fuel agent_id name w = (Ok found, w')
           /\ first_with (u "agentAliasName") name
                (concat (List.map alias_items pages)) found).
Proof.
  split.
  - intros S env name w w' pages fuel Hrun Hfuel. eexists. split.
    + unfold find_agent_by_name, list_agents.
      rewrite bind_run, list_agents_loop_paginate.
      rewrite (paginate_run _ _ _ _ _ _ _ _ Hrun) by done. reflexivity.
    + apply find_first_with.
  - intros S env agent_id name w w' pages fuel Hrun Hfuel. eexists. split.
    + unfold find_alias_by_name, list_aliases.
      rewrite bind_run, list_aliases_loop_paginate.
      rewrite (paginate_run _ _ _ _ _ _ _ _ Hrun) by done. reflexivity.
    + apply find_first_with.
Qed.

Lemma find_by_name_first_in_page_order_witness :
  (exists found,
      (find_agent_by_name (Sim.env Fixtures.three_pages) 3 (u "agentIIII")
         Sim.world0).1 = Ok found
      /\ first_with (u "agentName") (u "agentIIII")
           (List.map Fixtures.item [0; 1; 2; 3; 4; 5]) found)
  /\ (exists found,
         (find_alias_by_name (Sim.env Fixtures.three_pages) 3 (u "A1")
            (u "no-such-alias") Sim.world0).1 = Ok found
         /\ first_with (u "agentAliasName") (u "no-such-alias")
              (List.map Fixtures.item [0; 1; 2; 3; 4; 5]) found).
Proof.
  destruct find_by_name_first_in_page_order as (Hagent & Halias).
  split.
  - assert (Hrun : exists w',
               page_run (api_list_agents (Sim.env Fixtures.three_pages) 100)
                 la_nextToken (Call_list_agents 100) Sim.world0 None
                 (List.map Fixtures.agents_page [0; 1; 2]) w').
    { eexists.
      eapply page_more; [reflexivity..|].
      eapply page_more; [reflexivity..|].
      eapply page_last; reflexivity. }
    destruct Hrun as [w' Hrun].
    destruct (Hagent _ _ (u "agentIIII") _ _ _ 3 Hrun) as (found & Hf & Hw);
      [simpl; lia|].
    exists found. rewrite Hf. split; [reflexivity | exact Hw].
  - assert (Hrun : exists w',
               page_run
                 (api_list_agent_aliases (Sim.env Fixtures.three_pages)
                    (u "A1") 100)
                 laa_nextToken (Call_list_agent_aliases (u "A1") 100)
                 Sim.world0 None
                 (List.map Fixtures.aliases_page [0; 1; 2]) w').
    { eexists.
      eapply page_more; [reflexivity..|].
      eapply page_more; [reflexivity..|].
      eapply page_last; reflexivity. }
    destruct Hrun as [w' Hrun].
    destruct (Halias _ _ _ (u "no-such-alias") _ _ _ 3 Hrun)
      as (found & Hf & Hw); [simpl; lia|].
    exists found. rewrite Hf. split; [reflexivity | exact Hw].
Defined.

(** * [create_agent]: what it asks of the remote *)

Section CreateAgentMore.

Context {S : Type} (env : Env S).

Implicit Types (w : world S) (cfg : AgentConfig).

Lemma list_agents_calls fuel max_results w :
  exists tokens,
    calls (list_agents env fuel max_results w).2
    = calls w ++ List.map (Call_list_agents max_results) tokens.
Proof.
  unfold list_agents. rewrite list_agents_loop_paginate.
  apply paginate_calls.
Qed.

Lemma Forall_not_creation_list max_results tokens :
  Forall (fun c => is_creation c = false)
    (List.map (Call_list_agents max_results) tokens).
Proof. induction tokens; by constructor. Qed.

Lemma get_agent_calls agent_id w :
  calls (get_agent env agent_id w).2 = calls w ++ [Call_get_agent agent_id].
Proof.
  unfold get_agent. rewrite bind_run. unfold remote_call.
  destruct (api_get_agent env agent_id (remote w)) as [[e|resp] s']; [done|].
  unfold get_item_agent. by destruct (agent_field resp).
Qed.

(** The recovery of [create_agent] asks for pages of agents and then, at
    most, for one agent. *)
Lemma create_agent_recovery_calls fuel cfg e w :
  exists extra,
    calls ((existing ← find_agent_by_name env fuel (agent_name cfg);
            match existing with
            | Some a =>
                if truthy_dict existing && truthy_opt (a !! u "agentId")
                then get_agent env (default [] (a !! u "agentId"))
                else raise e
            | None => raise e
            end) w).2
    = calls w ++ extra
    /\ Forall (fun c => is_creation c = false) extra.
Proof.
  destruct (list_agents_calls fuel 100 w) as (tokens & Hl).
  unfold find_agent_by_name. rewrite !bind_run.
  destruct (list_agents env fuel 100 w) as [[l| |] w1] eqn:Hrun;
    cbn [snd] in Hl; cbn [mret M_ret ret].
  - destruct (List.find _ l) as [a|].
    + destruct (truthy_dict (Some a) && truthy_opt (a !! u "agentId")).
      * exists (List.map (Call_list_agents 100) tokens
                  ++ [Call_get_agent (default [] (a !! u "agentId"))]).
        rewrite get_agent_calls, Hl, <- app_assoc. split; [done|].
        apply Forall_app. split; [apply Forall_not_creation_list|].
        by constructor.
      * exists (List.map (Call_list_agents 100) tokens).
        split; [done | apply Forall_not_creation_list].
    + exists (List.map (Call_list_agents 100) tokens).
      split; [done | apply Forall_not_creation_list].
  - exists (List.map (Call_list_agents 100) tokens).
    split; [done | apply Forall_not_creation_list].
  - exists (List.map (Call_list_agents 100) tokens).
    split; [done | apply Forall_not_creation_list].
Qed.

End CreateAgentMore.

(** X4. Whatever the outcome, a call of [create_agent] asks for one fresh
    token and sends one creation request, which carries the fields of the
    configuration and that token; nothing it asks afterwards (pages of
    agents, one agent) is a creation: the creation is never retried. *)
Theorem create_agent_sends_one_creation {S : Type} (env : Env S)
    (fuel : nat) (cfg : AgentConfig) (w : world S) :
  exists extra,
    calls (create_agent env fuel cfg w).2
    = calls w
      ++ Call_uuid4
         :: Call_create_agent
              (create_request cfg (uuid4 env (remote w)).1)
         :: extra
    /\ Forall (fun c => is_creation c = false) extra.
Proof.
  destruct (uuid4 env (remote w)) as [tok s1] eqn:Hu. cbn [fst].
  destruct (api_create_agent env (create_request cfg tok) s1)
    as [[e|resp] s2] eqn:Hc.
  - rewrite (create_agent_refused env fuel cfg w tok s1 e s2 Hu Hc).
    cbv zeta.
    set (w2 := World s2 (calls w ++ [Call_uuid4;
                                      Call_create_agent (create_request cfg tok)])).
    assert (Hplain : exists extra,
               calls w2
               = calls w ++ Call_uuid4
                   :: Call_create_agent (create_request cfg tok) :: extra
               /\ Forall (fun c => is_creation c = false) extra).
    { exists []. split; [done | constructor]. }
    destruct (isinstance_ClientError env e); [|exact Hplain].
    destruct (bool_decide (error_code e = Some (u "ConflictException")));
      [|exact Hplain].
    destruct (create_agent_recovery_calls env fuel cfg e w2)
      as (extra & Hcalls & Hextra).
    exists extra. rewrite Hcalls. unfold w2. cbn [calls].
    by rewrite <- app_assoc.
  - exists []. split; [|constructor].
    unfold create_agent, try_except, new_uuid.
    rewrite (bind_ok _ _ _ _ _ (local_call_run _ _ _ _ _ Hu)). cbv zeta.
    rewrite (bind_ok _ _ _ _ _
               (remote_call_answer _ _ (World s1 (calls w ++ [Call_uuid4]))
                  _ _ Hc)).
    unfold get_item_agent. cbn [remote calls].
    destruct (agent_field resp); cbn; by rewrite <- app_assoc.
Qed.

(** * Answers without the ["agent"] key, and failures of the recovery *)

(** X5. An answer that lacks the ["agent"] key makes the method that reads
    it raise [KeyError("agent")]: [get_agent], [create_agent] (whose
    [except ClientError] clause does not take it, so no lookup follows) and
    the poll of [wait_for_status]. *)
Theorem missing_agent_key_raises_KeyError :
  (forall S (env : Env S) agent_id (w : world S) resp s',
      api_get_agent env agent_id (remote w) = (inr resp, s') ->
      agent_field resp = None ->
      get_agent env agent_id w
      = (Raise (KeyError (u "agent")),
         World s' (calls w ++ [Call_get_agent agent_id])))
  /\ (forall S (env : Env S) fuel cfg (w : world S) tok s1 resp s2,
         uuid4 env (remote w) = (tok, s1) ->
         api_create_agent env (create_request cfg tok) s1 = (inr resp, s2) ->
         agent_field resp = None ->
         create_agent env fuel cfg w
         = (Raise (KeyError (u "agent")), after_create w cfg tok s2))
  /\ (forall S (env : Env S) agent_id desired timeout_s poll_s fuel
             (w : world S) t0 s0 t s1 resp s2,
         time_time env (remote w) = (t0, s0) ->
         time_time env s0 = (t, s1) ->
         (t - t0 < timeout_s)%Q ->
         api_get_agent env agent_id s1 = (inr resp, s2) ->
         agent_field resp = None ->
         wait_for_status env (Datatypes.S fuel) agent_id desired timeout_s
           poll_s w
         = (Raise (KeyError (u "agent")),
            World s2 (calls w ++ [Call_time; Call_time;
                                  Call_get_agent agent_id]))).
Proof.
  split; [|split].
  - intros S env agent_id w resp s' Hg Ha. unfold get_agent.
    rewrite (bind_ok _ _ _ _ _ (remote_call_answer _ _ _ _ _ Hg)).
    unfold get_item_agent. by rewrite Ha.
  - intros S env fuel cfg w tok s1 resp s2 Hu Hc Ha.
    unfold create_agent, try_except, new_uuid.
    rewrite (bind_ok _ _ _ _ _ (local_call_run _ _ _ _ _ Hu)). cbv zeta.
    rewrite (bind_ok _ _ _ _ _
               (remote_call_answer _ _ (World s1 (calls w ++ [Call_uuid4]))
                  _ _ Hc)).
    unfold get_item_agent, after_create. rewrite Ha. cbn.
    by rewrite <- app_assoc.
  - intros S env agent_id desired timeout_s poll_s fuel w t0 s0 t s1 resp s2
      Ht0 Ht Hlt Hg Ha.
    unfold wait_for_status, now.
    rewrite (bind_ok _ _ _ _ _ (local_call_run _ _ _ _ _ Ht0)).
    cbn [wait_loop]. unfold now.
    rewrite (bind_ok _ _ _ _ _
               (local_call_run _ _ (World s0 (calls w ++ [Call_time])) _ _ Ht)).
    apply Qltb_true in Hlt. rewrite Hlt.
    rewrite (bind_ok _ _ _ _ _
               (remote_call_answer _ _
                  (World s1 ((calls w ++ [Call_time]) ++ [Call_time])) _ _ Hg)).
    unfold get_item_agent. rewrite Ha. cbn.
    by rewrite <- !app_assoc.
Qed.

Lemma missing_agent_key_raises_KeyError_witness :
  (get_agent (Sim.env Samples2.no_agent_key) (u "A1") Sim.world0).1
  = Raise (KeyError (u "agent"))
  /\ (create_agent (Sim.env Samples2.no_agent_key) 1 Fixtures.cfg0
        Sim.world0).1 = Raise (KeyError (u "agent"))
  /\ (wait_for_status (Sim.env Samples2.no_agent_key) 1 (u "A1")
        (u "PREPARED") 600 10 Sim.world0).1 = Raise (KeyError (u "agent")).
Proof.
  destruct missing_agent_key_raises_KeyError as (Hget & Hcreate & Hwait).
  split; [|split].
  - erewrite (Hget _ (Sim.env Samples2.no_agent_key));
      [reflexivity | reflexivity | reflexivity].
  - erewrite (Hcreate _ (Sim.env Samples2.no_agent_key));
      [reflexivity | reflexivity | reflexivity | reflexivity].
  - erewrite (Hwait _ (Sim.env Samples2.no_agent_key));
      [reflexivity | reflexivity | reflexivity | reflexivity | reflexivity
      | reflexivity].
Defined.

(** X6. When the creation is refused with a conflict and the listing that
    looks the agent up fails, [create_agent] raises the error of the
    listing: the conflict is lost, and with it the way to tell that the
    name is taken. *)
Theorem create_agent_lookup_error_replaces_conflict {S : Type} (env : Env S)
    (fuel n : nat) (cfg : AgentConfig) (w w3 : world S) (tok : pystr)
    (s1 s2 : S) (e e' : exn) :
  uuid4 env (remote w) = (tok, s1) ->
  api_create_agent env (create_request cfg tok) s1 = (inl e, s2) ->
  isinstance_ClientError env e = true ->
  error_code e = Some (u "ConflictException") ->
  page_fault (api_list_agents env 100) la_nextToken (Call_list_agents 100)
    (after_create w cfg tok s2) None n e' w3 ->
  n < fuel ->
  create_agent env fuel cfg w = (Raise e', w3).
Proof.
  intros Hu Hc Hcls Hcode Hfault Hfuel.
  rewrite (create_agent_refused env fuel cfg w tok s1 e s2 Hu Hc).
  cbv zeta. rewrite Hcls, Hcode, bool_decide_eq_true_2 by done.
  fold (after_create w cfg tok s2).
  unfold find_agent_by_name, list_agents.
  rewrite !bind_run, list_agents_loop_paginate.
  by rewrite (paginate_fault _ _ _ _ _ _ _ _ _ Hfault) by done.
Qed.

Lemma create_agent_lookup_error_replaces_conflict_witness :
  (create_agent (Sim.env Samples2.conflict_listing_fails) 1 Fixtures.cfg0
     Sim.world0).1 = Raise Fixtures.throttled.
Proof.
  erewrite (create_agent_lookup_error_replaces_conflict
              (Sim.env Samples2.conflict_listing_fails) 1 0 Fixtures.cfg0
              Sim.world0);
    [ reflexivity | reflexivity | reflexivity | reflexivity | reflexivity
    | apply fault_here; reflexivity | lia ].
Defined.

(** * [invoke]: errors, the session id, the text returned *)

Section InvokeMore.

Context {S : Type} (env : Env S).
Context (agent_id alias_id text : pystr) (session_id : option pystr)
  (enable_trace : bool).

(** With botocore's class relation the handler looks at the code only. *)
Lemma invoke_handler_by_code e :
  EventStreamError_isa_ClientError env = true ->
  invoke_handler env e
  = if bool_decide (default [] (error_code e) ∈ access_denied_codes)
    then RuntimeError invoke_denied_message (Some e)
    else e.
Proof.
  intros Hisa. unfold invoke_handler.
  destruct e; cbn [isinstance_ClientError isinstance_EventStreamError
                   error_code default]; rewrite ?Hisa; try done.
  all: rewrite bool_decide_eq_false_2; [done|].
  all: intros Hin; apply (bool_decide_pack _) in Hin; by vm_compute in Hin.
Qed.

Lemma resolve_session_run w :
  resolve_session env session_id w
  = (Ok (session_sent env session_id w),
     if truthy_opt session_id then w
     else World (uuid4 env (remote w)).2 (calls w ++ [Call_uuid4])).
Proof.
  unfold resolve_session, session_sent.
  destruct (truthy_opt session_id); [done|].
  unfold new_uuid, local_call. by destruct (uuid4 env (remote w)).
Qed.

(** X8. Whatever the outcome, [invoke] sends exactly one request; it
    carries the caller's session id when that is given and not empty, and
    otherwise a fresh uuid, which is asked for only then. *)
Theorem invoke_sends_one_request w :
  calls (invoke env agent_id alias_id text session_id enable_trace w).2
  = calls w
    ++ (if truthy_opt session_id then [] else [Call_uuid4])
    ++ [Call_invoke_agent
          (invoke_request agent_id alias_id text (session_sent env session_id w)
             enable_trace)].
Proof.
  unfold invoke. rewrite (bind_ok _ _ _ _ _ (resolve_session_run w)).
  unfold try_except. cbv zeta. rewrite bind_run. unfold remote_call.
  set (w1 := if truthy_opt session_id then w
             else World (uuid4 env (remote w)).2 (calls w ++ [Call_uuid4])).
  assert (Hw1 : calls w1
                = calls w ++ (if truthy_opt session_id then []
                              else [Call_uuid4])).
  { unfold w1. destruct (truthy_opt session_id); [by rewrite app_nil_r|done]. }
  destruct (api_invoke_agent env _ (remote w1)) as [[e|resp] s2].
  - rewrite invoke_handler_run. cbn [snd calls]. by rewrite Hw1, <- app_assoc.
  - rewrite bind_run. unfold read_stream.
    destruct (completion resp) as [es|];
      [destruct (stream_failure es) as [e|]|];
      cbn [mret M_ret ret raise]; rewrite ?invoke_handler_run;
      cbn [snd calls]; by rewrite Hw1, <- app_assoc.
Qed.

(** A value returned by [invoke] is a stripped text. *)
Lemma invoke_returns_stripped w out w' :
  invoke env agent_id alias_id text session_id enable_trace w = (Ok out, w') ->
  exists chunks, out = strip (join chunks).
Proof.
  unfold invoke. rewrite (bind_ok _ _ _ _ _ (resolve_session_run w)).
  unfold try_except. cbv zeta. rewrite bind_run. unfold remote_call.
  destruct (api_invoke_agent env _ _) as [[e|resp] s2].
  - by rewrite invoke_handler_run.
  - rewrite bind_run. unfold read_stream.
    destruct (completion resp) as [es|];
      [destruct (stream_failure es) as [e|]|];
      cbn [mret M_ret ret raise]; rewrite ?invoke_handler_run;
      intros [= <- _]; first [by eauto | by exists []].
Qed.

End InvokeMore.

(** ** [strip] *)

Lemma lstrip_head s c : head (lstrip s) = Some c -> isspace c = false.
Proof.
  induction s as [|x s IH]; [done|]. cbn [lstrip].
  destruct (isspace x) eqn:Hx; [done|]. by intros [= <-].
Qed.

(** [lstrip] removes a prefix of whitespace. *)
Lemma lstrip_suffix s :
  exists sp, s = sp ++ lstrip s /\ Forall (fun c => isspace c = true) sp.
Proof.
  induction s as [|x s IH]; [by exists []|]. cbn [lstrip].
  destruct (isspace x) eqn:Hx.
  - destruct IH as (sp & Hs & Hsp). exists (x :: sp).
    split; [simpl; congruence | by constructor].
  - by exists [].
Qed.

Lemma lstrip_clean s :
  (forall c, head s = Some c -> isspace c = false) -> lstrip s = s.
Proof.
  destruct s as [|x s]; [done|]. intros H. cbn [lstrip].
  by rewrite (H x eq_refl).
Qed.

Lemma last_rev {A} (l : list A) : last (rev l) = head l.
Proof.
  destruct l as [|x l]; [done|]. simpl. by rewrite last_snoc.
Qed.

Lemma head_rev {A} (l : list A) : head (rev l) = last l.
Proof. by rewrite <- (rev_involutive l) at 2; rewrite last_rev. Qed.

Lemma rstrip_last s c : last (rstrip s) = Some c -> isspace c = false.
Proof. unfold rstrip. rewrite last_rev. apply lstrip_head. Qed.

(** [rstrip] removes a suffix of whitespace. *)
Lemma rstrip_prefix s :
  exists sp, s = rstrip s ++ sp /\ Forall (fun c => isspace c = true) sp.
Proof.
  unfold rstrip. destruct (lstrip_suffix (rev s)) as (sp & Hs & Hsp).
  exists (rev sp). split.
  - rewrite <- rev_app_distr, <- Hs. by rewrite rev_involutive.
  - apply Forall_forall. intros c Hc.
    rewrite Forall_forall in Hsp. apply Hsp.
    by apply list_elem_of_In, in_rev, list_elem_of_In.
Qed.

Lemma rstrip_clean s :
  (forall c, last s = Some c -> isspace c = false) -> rstrip s = s.
Proof.
  intros H. unfold rstrip. rewrite lstrip_clean.
  - apply rev_involutive.
  - intros c. rewrite head_rev. apply H.
Qed.

Lemma strip_head s c : head (strip s) = Some c -> isspace c = false.
Proof.
  unfold strip. intros Hc.
  destruct (rstrip_prefix (lstrip s)) as (sp & Hs & _).
  apply (lstrip_head s c). rewrite Hs.
  destruct (rstrip (lstrip s)); [done|]. exact Hc.
Qed.

Lemma strip_last s c : last (strip s) = Some c -> isspace c = false.
Proof. unfold strip. apply rstrip_last. Qed.

Lemma strip_strip s : strip (strip s) = strip s.
Proof.
  unfold strip at 1. rewrite lstrip_clean by apply strip_head.
  apply rstrip_clean, strip_last.
Qed.

(** [strip] keeps a text that is the original without whitespace at both
    ends. *)
Lemma strip_middle s :
  exists sp1 sp2,
    s = sp1 ++ strip s ++ sp2
    /\ Forall (fun c => isspace c = true) sp1
    /\ Forall (fun c => isspace c = true) sp2.
Proof.
  destruct (lstrip_suffix s) as (sp1 & Hs1 & Hsp1).
  destruct (rstrip_prefix (lstrip s)) as (sp2 & Hs2 & Hsp2).
  exists sp1, sp2. unfold strip. by rewrite <- Hs2.
Qed.

(** * [invoke]: the text returned *)

Lemma isspace_whitespace (c : N) :
  isspace c = true <-> c ∈ Samples5.whitespace.
Proof.
  unfold isspace, Samples5.whitespace.
  rewrite !orb_true_iff, !andb_true_iff, !N.leb_le, !N.eqb_eq.
  rewrite !elem_of_cons, elem_of_nil. lia.
Qed.

(** C7. [invoke] joins the text of the text-bearing events of the stream in
    the order they arrive (the decoded bytes of a chunk, the text of a
    final answer; a trace event adds nothing) and returns it trimmed: the
    result is the joined text without its longest prefix and suffix of
    whitespace characters, so it neither starts nor ends with one.  The
    stream [data("Hel"), data("lo"), final(" world")] gives
    ["Hello world"]. *)
Theorem invoke_concatenates_in_order {S : Type} (env : Env S)
    (agent_id alias_id text : pystr) (session_id : option pystr)
    (enable_trace : bool) (w w1 : world S) (sid : pystr)
    (resp : invoke_agent_response) (s2 : S) (events : list event) :
  resolve_session env session_id w = (Ok sid, w1) ->
  api_invoke_agent env
    (invoke_request agent_id alias_id text sid enable_trace) (remote w1)
  = (inr resp, s2) ->
  completion resp
  = Some {| stream_events := events; stream_failure := None |} ->
  (exists out pre suf,
      invoke env agent_id alias_id text session_id enable_trace w
      = (Ok out, after_invoke agent_id alias_id text enable_trace w1 sid s2)
      /\ out = strip (join (omap event_text events))
      /\ join (omap event_text events) = pre ++ out ++ suf
      /\ Forall (fun c => c ∈ Samples5.whitespace) pre
      /\ Forall (fun c => c ∈ Samples5.whitespace) suf
      /\ (forall c, head out = Some c -> c ∉ Samples5.whitespace)
      /\ (forall c, last out = Some c -> c ∉ Samples5.whitespace))
  /\ (forall ev1 ev2,
         join (omap event_text (ev1 ++ ev2))
         = join (omap event_text ev1) ++ join (omap event_text ev2))
  /\ (forall bs,
         join (omap event_text [chunk_event bs]) = decode_utf8_ignore bs)
  /\ (forall txt,
         join (omap event_text
                 [{| chunk := None;
                     finalResponse := Some {| text := Some txt |} |}])
         = txt)
  /\ join (omap event_text [Fixtures.trace]) = []
  /\ omap event_text Fixtures.hello_stream = [u "Hel"; u "lo"; u " world"]
  /\ strip (join (omap event_text Fixtures.hello_stream)) = u "Hello world".
Proof.
  intros Hsid Hcall Hstream. split; [|repeat split].
  - destruct (strip_middle (join (omap event_text events)))
      as (pre & suf & Hmid & Hpre & Hsuf).
    exists (strip (join (omap event_text events))), pre, suf.
    split; [by apply invoke_answered with resp|].
    split; [done|]. split; [done|].
    split; [|split; [|split]].
    + eapply Forall_impl; [exact Hpre|]. intros c. apply isspace_whitespace.
    + eapply Forall_impl; [exact Hsuf|]. intros c. apply isspace_whitespace.
    + intros c Hc Hin. apply strip_head in Hc.
      apply isspace_whitespace in Hin. congruence.
    + intros c Hc Hin. apply strip_last in Hc.
      apply isspace_whitespace in Hin. congruence.
  - intros ev1 ev2. unfold join. by rewrite omap_app, concat_app.
  - intros bs. unfold join. cbn [omap list_omap].
    unfold event_text, chunk_event. cbn [chunk bytes concat].
    rewrite app_nil_r. by destruct bs.
  - intros txt. unfold join. cbn [omap list_omap].
    unfold event_text. cbn [chunk finalResponse].
    destruct txt as [|c txt]; cbn; [done | by rewrite app_nil_r].
Qed.

Lemma invoke_concatenates_in_order_witness :
  (invoke (Sim.env (Fixtures.invoking
                      (Fixtures.streaming Samples5.padded_stream None) true))
     (u "A1") (u "B2") (u "Say hello") None false Sim.world0).1
  = Ok (u "Hello world")
  /\ (invoke (Sim.env (Fixtures.invoking
                         (Fixtures.streaming Fixtures.hello_stream None) true))
        (u "A1") (u "B2") (u "Say hello") None false Sim.world0).1
     = Ok (u "Hello world").
Proof.
  split.
  - edestruct (invoke_concatenates_in_order
                 (Sim.env (Fixtures.invoking
                             (Fixtures.streaming Samples5.padded_stream None)
                             true))
                 (u "A1") (u "B2") (u "Say hello") None false Sim.world0)
      as [(out & pre & suf & -> & -> & _) _]; reflexivity.
  - edestruct (invoke_concatenates_in_order
                 (Sim.env (Fixtures.invoking
                             (Fixtures.streaming Fixtures.hello_stream None)
                             true))
                 (u "A1") (u "B2") (u "Say hello") None false Sim.world0)
      as [(out & pre & suf & -> & -> & _) _]; reflexivity.
Defined.

(** X7. With botocore's class relation the second [except] clause of
    [invoke] is never taken: an error of the call or of the stream is
    rewritten exactly when its code is one of the two access-denied codes,
    whatever its text says, and every other error is raised unchanged. *)
Theorem invoke_rewrites_by_code_only {S : Type} (env : Env S)
    (agent_id alias_id text : pystr) (session_id : option pystr)
    (enable_trace : bool) (w w1 : world S) (sid : pystr) :
  EventStreamError_isa_ClientError env = true ->
  resolve_session env session_id w = (Ok sid, w1) ->
  (forall e s2,
      api_invoke_agent env
        (invoke_request agent_id alias_id text sid enable_trace) (remote w1)
      = (inl e, s2) ->
      invoke env agent_id alias_id text session_id enable_trace w
      = (Raise (if bool_decide (default [] (error_code e)
                                ∈ access_denied_codes)
                then RuntimeError invoke_denied_message (Some e)
                else e),
         after_invoke agent_id alias_id text enable_trace w1 sid s2))
  /\ (forall resp s2 events e,
         api_invoke_agent env
           (invoke_request agent_id alias_id text sid enable_trace) (remote w1)
         = (inr resp, s2) ->
         completion resp
         = Some {| stream_events := events; stream_failure := Some e |} ->
         invoke env agent_id alias_id text session_id enable_trace w
         = (Raise (if bool_decide (default [] (error_code e)
                                   ∈ access_denied_codes)
                   then RuntimeError invoke_denied_message (Some e)
                   else e),
            after_invoke agent_id alias_id text enable_trace w1 sid s2)).
Proof.
  intros Hisa Hsid. split.
  - intros e s2 Hcall.
    rewrite (invoke_refused env _ _ _ _ _ w sid w1 e s2 Hsid Hcall).
    by rewrite invoke_handler_by_code.
  - intros resp s2 events e Hcall Hstream.
    rewrite (invoke_stream_failed env _ _ _ _ _ w sid w1 resp s2 events e
               Hsid Hcall Hstream).
    by rewrite invoke_handler_by_code.
Qed.

Lemma invoke_rewrites_by_code_only_witness :
  (invoke (Sim.env (Fixtures.invoking
                      (Fixtures.streaming [Fixtures.data "Hel"]
                         (Some Samples3.throttled_in_stream)) true))
     (u "A1") (u "B2") (u "Say hello") None false Sim.world0).1
  = Raise Samples3.throttled_in_stream
  /\ contains (u "Access denied") (str_exn Samples3.throttled_in_stream) = true.
Proof.
  split; [|by vm_compute].
  edestruct (invoke_rewrites_by_code_only
               (Sim.env (Fixtures.invoking
                           (Fixtures.streaming [Fixtures.data "Hel"]
                              (Some Samples3.throttled_in_stream)) true))
               (u "A1") (u "B2") (u "Say hello") None false Sim.world0)
    as (_ & Hstream); [reflexivity | reflexivity |].
  erewrite Hstream; cycle 1; [reflexivity | reflexivity | by vm_compute].
Defined.

(** X9. A text returned by [invoke] neither starts nor ends with a
    whitespace character, and stripping it again changes nothing. *)
Theorem invoke_result_is_stripped {S : Type} (env : Env S)
    (agent_id alias_id text : pystr) (session_id : option pystr)
    (enable_trace : bool) (w w' : world S) (out : pystr) :
  invoke env agent_id alias_id text session_id enable_trace w = (Ok out, w') ->
  (forall c, head out = Some c -> isspace c = false)
  /\ (forall c, last out = Some c -> isspace c = false)
  /\ strip out = out.
Proof.
  intros Hrun.
  destruct (invoke_returns_stripped env _ _ _ _ _ _ _ _ Hrun) as [chunks ->].
  split; [|split].
  - intros c. apply strip_head.
  - intros c. apply strip_last.
  - apply strip_strip.
Qed.

Lemma invoke_result_is_stripped_witness :
  (forall c, head (u "Hello world") = Some c -> isspace c = false)
  /\ (forall c, last (u "Hello world") = Some c -> isspace c = false)
  /\ strip (u "Hello world") = u "Hello world".
Proof.
  eapply (invoke_result_is_stripped
            (Sim.env (Fixtures.invoking
                        (Fixtures.streaming
                           (Fixtures.data "  " :: Fixtures.hello_stream
                              ++ [Fixtures.data " "]) None) true))
            (u "A1") (u "B2") (u "Say hello") None false Sim.world0).
  reflexivity.
Defined.

(** ** Decoding the chunks *)

Lemma decode_utf8_ignore_ascii bs :
  Forall is_ascii bs -> decode_utf8_ignore bs = List.map Byte.to_N bs.
Proof.
  induction 1 as [|x bs Hx _ IH]; [done|].
  cbn [decode_utf8_ignore List.map]. cbv zeta.
  unfold is_ascii in Hx. apply N.ltb_lt in Hx. by rewrite Hx, IH.
Qed.

Lemma event_text_chunk bs :
  event_text (chunk_event bs) = Some (decode_utf8_ignore bs).
Proof. unfold event_text, chunk_event. cbn. by destruct bs. Qed.

Lemma join_ascii_chunks bss :
  Forall (Forall is_ascii) bss ->
  join (omap event_text (List.map chunk_event bss))
  = List.map Byte.to_N (concat bss).
Proof.
  induction 1 as [|bs bss Hbs _ IH]; [done|].
  cbn [List.map omap list_omap]. rewrite event_text_chunk. cbn [concat].
  unfold join in *. cbn [concat]. rewrite IH, map_app.
  by rewrite decode_utf8_ignore_ascii.
Qed.

(** X10. For a stream of data chunks that hold ASCII bytes only, [invoke]
    returns the bytes of all chunks, in order, read as characters and
    stripped: where the stream is cut into chunks does not matter. *)
Theorem invoke_ascii_chunks {S : Type} (env : Env S)
    (agent_id alias_id text : pystr) (session_id : option pystr)
    (enable_trace : bool) (w w1 : world S) (sid : pystr)
    (resp : invoke_agent_response) (s2 : S) (bss : list (list byte)) :
  Forall (Forall is_ascii) bss ->
  resolve_session env session_id w = (Ok sid, w1) ->
  api_invoke_agent env
    (invoke_request agent_id alias_id text sid enable_trace) (remote w1)
  = (inr resp, s2) ->
  completion resp
  = Some {| stream_events := List.map chunk_event bss;
            stream_failure := None |} ->
  invoke env agent_id alias_id text session_id enable_trace w
  = (Ok (strip (List.map Byte.to_N (concat bss))),
     after_invoke agent_id alias_id text enable_trace w1 sid s2).
Proof.
  intros Hascii Hsid Hcall Hstream.
  rewrite (invoke_answered env _ _ _ _ _ w sid w1 resp s2 _ Hsid Hcall Hstream).
  by rewrite join_ascii_chunks.
Qed.

Lemma invoke_ascii_chunks_witness :
  (invoke (Sim.env (Fixtures.invoking
                      (Fixtures.streaming
                         (List.map chunk_event [b "Hel"; b "lo wo"; b "rld "])
                         None) true))
     (u "A1") (u "B2") (u "Say hello") None false Sim.world0).1
  = Ok (u "Hello world").
Proof.
  erewrite (invoke_ascii_chunks
              (Sim.env (Fixtures.invoking
                          (Fixtures.streaming
                             (List.map chunk_event
                                [b "Hel"; b "lo wo"; b "rld "]) None) true))
              (u "A1") (u "B2") (u "Say hello") None false Sim.world0 _ _ _ _
              [b "Hel"; b "lo wo"; b "rld "]);
    [ reflexivity | | reflexivity | reflexivity | reflexivity ].
  repeat constructor; by vm_compute.
Defined.

(** X11. Each chunk is decoded on its own: a two-byte character whose lead
    byte ends one chunk and whose continuation byte starts the next is
    dropped, while the same two bytes in one chunk give the character. *)
Theorem two_byte_character_split_across_chunks (b1 b2 : byte) :
  (194 <= Byte.to_N b1 < 224)%N ->
  is_continuation (Byte.to_N b2) = true ->
  join (omap event_text [chunk_event [b1]; chunk_event [b2]]) = []
  /\ join (omap event_text [chunk_event [b1; b2]])
     = [N.lor (N.shiftl (N.land (Byte.to_N b1) 31) 6) (low6 (Byte.to_N b2))].
Proof.
  intros [Hlo Hhi] Hcont.
  assert (H1 : (Byte.to_N b1 <? 128)%N = false) by (apply N.ltb_ge; lia).
  assert (H2 : (Byte.to_N b1 <? 194)%N = false) by (by apply N.ltb_ge).
  assert (H3 : (Byte.to_N b1 <? 224)%N = true) by (by apply N.ltb_lt).
  unfold is_continuation in Hcont. apply andb_true_iff in Hcont as [Hc1 Hc2].
  apply N.leb_le in Hc1. apply N.ltb_lt in Hc2.
  assert (H4 : (Byte.to_N b2 <? 128)%N = false) by (apply N.ltb_ge; lia).
  assert (H5 : (Byte.to_N b2 <? 194)%N = true) by (apply N.ltb_lt; lia).
  assert (H6 : is_continuation (Byte.to_N b2) = true).
  { unfold is_continuation. apply andb_true_iff. split;
      [by apply N.leb_le | by apply N.ltb_lt]. }
  cbn [omap list_omap]. rewrite !event_text_chunk. unfold join.
  cbn [concat app].
  cbn [decode_utf8_ignore]. cbv zeta.
  rewrite H1, H2, H3, H4, H5, H6. done.
Qed.

Lemma two_byte_character_split_across_chunks_witness :
  join (omap event_text [chunk_event [xc3]; chunk_event [xa9]]) = []
  /\ join (omap event_text [chunk_event [xc3; xa9]]) = [233%N].
Proof.
  apply (two_byte_character_split_across_chunks xc3 xa9); by vm_compute.
Defined.

(** * [wait_for_status]: the number of polls *)




(** X13. The [prepare] command waits with the defaults of
    [wait_for_status], ten minutes in steps of ten seconds: with a clock
    that advances by the sleeps it always ends, and after the preparation
    request it polls the agent at most sixty times. *)
Theorem prepare_cmd_polls_at_most_60 {S : Type} (env : Env S)
    (agent_id : pystr) (time_of : S -> Q) (fuel : nat) (w : world S) :
  clock_advances env agent_id time_of ->
  60 < fuel ->
  (prepare_cmd env fuel agent_id w).1 <> NoFuel
  /\ exists extra,
      calls (prepare_cmd env fuel agent_id w).2
      = calls w ++ Call_prepare_agent agent_id :: extra
      /\ length (List.filter is_poll extra) <= 60.
Proof.
  intros Hclock Hfuel.
  unfold prepare_cmd, prepareAndWait, prepare_agent.
  rewrite bind_run. unfold remote_call.
  destruct (api_prepare_agent env agent_id (remote w)) as [[e|resp] s1].
  { split; [done|]. exists []. split; [done | simpl; lia]. }
  unfold wait_for_status, now. rewrite bind_run. unfold local_call.
  cbn [remote calls].
  destruct (time_time env s1) as [t0 s0] eqn:Ht0.
  assert (Hpoll : (0 <= 10)%Q) by done.
  assert (Hs : (600 <= slept 60 10)%Q) by (by vm_compute).
  destruct (wait_loop_bounded env agent_id (u "PREPARED") 600 10 time_of
              Hclock Hpoll 60 fuel t0
              (World s0 ((calls w ++ [Call_prepare_agent agent_id])
                           ++ [Call_time])))
    as [Hr (extra & Hcalls & Hlen)]; [done| |].
  - destruct Hclock as (Hread & _). destruct (Hread _ _ _ Ht0) as [_ Hhi].
    cbn [remote]. set (total := slept 60 10) in *. clearbody total. lra.
  - split; [done|]. exists (Call_time :: extra). rewrite Hcalls.
    cbn [calls]. rewrite <- !app_assoc. split; [done|]. cbn. lia.
Qed.

Lemma prepare_cmd_polls_at_most_60_witness :
  (prepare_cmd (Sim.env (Fixtures.reporting (u "PREPARING") 0)) 61
     (u "A1") Sim.world0).1 <> NoFuel
  /\ exists extra,
      calls (prepare_cmd (Sim.env (Fixtures.reporting (u "PREPARING") 0)) 61
               (u "A1") Sim.world0).2
      = calls Sim.world0 ++ Call_prepare_agent (u "A1") :: extra
      /\ length (List.filter is_poll extra) <= 60.
Proof.
  apply (prepare_cmd_polls_at_most_60
           (Sim.env (Fixtures.reporting (u "PREPARING") 0))
           (u "A1") Sim.clock 61 Sim.world0).
  - apply sim_clock_advances. apply Qle_refl.
  - lia.
Defined.

(** * [_extract_agent_id] on the locators of its docstring *)

(** The marker starts with a slash: a slash-free stretch in front of a text
    holds no occurrence. *)
Lemma contains_agent_marker_skip p s :
  47%N ∉ p -> contains agent_marker (p ++ s) = contains agent_marker s.
Proof.
  induction p as [|c p IH]; intros Hp; [done|].
  apply not_elem_of_cons in Hp as [Hc Hp].
  change ((c :: p) ++ s) with (c :: (p ++ s)).
  rewrite contains_cons, (IH Hp).
  change agent_marker with (47 :: u "agent/")%N at 1.
  cbn [startswith].
  destruct (N.eqb_spec 47 c) as [Heq|_]; [by destruct Hc | done].
Qed.

Lemma contains_agent_marker_slash_free s :
  47%N ∉ s -> contains agent_marker s = false.
Proof.
  intros Hs. rewrite <- (app_nil_r s), (contains_agent_marker_skip s [] Hs).
  done.
Qed.

Lemma startswith_slash_free p s :
  47%N ∈ p -> 47%N ∉ s -> startswith p s = false.
Proof.
  intros Hp Hs. destruct (startswith p s) eqn:Hst; [|done].
  apply startswith_spec in Hst as [t ->]. exfalso. apply Hs.
  apply elem_of_app. by left.
Qed.

(** X14. An agent locator as the docstring of [_extract_agent_id] gives it,
    [arn:aws:bedrock:<region>:<account>:agent/<AGENT_ID>] with or without
    [/alias/<ALIAS_ID>], with slash-free segments and an agent segment other
    than the word [agent], is returned whole: the helper never yields
    [AGENT_ID] for it. *)
Theorem _extract_agent_id_keeps_documented_locator (pre ag tail : pystr) :
  47%N ∉ pre -> 47%N ∉ ag -> ag <> u "agent" ->
  (tail = [] \/ exists al, tail = alias_marker ++ al /\ 47%N ∉ al) ->
  _extract_agent_id (arn_prefix ++ pre ++ u ":agent/" ++ ag ++ tail)
  = arn_prefix ++ pre ++ u ":agent/" ++ ag ++ tail
  /\ _extract_agent_id (arn_prefix ++ pre ++ u ":agent/" ++ ag ++ tail) <> ag.
Proof.
  intros Hpre Hag Hne Htail.
  assert (Hsame :
            _extract_agent_id (arn_prefix ++ pre ++ u ":agent/" ++ ag ++ tail)
            = arn_prefix ++ pre ++ u ":agent/" ++ ag ++ tail).
  { apply _extract_agent_id_not_locator, is_locator_clean.
    replace (arn_prefix ++ pre ++ u ":agent/" ++ ag ++ tail)
      with ((arn_prefix ++ pre ++ u ":agent") ++ 47%N :: (ag ++ tail))
      by (by rewrite <- !app_assoc).
    rewrite contains_agent_marker_skip.
    2:{ rewrite !not_elem_of_app. split; [|split; [done|]].
        - apply (bool_decide_unpack _). by vm_compute.
        - apply (bool_decide_unpack _). by vm_compute. }
    rewrite contains_cons, orb_false_iff. split.
    - change agent_marker with (47 :: u "agent/")%N.
      cbn [startswith]. change (47 =? 47)%N with true. cbv iota.
      destruct (startswith (u "agent/") (ag ++ tail)) eqn:Hst; [|done].
      exfalso. apply startswith_spec in Hst as [t Ht].
      destruct Htail as [->|(al & -> & Hal)].
      + apply Hag. rewrite app_nil_r in Ht. rewrite Ht.
        apply elem_of_app. left. apply (bool_decide_unpack _). by vm_compute.
      + change (u "agent/") with [97; 103; 101; 110; 116; 47]%N in Ht.
        change alias_marker with [47; 97; 108; 105; 97; 115; 47]%N in Ht.
        change (u "agent") with [97; 103; 101; 110; 116]%N in Hne.
        destruct ag as [|a1 [|a2 [|a3 [|a4 [|a5 [|a6 r]]]]]];
          simplify_eq/=.
        apply Hag. set_solver.
    - destruct Htail as [->|(al & -> & Hal)].
      + rewrite app_nil_r. by apply contains_agent_marker_slash_free.
      + rewrite (contains_agent_marker_skip ag _ Hag).
        change (alias_marker ++ al) with (47%N :: (u "alias" ++ 47%N :: al)).
        rewrite contains_cons, orb_false_iff. split; [done|].
        rewrite contains_agent_marker_skip
          by (apply (bool_decide_unpack _); by vm_compute).
        rewrite contains_cons, orb_false_iff. split.
        * change agent_marker with (47 :: u "agent/")%N.
          cbn [startswith]. change (47 =? 47)%N with true. cbv iota.
          apply startswith_slash_free; [|done].
          apply (bool_decide_unpack _). by vm_compute.
        * by apply contains_agent_marker_slash_free. }
  split; [done|]. rewrite Hsame. intros Heq.
  apply (f_equal length) in Heq. rewrite !length_app in Heq.
  change (length arn_prefix) with 16 in Heq. lia.
Qed.

Lemma _extract_agent_id_keeps_documented_locator_witness :
  _extract_agent_id
    (arn_prefix ++ u "us-east-1:123456789012" ++ u ":agent/" ++ u "5YVSEANCUS"
       ++ alias_marker ++ u "ALIASID")
  = arn_prefix ++ u "us-east-1:123456789012" ++ u ":agent/" ++ u "5YVSEANCUS"
      ++ alias_marker ++ u "ALIASID"
  /\ _extract_agent_id
       (arn_prefix ++ u "us-east-1:123456789012" ++ u ":agent/"
          ++ u "5YVSEANCUS" ++ alias_marker ++ u "ALIASID")
     <> u "5YVSEANCUS".
Proof.
  apply (_extract_agent_id_keeps_documented_locator
           (u "us-east-1:123456789012") (u "5YVSEANCUS")
           (alias_marker ++ u "ALIASID")).
  - apply (bool_decide_unpack _). vm_compute. exact I.
  - apply (bool_decide_unpack _). vm_compute. exact I.
  - vm_compute. discriminate.
  - right. exists (u "ALIASID"). split; [reflexivity|].
    apply (bool_decide_unpack _). vm_compute. exact I.
Defined.

(** * The configuration: [load_config_from_env] and the check of the
      commands *)

Lemma truthy_getenv_role (environ : dict) :
  truthy (getenv environ (u "AGENT_ROLE_ARN") [])
  = truthy_opt (environ !! u "AGENT_ROLE_ARN").
Proof. unfold getenv. by destruct (environ !! u "AGENT_ROLE_ARN"). Qed.

Lemma or_opt_None_r (x : option pystr) (d : pystr) :
  or_str (or_opt x None) d = or_str x d.
Proof. unfold or_opt, or_str. by destruct x as [[|c v]|]. Qed.

(** X15. Without the options [--region] and [--instruction] the check of
    [create-agent] and [quickstart] accepts an environment exactly when
    [load_config_from_env] does and the instruction has at least 40
    characters, and the two configurations are the same; an environment
    whose [AGENT_ROLE_ARN] is unset or empty is refused by both, whatever
    the options. *)
Theorem command_config_agrees_with_load_config (environ : dict) :
  (forall cfg,
      command_config None None environ = inr cfg
      <-> load_config_from_env environ = Ok cfg
          /\ 40 <= length (instruction cfg))
  /\ (truthy_opt (environ !! u "AGENT_ROLE_ARN") = false
      <-> load_config_from_env environ
          = Raise (ValueError
                     (u "AGENT_ROLE_ARN env var is required to create an agent.")))
  /\ (truthy_opt (environ !! u "AGENT_ROLE_ARN") = false ->
      forall ctx_region instruction,
        command_config ctx_region instruction environ = inl 2%Z).
Proof.
  split; [|split].
  - intros cfg. unfold command_config, load_config_from_env.
    cbn [or_str role_arn]. rewrite or_opt_None_r.
    destruct (Nat.ltb_spec
                (length (getenv environ (u "AGENT_INSTRUCTION")
                           default_instruction)) 40) as [Hlt|Hge];
      destruct (truthy (getenv environ (u "AGENT_ROLE_ARN") []));
      cbn [negb]; split.
    + done.
    + intros [[= <-] Hlen]. cbn [instruction] in Hlen. lia.
    + done.
    + by intros [? _].
    + intros [= <-]. by cbn [instruction].
    + by intros [[= <-] _].
    + done.
    + by intros [? _].
  - unfold load_config_from_env. rewrite truthy_getenv_role.
    destruct (truthy_opt (environ !! u "AGENT_ROLE_ARN")); cbn [negb];
      split; done.
  - intros Hrole ctx_region instr. unfold command_config. cbn [role_arn].
    rewrite truthy_getenv_role, Hrole. cbn [negb].
    by destruct (_ <? _)%nat.
Qed.

Lemma command_config_agrees_with_load_config_witness :
  load_config_from_env Environments.complete = Ok Fixtures.cfg0
  /\ 40 <= length (instruction Fixtures.cfg0).
Proof.
  apply (proj1 (command_config_agrees_with_load_config Environments.complete)
           Fixtures.cfg0).
  by vm_compute.
Defined.

(** * The commands [create-agent] and [quickstart] *)

(** X16. When the instruction chosen (the option [--instruction] if it is
    given and not empty, else [AGENT_INSTRUCTION], else the default) has
    fewer than 40 characters, or [AGENT_ROLE_ARN] is unset or empty,
    [create-agent] and [quickstart] leave with status 2 and ask nothing of
    the outside world.  The default instruction is such a text: without
    the option and the variable both commands always leave. *)
Theorem commands_refuse_before_any_request {S : Type} (env : CliEnv S)
    (fuel : nat) (ctx_region instruction : option pystr) (environ : dict)
    (alias_name prompt : pystr) (w : cli_world S) :
  length (or_str instruction
            (getenv environ (u "AGENT_INSTRUCTION") default_instruction)) < 40
  \/ truthy_opt (environ !! u "AGENT_ROLE_ARN") = false
  \/ (truthy_opt instruction = false
      /\ environ !! u "AGENT_INSTRUCTION" = None) ->
  create_agent_cmd env fuel ctx_region instruction environ w
  = (SystemExit 2, w)
  /\ quickstart_cmd env fuel ctx_region instruction environ alias_name prompt w
     = (SystemExit 2, w).
Proof.
  intros Hrefused.
  assert (Hcheck : command_config ctx_region instruction environ = inl 2%Z).
  { unfold command_config. cbn [role_arn].
    destruct Hrefused as [Hshort | [Hrole | [Hopt Hvar]]].
    - by destruct (Nat.ltb_spec (length (or_str instruction
                     (getenv environ (u "AGENT_INSTRUCTION")
                        default_instruction))) 40); [|lia].
    - rewrite truthy_getenv_role, Hrole. by destruct (_ <? _)%nat.
    - unfold getenv. rewrite Hvar. cbn [default].
      by destruct instruction as [[|c v]|]. }
  unfold create_agent_cmd, quickstart_cmd. by rewrite Hcheck.
Qed.

Lemma commands_refuse_before_any_request_witness :
  create_agent_cmd (CliSim.env Samples.base Sim.unavailable) 5 None None
    Environments.role_only CliSim.world0
  = (SystemExit 2, CliSim.world0)
  /\ quickstart_cmd (CliSim.env Samples.base Sim.unavailable) 5 None None
       Environments.role_only (u "prod") (u "Say hello") CliSim.world0
     = (SystemExit 2, CliSim.world0).
Proof.
  apply (commands_refuse_before_any_request
           (CliSim.env Samples.base Sim.unavailable) 5 None None
           Environments.role_only (u "prod") (u "Say hello") CliSim.world0).
  right. right. split; by vm_compute.
Defined.

(** ** What the methods ask, by kind *)

Section MethodCalls.

Context {S : Type} (env : Env S).
Context (P : call -> Prop).

Implicit Types (w : world S).

Lemma list_agents_calls_gen fuel max_results w :
  (forall m t, P (Call_list_agents m t)) ->
  exists extra,
    calls (list_agents env fuel max_results w).2 = calls w ++ extra
    /\ Forall P extra.
Proof.
  intros Hl. destruct (list_agents_calls env fuel max_results w) as (tk & ->).
  eexists. split; [done|]. induction tk; by constructor.
Qed.

Lemma create_agent_calls_gen fuel cfg w :
  (forall m t, P (Call_list_agents m t)) ->
  (forall id, P (Call_get_agent id)) ->
  exists extra,
    calls (create_agent env fuel cfg w).2
    = calls w
      ++ Call_uuid4
         :: Call_create_agent (create_request cfg (uuid4 env (remote w)).1)
         :: extra
    /\ Forall P extra.
Proof.
  intros Hlist Hget.
  destruct (uuid4 env (remote w)) as [tok s1] eqn:Hu. cbn [fst].
  destruct (api_create_agent env (create_request cfg tok) s1)
    as [[e|resp] s2] eqn:Hc.
  - rewrite (create_agent_refused env fuel cfg w tok s1 e s2 Hu Hc).
    cbv zeta.
    set (w2 := World s2 (calls w ++ [Call_uuid4;
                                      Call_create_agent (create_request cfg tok)])).
    assert (Hplain : exists extra,
               calls w2
               = calls w ++ Call_uuid4
                   :: Call_create_agent (create_request cfg tok) :: extra
               /\ Forall P extra).
    { exists []. split; [done | constructor]. }
    assert (Hmore : forall extra, Forall P extra ->
               exists extra',
                 calls w2 ++ extra
                 = calls w ++ Call_uuid4
                     :: Call_create_agent (create_request cfg tok) :: extra'
                 /\ Forall P extra').
    { intros extra Hextra. exists extra. unfold w2. cbn [calls].
      by rewrite <- app_assoc. }
    destruct (isinstance_ClientError env e); [|exact Hplain].
    destruct (bool_decide (error_code e = Some (u "ConflictException")));
      [|exact Hplain].
    destruct (list_agents_calls_gen fuel 100 w2 Hlist) as (pages & Hl & Hpages).
    unfold find_agent_by_name. rewrite !bind_run.
    destruct (list_agents env fuel 100 w2) as [[l| |] w3] eqn:Hrun;
      cbn [snd] in Hl; cbn [mret M_ret ret].
    + destruct (List.find _ l) as [a|].
      * destruct (truthy_dict (Some a) && truthy_opt (a !! u "agentId")).
        -- rewrite get_agent_calls, Hl, <- app_assoc. apply Hmore.
           apply Forall_app. split; [done|]. by constructor.
        -- cbn [raise snd]. rewrite Hl. by apply Hmore.
      * cbn [raise snd]. rewrite Hl. by apply Hmore.
    + cbn [snd]. rewrite Hl. by apply Hmore.
    + cbn [snd]. rewrite Hl. by apply Hmore.
  - exists []. split; [|constructor].
    unfold create_agent, try_except, new_uuid.
    rewrite (bind_ok _ _ _ _ _ (local_call_run _ _ _ _ _ Hu)). cbv zeta.
    rewrite (bind_ok _ _ _ _ _
               (remote_call_answer _ _ (World s1 (calls w ++ [Call_uuid4]))
                  _ _ Hc)).
    unfold get_item_agent. cbn [remote calls].
    destruct (agent_field resp); cbn; by rewrite <- app_assoc.
Qed.

Lemma wait_loop_calls_gen fuel agent_id desired timeout_s poll_s start w :
  P Call_time -> (forall id, P (Call_get_agent id)) ->
  (forall d, P (Call_sleep d)) ->
  exists extra,
    calls (wait_loop env fuel agent_id desired timeout_s poll_s start w).2
    = calls w ++ extra
    /\ Forall P extra.
Proof.
  intros Htime Hget Hsleep. revert w.
  induction fuel as [|fuel IH]; intros w.
  { exists []. by rewrite app_nil_r. }
  cbn [wait_loop]. unfold now. rewrite bind_run. unfold local_call.
  destruct (time_time env (remote w)) as [t s1].
  destruct (Qltb (t - start) timeout_s).
  2:{ exists [Call_time]. split; [done | by constructor]. }
  rewrite bind_run. unfold remote_call. cbn [remote calls].
  destruct (api_get_agent env agent_id s1) as [[e|resp] s2].
  { exists [Call_time; Call_get_agent agent_id]. rewrite <- app_assoc.
    split; [done | by repeat constructor]. }
  set (w2 := World s2 ((calls w ++ [Call_time]) ++ [Call_get_agent agent_id])).
  assert (Hstop : forall (r : res pystr), exists extra,
             calls (r, w2).2 = calls w ++ extra /\ Forall P extra).
  { intros r. exists [Call_time; Call_get_agent agent_id].
    unfold w2. cbn [snd calls]. rewrite <- app_assoc.
    split; [done | by repeat constructor]. }
  assert (Hagain : exists extra,
             calls ((_ ← sleep env poll_s;
                     wait_loop env fuel agent_id desired timeout_s poll_s
                       start) w2).2
             = calls w ++ extra /\ Forall P extra).
  { rewrite bind_run. unfold sleep.
    destruct (Qltb poll_s 0); [apply Hstop|].
    unfold local_call. subst w2. cbn [remote calls].
    destruct (IH (World (time_sleep env poll_s s2)
                    (((calls w ++ [Call_time]) ++ [Call_get_agent agent_id])
                       ++ [Call_sleep poll_s])))
      as (extra & Hcalls & Hextra).
    exists ([Call_time; Call_get_agent agent_id; Call_sleep poll_s] ++ extra).
    rewrite Hcalls. cbn [calls]. rewrite <- !app_assoc.
    split; [done|]. apply Forall_app. split; [by repeat constructor | done]. }
  rewrite bind_run. unfold get_item_agent.
  destruct (agent_field resp) as [a|]; cbn [mret M_ret ret raise];
    [|apply Hstop].
  cbv zeta.
  destruct (bool_decide (a !! u "agentStatus" = Some desired));
    [apply Hstop|].
  destruct (a !! u "agentStatus") as [st|]; [|exact Hagain].
  destruct (bool_decide (st ∈ terminal_statuses));
    [apply Hstop | exact Hagain].
Qed.

Lemma wait_for_status_calls_gen fuel agent_id desired timeout_s poll_s w :
  P Call_time -> (forall id, P (Call_get_agent id)) ->
  (forall d, P (Call_sleep d)) ->
  exists extra,
    calls (wait_for_status env fuel agent_id desired timeout_s poll_s w).2
    = calls w ++ extra
    /\ Forall P extra.
Proof.
  intros Htime Hget Hsleep.
  unfold wait_for_status, now. rewrite bind_run. unfold local_call.
  destruct (time_time env (remote w)) as [t0 s0].
  destruct (wait_loop_calls_gen fuel agent_id desired timeout_s poll_s t0
              (World s0 (calls w ++ [Call_time])) Htime Hget Hsleep)
    as (extra & Hcalls & Hextra).
  exists (Call_time :: extra). rewrite Hcalls. cbn [calls].
  rewrite <- app_assoc. split; [done | by constructor].
Qed.

End MethodCalls.

(** ** Running a command *)

Section CmdFacts.

Context {S : Type}.

Implicit Types (w : cli_world S).

Lemma c_bind_run {A B} (m : Cmd S A) (k : A -> Cmd S B) w :
  (m ≫= k) w =
  match m w with
  | (Returned a, w') => k a w'
  | (Raised e, w') => (Raised e, w')
  | (SystemExit code, w') => (SystemExit code, w')
  | (OutOfFuel, w') => (OutOfFuel, w')
  end.
Proof. done. Qed.

Lemma quiet_steps (l : list call) :
  Forall is_quiet l -> omap step_of (List.map Manager_call l) = [].
Proof.
  induction 1 as [|c l Hc _ IH]; [done|].
  cbn [List.map omap list_omap]. unfold is_quiet in Hc. by rewrite Hc.
Qed.

Lemma sends_ret {A} (a : A) : sends (S := S) [] (c_ret a).
Proof.
  intros w. exists []. cbn. rewrite app_nil_r. by repeat split.
Qed.

Lemma sends_raise {A} l e : sends (S := S) (A := A) l (c_raise e).
Proof.
  intros w. exists []. cbn. rewrite app_nil_r.
  split; [done|]. split; [apply prefix_nil | done].
Qed.

Lemma sends_exit {A} l code : sends (S := S) (A := A) l (sys_exit code).
Proof.
  intros w. exists []. cbn. rewrite app_nil_r.
  split; [done|]. split; [apply prefix_nil | done].
Qed.

Lemma sends_getitem d key : sends (S := S) [] (getitem d key).
Proof.
  unfold getitem. destruct (d !! key); [apply sends_ret | apply sends_raise].
Qed.

Lemma sends_bind {A B} l1 l2 (m : Cmd S A) (k : A -> Cmd S B) :
  sends l1 m -> (forall a, sends l2 (k a)) -> sends (l1 ++ l2) (m ≫= k).
Proof.
  intros Hm Hk w. rewrite c_bind_run.
  destruct (Hm w) as (e1 & Hc1 & Hp1 & Hr1).
  destruct (m w) as [[a|e|code|] w1]; cbn [fst snd] in *.
  - destruct (Hk a w1) as (e2 & Hc2 & Hp2 & Hr2).
    exists (e1 ++ e2). rewrite Hc2, Hc1, <- app_assoc.
    split; [done|]. rewrite omap_app, (Hr1 a eq_refl).
    split; [by apply prefix_app|].
    intros b Hb. by rewrite (Hr2 b Hb).
  - exists e1. split; [done|]. split; [by apply prefix_app_r | done].
  - exists e1. split; [done|]. split; [by apply prefix_app_r | done].
  - exists e1. split; [done|]. split; [by apply prefix_app_r | done].
Qed.

Lemma sends_lift {A} l (m : M S A) :
  (forall w0 : world S, exists extra,
      calls (m w0).2 = calls w0 ++ extra
      /\ omap step_of (List.map Manager_call extra) = l) ->
  sends l (lift m).
Proof.
  intros Hm w. unfold lift. cbn [fst snd cli_calls].
  destruct (Hm (World (cli_remote w) [])) as (extra & Hc & Hl).
  cbn [calls app] in Hc. rewrite Hc.
  exists (List.map Manager_call extra). rewrite Hl. by repeat split.
Qed.

Lemma sends_remote_call {A} c (op : S -> (exn + A) * S) st :
  step_of c = Some st -> sends [st] (cli_remote_call c op).
Proof.
  intros Hst w. unfold cli_remote_call.
  destruct (op (cli_remote w)) as [[e|a] s']; cbn [fst snd cli_calls];
    exists [c]; cbn [omap list_omap]; rewrite Hst; by repeat split.
Qed.

End CmdFacts.

Section CommandSteps.

Context {S : Type} (env : CliEnv S).

Lemma sends_create_agent fuel cfg :
  sends [Creation] (lift (create_agent (manager_env env) fuel cfg)).
Proof.
  apply sends_lift. intros w0.
  destruct (create_agent_calls_gen (manager_env env) is_quiet fuel cfg w0)
    as (extra & Hc & Hq); [done|done|].
  eexists. split; [exact Hc|].
  cbn [List.map omap list_omap step_of]. by rewrite quiet_steps.
Qed.

Lemma sends_prepare_agent agent_id :
  sends [Preparation] (lift (prepare_agent (manager_env env) agent_id)).
Proof.
  apply sends_lift. intros w0. unfold prepare_agent, remote_call.
  exists [Call_prepare_agent agent_id].
  by destruct (api_prepare_agent _ _ _) as [[e|r] s'].
Qed.

Lemma sends_wait_for_status fuel agent_id desired timeout_s poll_s :
  sends [] (lift (wait_for_status (manager_env env) fuel agent_id desired
                    timeout_s poll_s)).
Proof.
  apply sends_lift. intros w0.
  destruct (wait_for_status_calls_gen (manager_env env) is_quiet fuel agent_id
              desired timeout_s poll_s w0) as (extra & Hc & Hq);
    [done|done|done|].
  exists extra. split; [done | by apply quiet_steps].
Qed.

Lemma invoke_adds agent_id alias_id text session_id enable_trace
    (w0 : world S) :
  exists extra,
    calls (invoke (manager_env env) agent_id alias_id text session_id
             enable_trace w0).2 = calls w0 ++ extra
    /\ omap step_of (List.map Manager_call extra) = [Invocation].
Proof.
  unfold invoke.
  rewrite (bind_ok _ _ _ _ _ (resolve_session_run _ session_id w0)).
  unfold try_except. cbv zeta. rewrite bind_run. unfold remote_call.
  set (w1 := if truthy_opt session_id then w0
             else World (uuid4 (manager_env env) (remote w0)).2
                    (calls w0 ++ [Call_uuid4])).
  assert (Hw1 : calls w1
                = calls w0 ++ (if truthy_opt session_id then []
                               else [Call_uuid4])).
  { unfold w1. destruct (truthy_opt session_id); [by rewrite app_nil_r|done]. }
  eexists ((if truthy_opt session_id then [] else [Call_uuid4]) ++ [_]).
  split.
  - destruct (api_invoke_agent (manager_env env) _ (remote w1))
      as [[e|resp] s2].
    + rewrite invoke_handler_run. cbn [snd calls].
      by rewrite Hw1, <- app_assoc.
    + rewrite bind_run. unfold read_stream.
      destruct (completion resp) as [es|];
        [destruct (stream_failure es) as [e|]|];
        cbn [mret M_ret ret raise]; rewrite ?invoke_handler_run;
        cbn [snd calls]; by rewrite Hw1, <- app_assoc.
  - by destruct (truthy_opt session_id).
Qed.

Lemma sends_invoke agent_id alias_id text session_id enable_trace :
  sends [Invocation]
    (lift (invoke (manager_env env) agent_id alias_id text session_id
             enable_trace)).
Proof. apply sends_lift. intros w0. apply invoke_adds. Qed.

Lemma sends_create_alias agent_id alias_name :
  sends [AliasCreation] (create_alias env agent_id alias_name).
Proof.
  unfold create_alias.
  apply (sends_bind [] [AliasCreation]).
  { apply sends_lift. intros w0. unfold new_uuid, local_call.
    exists [Call_uuid4]. by destruct (uuid4 _ _). }
  intros token. cbv zeta.
  apply (sends_bind [AliasCreation] []); [by apply sends_remote_call|].
  intros resp. destruct (agentAlias resp); [apply sends_ret | apply sends_raise].
Qed.

End CommandSteps.

Lemma create_alias_calls {S : Type} (env : CliEnv S)
    (agent_id alias_name : pystr) (w : cli_world S) :
  cli_calls (create_alias env agent_id alias_name w).2
  = cli_calls w
    ++ [Manager_call Call_uuid4;
        Call_create_agent_alias
          (create_alias_request agent_id alias_name
             (uuid4 (manager_env env) (cli_remote w)).1)].
Proof.
  unfold create_alias. rewrite c_bind_run.
  unfold lift, new_uuid, local_call. cbn [remote calls].
  destruct (uuid4 (manager_env env) (cli_remote w)) as [tok s2].
  cbn [fst snd of_res remote calls List.map app]. rewrite c_bind_run.
  unfold cli_remote_call. cbn [cli_remote cli_calls].
  destruct (api_create_agent_alias env _ s2) as [[e|resp] s3];
    [by rewrite <- app_assoc|].
  destruct (agentAlias resp); cbn; by rewrite <- app_assoc.
Qed.


(** ** The stages of [quickstart] *)

Section CommandStages.

Context {S : Type} (env : CliEnv S).

Implicit Types (w : cli_world S).

Lemma c_bind_stopped {A B} (m : Cmd S A) (k : A -> Cmd S B) w o :
  stopped (m w).1 = Some o -> (m ≫= k) w = (o, (m w).2).
Proof.
  rewrite c_bind_run. destruct (m w) as [[a|e|code|] w']; cbn; congruence.
Qed.

Lemma c_bind_returned {A B} (m : Cmd S A) (k : A -> Cmd S B) w a :
  (m w).1 = Returned a -> (m ≫= k) w = k a (m w).2.
Proof.
  rewrite c_bind_run. destruct (m w) as [[a'|e|code|] w']; cbn; congruence.
Qed.

Lemma steps_since_trans w w1 w2 l1 l2 :
  steps_since w w1 l1 -> steps_since w1 w2 l2 ->
  steps_since w w2 (l1 ++ l2).
Proof.
  intros (e1 & Hc1 & Hl1) (e2 & Hc2 & Hl2). exists (e1 ++ e2).
  by rewrite Hc2, Hc1, <- app_assoc, omap_app, Hl1, Hl2.
Qed.

Lemma lift_steps {A} (m : M S A) l :
  (forall w0 : world S, exists extra,
      calls (m w0).2 = calls w0 ++ extra
      /\ omap step_of (List.map Manager_call extra) = l) ->
  forall w, steps_since w (lift m w).2 l.
Proof.
  intros Hm w. unfold lift, steps_since. cbn [fst snd cli_calls].
  destruct (Hm (World (cli_remote w) [])) as (extra & Hc & Hl).
  cbn [calls app] in Hc. rewrite Hc. by exists (List.map Manager_call extra).
Qed.

(** Whatever its outcome, each method sends its own step and no other. *)
Lemma create_agent_steps fuel cfg w :
  steps_since w (lift (create_agent (manager_env env) fuel cfg) w).2
    [Creation].
Proof.
  apply lift_steps. intros w0.
  destruct (create_agent_calls_gen (manager_env env) is_quiet fuel cfg w0)
    as (extra & Hc & Hq); [done|done|].
  eexists. split; [exact Hc|].
  cbn [List.map omap list_omap step_of]. by rewrite quiet_steps.
Qed.

Lemma prepare_agent_steps agent_id w :
  steps_since w (lift (prepare_agent (manager_env env) agent_id) w).2
    [Preparation].
Proof.
  apply lift_steps. intros w0. unfold prepare_agent, remote_call.
  exists [Call_prepare_agent agent_id].
  by destruct (api_prepare_agent _ _ _) as [[e|r] s'].
Qed.

Lemma wait_for_status_steps fuel agent_id desired timeout_s poll_s w :
  steps_since w
    (lift (wait_for_status (manager_env env) fuel agent_id desired timeout_s
             poll_s) w).2 [].
Proof.
  apply lift_steps. intros w0.
  destruct (wait_for_status_calls_gen (manager_env env) is_quiet fuel agent_id
              desired timeout_s poll_s w0) as (extra & Hc & Hq);
    [done|done|done|].
  exists extra. split; [done | by apply quiet_steps].
Qed.

Lemma create_alias_steps agent_id alias_name w :
  steps_since w (create_alias env agent_id alias_name w).2 [AliasCreation].
Proof. eexists. split; [apply create_alias_calls | done]. Qed.

Lemma invoke_steps agent_id alias_id text session_id enable_trace w :
  steps_since w
    (lift (invoke (manager_env env) agent_id alias_id text session_id
             enable_trace) w).2 [Invocation].
Proof. apply lift_steps. intros w0. apply invoke_adds. Qed.

End CommandStages.

(** X17. [quickstart] sends its four requests in the order creation,
    preparation, creation of the alias, invocation, each at most once: what
    it sends is a prefix of that sequence, and all of it when the command
    returns.  A step that fails is not tried again and no later step is
    taken: when the creation, the reading of the agent's id, the
    preparation, the wait, the creation of the alias or the reading of its
    id does not return, the command ends at once with that outcome, in the
    world that step left, where the steps logged are those up to the one
    that failed. *)
Theorem quickstart_cmd_steps_in_order {S : Type} (env : CliEnv S)
    (fuel : nat) (ctx_region instruction : option pystr) (environ : dict)
    (alias_name prompt : pystr) (w : cli_world S) :
  let Q := quickstart_cmd env fuel ctx_region instruction environ alias_name
             prompt w in
  (exists extra,
      cli_calls Q.2 = cli_calls w ++ extra
      /\ omap step_of extra
         `prefix_of` [Creation; Preparation; AliasCreation; Invocation]
      /\ (forall out,
             Q.1 = Returned out ->
             omap step_of extra
             = [Creation; Preparation; AliasCreation; Invocation]))
  /\ (forall code,
         command_config ctx_region instruction environ = inl code ->
         Q = (SystemExit code, w))
  /\ (forall cfg,
         command_config ctx_region instruction environ = inr cfg ->
         let r1 := lift (create_agent (manager_env env) fuel cfg) w in
         steps_since w r1.2 [Creation]
         /\ (forall o, stopped r1.1 = Some o -> Q = (o, r1.2))
         /\ (forall a,
               r1.1 = Returned a ->
               (a !! u "agentId" = None ->
                Q = (Raised (KeyError (u "agentId")), r1.2))
               /\ (forall agent_id,
                     a !! u "agentId" = Some agent_id ->
                     let r2 :=
                       lift (prepare_agent (manager_env env) agent_id) r1.2 in
                     steps_since w r2.2 [Creation; Preparation]
                     /\ (forall o, stopped r2.1 = Some o -> Q = (o, r2.2))
                     /\ (forall d,
                           r2.1 = Returned d ->
                           let r3 :=
                             lift (wait_for_status (manager_env env) fuel
                                     agent_id (u "PREPARED") 600 10) r2.2 in
                           steps_since w r3.2 [Creation; Preparation]
                           /\ (forall o,
                                 stopped r3.1 = Some o -> Q = (o, r3.2))
                           /\ (forall st,
                                 r3.1 = Returned st ->
                                 let r4 :=
                                   create_alias env agent_id alias_name r3.2 in
                                 steps_since w r4.2
                                   [Creation; Preparation; AliasCreation]
                                 /\ (forall o,
                                       stopped r4.1 = Some o ->
                                       Q = (o, r4.2))
                                 /\ (forall al,
                                       r4.1 = Returned al ->
                                       (al !! u "agentAliasId" = None ->
                                        Q = (Raised
                                               (KeyError (u "agentAliasId")),
                                             r4.2))
                                       /\ (forall alias_id,
                                             al !! u "agentAliasId"
                                             = Some alias_id ->
                                             Q = lift
                                                   (invoke (manager_env env)
                                                      agent_id alias_id prompt
                                                      None false) r4.2
                                             /\ steps_since w Q.2
                                                  [Creation; Preparation;
                                                   AliasCreation;
                                                   Invocation]))))))).
Proof.
  intros Q. split; [|split].
  - subst Q. revert w.
    change (sends [Creation; Preparation; AliasCreation; Invocation]
              (quickstart_cmd env fuel ctx_region instruction environ
                 alias_name prompt)).
    unfold quickstart_cmd.
    destruct (command_config ctx_region instruction environ) as [code|cfg];
      [apply sends_exit|].
    apply (sends_bind [Creation] [Preparation; AliasCreation; Invocation]);
      [apply sends_create_agent|]. intros a.
    apply (sends_bind [] [Preparation; AliasCreation; Invocation]);
      [apply sends_getitem|]. intros agent_id.
    apply (sends_bind [Preparation] [AliasCreation; Invocation]);
      [apply sends_prepare_agent|]. intros _.
    apply (sends_bind [] [AliasCreation; Invocation]);
      [apply sends_wait_for_status|]. intros _.
    apply (sends_bind [AliasCreation] [Invocation]);
      [apply sends_create_alias|]. intros al.
    apply (sends_bind [] [Invocation]); [apply sends_getitem|].
    intros alias_id. apply sends_invoke.
  - intros code Hcfg. subst Q. unfold quickstart_cmd. by rewrite Hcfg.
  - intros cfg Hcfg r1.
    assert (HQ : Q = quickstart_cmd env fuel ctx_region instruction environ
                       alias_name prompt w) by done.
    clearbody Q. unfold quickstart_cmd in HQ. rewrite Hcfg in HQ.
    pose proof (create_agent_steps env fuel cfg w) as H1.
    split; [exact H1|]. split.
    { intros o Ho. rewrite HQ. by apply c_bind_stopped. }
    intros a Ha. rewrite (c_bind_returned _ _ _ _ Ha) in HQ.
    rewrite c_bind_run in HQ. unfold getitem at 1 in HQ. split.
    { intros Hnone. by rewrite Hnone in HQ. }
    intros agent_id Hid r2. rewrite Hid in HQ. cbn [c_ret] in HQ.
    pose proof (steps_since_trans _ _ _ _ _ H1
                  (prepare_agent_steps env agent_id r1.2)) as H2.
    split; [exact H2|]. split.
    { intros o Ho. rewrite HQ. by apply c_bind_stopped. }
    intros d Hd r3. rewrite (c_bind_returned _ _ _ _ Hd) in HQ.
    pose proof (steps_since_trans _ _ _ _ _ H2
                  (wait_for_status_steps env fuel agent_id (u "PREPARED")
                     600 10 r2.2)) as H3.
    split; [exact H3|]. split.
    { intros o Ho. rewrite HQ. by apply c_bind_stopped. }
    intros st Hst r4. rewrite (c_bind_returned _ _ _ _ Hst) in HQ.
    pose proof (steps_since_trans _ _ _ _ _ H3
                  (create_alias_steps env agent_id alias_name r3.2)) as H4.
    split; [exact H4|]. split.
    { intros o Ho. rewrite HQ. by apply c_bind_stopped. }
    intros al Hal. rewrite (c_bind_returned _ _ _ _ Hal) in HQ.
    rewrite c_bind_run in HQ. unfold getitem at 1 in HQ. split.
    { intros Hnone. by rewrite Hnone in HQ. }
    intros alias_id Hid'. rewrite Hid' in HQ. cbn [c_ret] in HQ.
    split; [exact HQ|]. rewrite HQ.
    exact (steps_since_trans _ _ _ _ _ H4
             (invoke_steps env agent_id alias_id prompt None false r4.2)).
Qed.

Lemma quickstart_cmd_steps_in_order_witness :
  (quickstart_cmd (CliSim.env Samples4.smooth Samples4.alias_exists) 5
     None None Environments.complete (u "prod") (u "Say hello")
     CliSim.world0).1
  = Raised (ClientError (Some (u "ConflictException")) (u "alias exists")).
Proof.
  destruct (quickstart_cmd_steps_in_order
              (CliSim.env Samples4.smooth Samples4.alias_exists) 5
              None None Environments.complete (u "prod") (u "Say hello")
              CliSim.world0) as (_ & _ & Hstages).
  destruct (Hstages Fixtures.cfg0) as (_ & _ & H1);
    [vm_compute; reflexivity|].
  destruct (H1 (Fixtures.summary (u "A1") (u "strand-demo-agent")
                  (u "CREATING"))) as (_ & H1');
    [vm_compute; reflexivity|].
  destruct (H1' (u "A1")) as (_ & _ & H2); [vm_compute; reflexivity|].
  destruct (H2 ∅) as (_ & _ & H3); [vm_compute; reflexivity|].
  destruct (H3 (u "PREPARED")) as (_ & H4 & _); [vm_compute; reflexivity|].
  rewrite (H4 (Raised (ClientError (Some (u "ConflictException"))
                         (u "alias exists"))));
    [reflexivity | vm_compute; reflexivity].
Defined.

Lemma command_config_accepts ctx_region instr environ cfg :
  command_config ctx_region instr environ = inr cfg ->
  instruction cfg
  = or_str instr (getenv environ (u "AGENT_INSTRUCTION") default_instruction)
  /\ 40 <= length (instruction cfg)
  /\ environ !! u "AGENT_ROLE_ARN" = Some (role_arn cfg)
  /\ role_arn cfg <> [].
Proof.
  unfold command_config. cbn [role_arn].
  destruct (Nat.ltb_spec
              (length (or_str instr
                         (getenv environ (u "AGENT_INSTRUCTION")
                            default_instruction))) 40) as [Hlt|Hge]; [done|].
  rewrite truthy_getenv_role. unfold getenv in *.
  destruct (environ !! u "AGENT_ROLE_ARN") as [[|c r]|];
    cbn [truthy_opt truthy negb default]; try done.
  intros [= <-]. by cbn [instruction role_arn].
Qed.

Lemma command_config_refuses ctx_region instr environ code :
  command_config ctx_region instr environ = inl code -> code = 2%Z.
Proof.
  unfold command_config.
  destruct (_ <? _)%nat; [congruence|].
  destruct (negb _); congruence.
Qed.

(** X18. [create-agent] either leaves with status 2 before it asks
    anything, or asks for one token and sends one creation request, which
    carries the instruction chosen, of at least 40 characters, and the
    non-empty role of the environment; what it asks afterwards is no
    further creation, preparation, alias or invocation. *)
Theorem create_agent_cmd_sends_checked_request {S : Type} (env : CliEnv S)
    (fuel : nat) (ctx_region instr : option pystr) (environ : dict)
    (w : cli_world S) :
  create_agent_cmd env fuel ctx_region instr environ w = (SystemExit 2, w)
  \/ exists rq extra,
      cli_calls (create_agent_cmd env fuel ctx_region instr environ w).2
      = cli_calls w
        ++ Manager_call Call_uuid4 :: Manager_call (Call_create_agent rq)
           :: extra
      /\ rq_instruction rq
         = or_str instr
             (getenv environ (u "AGENT_INSTRUCTION") default_instruction)
      /\ 40 <= length (rq_instruction rq)
      /\ environ !! u "AGENT_ROLE_ARN" = Some (agentResourceRoleArn rq)
      /\ agentResourceRoleArn rq <> []
      /\ clientToken rq = (uuid4 (manager_env env) (cli_remote w)).1
      /\ Forall (fun c => step_of c = None) extra.
Proof.
  unfold create_agent_cmd.
  destruct (command_config ctx_region instr environ) as [code|cfg] eqn:Hcfg.
  { left. by rewrite (command_config_refuses _ _ _ _ Hcfg). }
  right.
  destruct (command_config_accepts _ _ _ _ Hcfg) as (Hi & Hlen & Hrole & Hne).
  destruct (create_agent_calls_gen (manager_env env) is_quiet fuel cfg
              (World (cli_remote w) [])) as (extra & Hc & Hq); [done|done|].
  cbn [calls app remote] in Hc.
  exists (create_request cfg (uuid4 (manager_env env) (cli_remote w)).1),
    (List.map Manager_call extra).
  split; [|repeat split; try done].
  - rewrite c_bind_run. unfold lift. rewrite Hc.
    by destruct (create_agent _ _ _ _).1.
  - apply List.Forall_map. exact Hq.
Qed.

(** On a service that answers every step, [quickstart] returns the text of
    the agent; where the alias exists already, it stops after three
    steps with the error of the remote. *)
Example quickstart_cmd_sample_runs :
  (quickstart_cmd (CliSim.env Samples4.smooth Samples4.alias_created) 5
     None None Environments.complete (u "prod") (u "Say hello")
     CliSim.world0).1 = Returned (u "Hello world")
  /\ omap step_of
       (cli_calls
          (quickstart_cmd (CliSim.env Samples4.smooth Samples4.alias_created) 5
             None None Environments.complete (u "prod") (u "Say hello")
             CliSim.world0).2)
     = [Creation; Preparation; AliasCreation; Invocation]
  /\ (quickstart_cmd (CliSim.env Samples4.smooth Samples4.alias_exists) 5
        None None Environments.complete (u "prod") (u "Say hello")
        CliSim.world0).1
     = Raised (ClientError (Some (u "ConflictException")) (u "alias exists"))
  /\ omap step_of
       (cli_calls
          (quickstart_cmd (CliSim.env Samples4.smooth Samples4.alias_exists) 5
             None None Environments.complete (u "prod") (u "Say hello")
             CliSim.world0).2)
     = [Creation; Preparation; AliasCreation].
Proof. repeat split; by vm_compute. Qed.

(** * [invoke]: the alias the command invokes *)

Lemma find_has_value_truthy (key v : pystr) (l : list dict) (a : dict) :
  List.find (has_value key v) l = Some a -> truthy_dict (Some a) = true.
Proof.
  intros Hf. apply List.find_some in Hf as [_ Hv].
  unfold has_value in Hv. apply bool_decide_eq_true in Hv.
  cbn [truthy_dict]. apply negb_true_iff, bool_decide_eq_false.
  intros ->. by rewrite lookup_empty in Hv.
Qed.

(** X19. How the [invoke] command finds its alias.  An alias argument that
    is given and not empty is normalized and nothing is asked of the remote.
    Otherwise the aliases of the agent are listed: an error of the listing,
    of whatever kind, ends the command with status 2; so does, without
    [--create-alias-if-missing], a listing that holds no alias of the name
    asked; the first alias summary of that name gives its id; and with the
    flag a missing alias is created under the name asked. *)
Theorem invoke_cmd_alias_resolution {S : Type} (env : CliEnv S) (fuel : nat)
    (agent_id : pystr) (alias_id : option pystr) (alias_name : pystr)
    (create_alias_if_missing : bool) (w : cli_world S) :
  (truthy_opt alias_id = true ->
   invoke_cmd_alias env fuel agent_id alias_id alias_name
     create_alias_if_missing w
   = (Returned (Some (_extract_alias_id (default [] alias_id))), w))
  /\ (truthy_opt alias_id = false ->
      forall r w1,
        list_aliases (manager_env env) fuel agent_id 100
          (World (cli_remote w) []) = (r, w1) ->
        let w' :=
          CliWorld (remote w1)
            (cli_calls w ++ List.map Manager_call (calls w1)) in
        (forall e, r = Raise e ->
           invoke_cmd_alias env fuel agent_id alias_id alias_name
             create_alias_if_missing w = (SystemExit 2, w'))
        /\ (forall l a,
              r = Ok l ->
              List.find (has_value (u "agentAliasName") alias_name) l
              = Some a ->
              invoke_cmd_alias env fuel agent_id alias_id alias_name
                create_alias_if_missing w
              = (Returned (a !! u "agentAliasId"), w'))
        /\ (forall l,
              r = Ok l ->
              List.find (has_value (u "agentAliasName") alias_name) l = None ->
              if create_alias_if_missing
              then
                cli_calls
                  (invoke_cmd_alias env fuel agent_id alias_id alias_name
                     create_alias_if_missing w).2
                = cli_calls w'
                  ++ [Manager_call Call_uuid4;
                      Call_create_agent_alias
                        (create_alias_request agent_id alias_name
                           (uuid4 (manager_env env) (remote w1)).1)]
              else
                invoke_cmd_alias env fuel agent_id alias_id alias_name
                  create_alias_if_missing w = (SystemExit 2, w'))).
Proof.
  split.
  { intros Hgiven. unfold invoke_cmd_alias. by rewrite Hgiven. }
  intros Hmissing r w1 Hrun w'.
  unfold invoke_cmd_alias. rewrite Hmissing.
  rewrite c_bind_run. unfold c_try, lift, find_alias_by_name.
  rewrite bind_run, Hrun. cbn [fst snd]. fold w'.
  split; [|split].
  - by intros e ->.
  - intros l a -> Hf. cbn [of_res fst snd mret M_ret ret]. rewrite Hf.
    by rewrite (find_has_value_truthy _ _ _ _ Hf).
  - intros l -> Hf. cbn [of_res fst snd mret M_ret ret]. rewrite Hf.
    cbn [truthy_dict negb].
    destruct create_alias_if_missing; [|done].
    rewrite c_bind_run. subst w'.
    pose proof (create_alias_calls env agent_id alias_name
                  (CliWorld (remote w1)
                     (cli_calls w ++ List.map Manager_call (calls w1)))) as Hc.
    cbn [cli_remote cli_calls] in Hc.
    by destruct (create_alias env agent_id alias_name _) as [[a|e|c|] w2].
Qed.

Lemma invoke_cmd_alias_resolution_witness :
  (invoke_cmd_alias (CliSim.env Samples4.smooth Samples4.alias_exists) 5
     (u "A1") None (u "prod") false CliSim.world0).1
  = Returned (Some (u "AL1"))
  /\ (invoke_cmd_alias (CliSim.env Samples.base Samples4.alias_exists) 5
        (u "A1") None (u "prod") false CliSim.world0).1
     = SystemExit 2.
Proof.
  split.
  - destruct (proj2 (invoke_cmd_alias_resolution
                       (CliSim.env Samples4.smooth Samples4.alias_exists) 5
                       (u "A1") None (u "prod") false CliSim.world0)
                eq_refl _ _ (surjective_pairing _)) as (_ & Hfound & _).
    rewrite (Hfound [Samples.alias_summary (u "AL0") (u "dev");
                     Samples.alias_summary (u "AL1") (u "prod")]
               (Samples.alias_summary (u "AL1") (u "prod"))).
    + cbn [fst]. f_equal.
    + vm_compute. reflexivity.
    + vm_compute. reflexivity.
  - destruct (proj2 (invoke_cmd_alias_resolution
                       (CliSim.env Samples.base Samples4.alias_exists) 5
                       (u "A1") None (u "prod") false CliSim.world0)
                eq_refl _ _ (surjective_pairing _)) as (Hfails & _).
    rewrite (Hfails (ClientError (Some (u "ServiceUnavailableException"))
                       (u "unavailable"))).
    + reflexivity.
    + vm_compute. reflexivity.
Defined.
